(** * Receipt extraction: the client, the reducer and the currency helpers

    A shallow embedding of the TypeScript sources
      - services/geminiService.ts   (the two-stage extraction client),
      - store/receiptSlice.ts       (the thunk and the reducer),
      - common/helpers.ts           (currency formatting and detection),
    and the properties of the specification proved over it.

    Conventions of the embedding.
      - A JavaScript string is a [string]; each character stands for one code
        unit.  Code units above U+00FF are outside the model, so the blank
        characters known to [trim] and to the regular expression class \s
        are U+0009..U+000D, U+0020 and U+00A0.  (The one text that needs
        such a code unit, the infinity sign in a rendering, is written in
        its UTF-8 bytes.)
      - [undefined] is [None]; [null] is a value of its own ([JNull]).
      - An [async] function is run to completion: a computation takes the
        trace of external events so far and gives back a completion (a value
        or a thrown value) and the extended trace.
      - Numbers are exact decimals; IEEE rounding is not modelled.
      - A promise that never settles (a model call that hangs) is not
        modelled: every external call answers.

    The definitions come first: the sources, then the reference
    implementations of the platform primitives the sources call
    ([JSON.parse], [parseFloat], [Intl.NumberFormat]) and the notions the
    statements use. The properties follow. *)

From Stdlib Require Import String Ascii List ZArith Lia Bool Arith.
Import ListNotations.
Set Warnings "-register-all".
Open Scope string_scope.

(* ================================================================== *)
(** ** JavaScript strings                                              *)
(* ================================================================== *)

Module Js.

(** WhiteSpace and LineTerminator code units (within U+0000..U+00FF). *)
Definition isWhiteSpace (c : ascii) : bool :=
  let n := nat_of_ascii c in
  (((9 <=? n) && (n <=? 13)) || (n =? 32) || (n =? 160))%nat.

(** [s.startsWith(p)] *)
Fixpoint startsWith (s p : string) : bool :=
  match p, s with
  | EmptyString, _ => true
  | String _ _, EmptyString => false
  | String a p', String b s' => Ascii.eqb a b && startsWith s' p'
  end.

(** [s.includes(p)] *)
Fixpoint includes (s p : string) : bool :=
  startsWith s p ||
  match s with
  | EmptyString => false
  | String _ s' => includes s' p
  end.

(** Every code unit of the text satisfies [p]. *)
Fixpoint all (p : ascii -> bool) (s : string) : bool :=
  match s with
  | EmptyString => true
  | String c s' => p c && all p s'
  end.

(** The text without its longest prefix, or suffix, of code units
    satisfying [p]. *)
Fixpoint stripStart (p : ascii -> bool) (s : string) : string :=
  match s with
  | EmptyString => EmptyString
  | String c s' => if p c then stripStart p s' else s
  end.

Fixpoint stripEnd (p : ascii -> bool) (s : string) : string :=
  match s with
  | EmptyString => EmptyString
  | String c s' =>
      match stripEnd p s' with
      | EmptyString => if p c then EmptyString else String c EmptyString
      | r => String c r
      end
  end.

Definition trimStart (s : string) : string := stripStart isWhiteSpace s.
Definition trimEnd (s : string) : string := stripEnd isWhiteSpace s.

(** [s.trim()] *)
Definition trim (s : string) : string := trimEnd (trimStart s).

Fixpoint lastChar (s : string) : option ascii :=
  match s with
  | EmptyString => None
  | String c EmptyString => Some c
  | String _ r => lastChar r
  end.

(** Drop the first [n] code units. *)
Fixpoint drop (n : nat) (s : string) : string :=
  match n, s with
  | O, _ => s
  | S _, EmptyString => EmptyString
  | S k, String _ s' => drop k s'
  end.

(** [s.split(sep)] for a one-character separator. *)
Fixpoint split (sep : ascii) (s : string) : list string :=
  match s with
  | EmptyString => [EmptyString]
  | String c s' =>
      if Ascii.eqb c sep then EmptyString :: split sep s'
      else match split sep s' with
           | [] => [String c EmptyString]
           | h :: t => String c h :: t
           end
  end.

(** The case mappings of a code unit: the letters A..Z and a..z, and the
    accented letters of U+00C0..U+00FE. Three code units have an upper
    case that is no single code unit of U+0000..U+00FF: U+00DF, whose
    upper case is the two letters SS, and U+00B5 and U+00FF, whose upper
    cases are U+039C and U+0178. [upperChar] keeps the three; this is
    what a pattern with the flag i does with U+00DF, and for the other
    two it tells them from every letter of a pattern just as their upper
    cases do. *)
Definition lowerChar (c : ascii) : ascii :=
  let n := nat_of_ascii c in
  if (((65 <=? n) && (n <=? 90)) ||
      ((192 <=? n) && (n <=? 222) && negb (n =? 215)))%nat
  then ascii_of_nat (n + 32) else c.

Definition upperChar (c : ascii) : ascii :=
  let n := nat_of_ascii c in
  if (((97 <=? n) && (n <=? 122)) ||
      ((224 <=? n) && (n <=? 254) && negb (n =? 247)))%nat
  then ascii_of_nat (n - 32) else c.

Fixpoint mapChars (f : ascii -> ascii) (s : string) : string :=
  match s with
  | EmptyString => EmptyString
  | String c s' => String (f c) (mapChars f s')
  end.

(** [s.toLowerCase()] *)
Definition toLowerCase : string -> string := mapChars lowerChar.

(** [s.toUpperCase()]: code unit by code unit, but for U+00DF, which
    becomes SS. The upper cases of U+00B5 and U+00FF cannot be written in
    U+0000..U+00FF: the two code units are kept, and [upperCaseInRange]
    tells the texts that hold neither, on which this is the text
    JavaScript gives. *)
Definition sharpS : ascii := ascii_of_nat 223.

Fixpoint toUpperCase (s : string) : string :=
  match s with
  | EmptyString => EmptyString
  | String c s' =>
      if Ascii.eqb c sharpS then String "S" (String "S" (toUpperCase s'))
      else String (upperChar c) (toUpperCase s')
  end.

Definition upperCaseInRange (s : string) : bool :=
  all (fun c => negb (Ascii.eqb c (ascii_of_nat 181)) &&
                negb (Ascii.eqb c (ascii_of_nat 255))) s.

(** Truthiness of a string: the empty string is falsy. *)
Definition truthy (s : string) : bool :=
  match s with EmptyString => false | _ => true end.

(** A text none of whose code units is blank (a token such as NOT_RECEIPT). *)
Definition noBlank (s : string) : bool :=
  all (fun c => negb (isWhiteSpace c)) s.

End Js.

(* ================================================================== *)
(** ** Values, thrown values, completions                              *)
(* ================================================================== *)

(** A JavaScript number. [Finite m e] is the decimal m * 10^e. *)
Inductive number : Type :=
| NaN
| Infinite (negative : bool)
| Finite (mantissa exponent : Z).

Definition isNaN (x : number) : bool :=
  match x with NaN => true | _ => false end.

(** The range of the doubles. A decimal whose magnitude is at or above
    2^1024 - 2^970 is read as an infinity, one at or below 2^-1075 as
    zero. Inside the range a decimal is kept as it is written: the
    rounding to the nearest double is not modelled. *)
Definition overflows (a e : Z) : bool :=
  let limit := (2 ^ 1024 - 2 ^ 970)%Z in
  if (0 <=? e)%Z then (limit <=? a * 10 ^ e)%Z
  else (limit * 10 ^ (- e) <=? a)%Z.

Definition underflows (a e : Z) : bool :=
  if (0 <=? e)%Z then false else (a * 2 ^ 1075 <=? 10 ^ (- e))%Z.

Definition toDouble (x : number) : number :=
  match x with
  | Finite m e =>
      let a := Z.abs m in
      if (a =? 0)%Z then x
      else if overflows a e then Infinite (m <? 0)%Z
      else if underflows a e then Finite 0 0
      else x
  | _ => x
  end.

(** What [JSON.parse] can return. An object keeps its members as a list;
    the first binding of a key is the one a property read sees. *)
Inductive json : Type :=
| JNull
| JBool (b : bool)
| JNum (n : number)
| JStr (s : string)
| JArr (elements : list json)
| JObj (members : list (string * json)).

(** A thrown value: an [Error] instance with its message, or anything else
    (the event a failed [FileReader] rejects with, for one). *)
Inductive thrown : Type :=
| JsError (message : string)
| NonError.

Inductive completion (A : Type) : Type :=
| Normal (a : A)
| Throw (e : thrown).
Arguments Normal {A} a.
Arguments Throw {A} e.

(** The uploaded file: the two properties the client reads. *)
Module File.
Record t : Type := mk { name : string; type : string }.
End File.

Module InlineData.
Record t : Type := mk { data : option string; mimeType : string }.
End InlineData.

(** One [generateContent] request: model, prompt text, image part. *)
Module Request.
Record t : Type := mk { model : string; text : string; inlineData : InlineData.t }.
End Request.

(** External events, in the order they happen. *)
Inductive Event : Type :=
| ReadFile (f : File.t)
| GenerateContent (r : Request.t).

(** The world outside the client: the file reader, the model and the clock.
    Each answer may depend on everything that happened before.
      - [readAsDataURL] gives the data URL, or [None] when the reader fails;
      - [generateContent] gives [candidates?.[0]?.content?.parts?.[0]?.text]
        of the reply, or throws. *)
Record Env : Type := mkEnv {
  readAsDataURL : list Event -> File.t -> option string;
  generateContent : list Event -> Request.t -> completion (option string);
  Date_now : string;
  Math_random_suffix : string;
  Date_toISOString : string
}.

(** Computations: a trace of events in, a completion and the trace out. *)
Definition M (A : Type) : Type := list Event -> completion A * list Event.

Definition ret {A} (a : A) : M A := fun tr => (Normal a, tr).
Definition throw {A} (e : thrown) : M A := fun tr => (Throw e, tr).
Definition bind {A B} (m : M A) (k : A -> M B) : M B :=
  fun tr =>
    match m tr with
    | (Normal a, tr') => k a tr'
    | (Throw e, tr') => (Throw e, tr')
    end.
Definition tryCatch {A} (m : M A) (handler : thrown -> M A) : M A :=
  fun tr =>
    match m tr with
    | (Normal a, tr') => (Normal a, tr')
    | (Throw e, tr') => handler e tr'
    end.

Notation "x <- m ;; k" := (bind m (fun x => k))
  (at level 61, m at next level, right associativity).

(* ================================================================== *)
(** ** Property reads, truthiness, typeof                              *)
(* ================================================================== *)

Fixpoint assoc (k : string) (kvs : list (string * json)) : option json :=
  match kvs with
  | [] => None
  | (k', v) :: rest => if String.eqb k k' then Some v else assoc k rest
  end.

(** ToBoolean of a value that may be [undefined]. *)
Definition truthy (v : option json) : bool :=
  match v with
  | None => false
  | Some JNull => false
  | Some (JBool b) => b
  | Some (JNum NaN) => false
  | Some (JNum (Infinite _)) => true
  | Some (JNum (Finite m _)) => negb (m =? 0)%Z
  | Some (JStr s) => Js.truthy s
  | Some (JArr _) => true
  | Some (JObj _) => true
  end.

(** [v || d] where [d] is a value. *)
Definition orElse (v : option json) (d : json) : json :=
  match v with
  | Some x => if truthy v then x else d
  | None => d
  end.

(** [typeof v === 'string'] *)
Definition isString (v : option json) : bool :=
  match v with Some (JStr _) => true | _ => false end.

Definition Array_isArray (v : option json) : bool :=
  match v with Some (JArr _) => true | _ => false end.

Definition elements (v : option json) : list json :=
  match v with Some (JArr l) => l | _ => [] end.

(* ================================================================== *)
(** ** The records of types/receipt.ts                                 *)
(* ================================================================== *)

Module Product.
Record t : Type := mk {
  name : option json;
  price : option json;
  quantity : option json;
  total : option json
}.
End Product.

Module ReceiptData.
Record t : Type := mk {
  id : string;
  storeName : json;
  address : json;
  phone : json;
  date : json;
  items : list json;
  total : json;
  tax : json;
  timestamp : string;
  fileName : string;
  totalItems : json;
  currency : json;
  products : list Product.t;
  total_spending : json;
  extraction_date : string;
  file_name : string
}.
End ReceiptData.

Module ApiResponse.
Record t : Type := mk {
  success : bool;
  data : option ReceiptData.t;
  error : option string
}.
End ApiResponse.

Module Validation.
Record t : Type := mk { isValid : bool; reason : option string }.
End Validation.

(* ================================================================== *)
(** ** services/geminiService.ts                                       *)
(* ================================================================== *)

Definition newline : ascii := ascii_of_nat 10.

(** [s.replace(/FENCE\n?/, '')] for a literal FENCE: the leftmost
    occurrence goes, with the line feed after it when there is one. *)
Fixpoint removeOpeningFence (fence s : string) : string :=
  if Js.startsWith s fence then
    match Js.drop (String.length fence) s with
    | String c r => if Ascii.eqb c newline then r else String c r
    | EmptyString => EmptyString
    end
  else
    match s with
    | EmptyString => EmptyString
    | String c s' => String c (removeOpeningFence fence s')
    end.

(** [s.replace(/\n?```$/, '')]: the match has to end the text, and the
    leftmost start wins, so a line feed before the fence goes with it. *)
Fixpoint removeClosingFence (s : string) : string :=
  if String.eqb s (String newline "```") || String.eqb s "```" then EmptyString
  else
    match s with
    | EmptyString => EmptyString
    | String c s' => String c (removeClosingFence s')
    end.

(** Lines 274-279: strip the Markdown fence markers. *)
Definition stripFences (text : string) : string :=
  if Js.startsWith text "```json" then
    removeClosingFence (removeOpeningFence "```json" text)
  else if Js.startsWith text "```" then
    removeClosingFence (removeOpeningFence "```" text)
  else text.

(** Lines 271-279: trim, then strip the fence markers. *)
Definition cleanResponseText (text : string) : string :=
  stripFences (Js.trim text).

(** The service object: its only field is the handle made by [initialize]
    (here the key it was made with), [null] before. *)
Record GeminiReceiptService : Type := mkService { genAI : option string }.

(** Lines 11-17; the service it gives replaces the one of before. *)
Definition initialize (apiKey : string) : completion GeminiReceiptService :=
  if negb (Js.truthy apiKey) then Throw (JsError "Gemini API key is required")
  else Normal (mkService (Some apiKey)).

(** [error instanceof Error ? error.message : fallback] *)
Definition errorMessageOr (e : thrown) (fallback : string) : string :=
  match e with
  | JsError m => m
  | NonError => fallback
  end.

Section Client.

(** The two prompt texts, constants of the source. *)
Variable getReceiptValidationPrompt : string.
Variable getPrompt : string.

(** [JSON.parse]; [None] when it throws a SyntaxError. *)
Variable JSON_parse : string -> option json.

(** The message of the TypeError the engine raises when property [p] of
    [null] is read. *)
Variable nullReadMessage : string -> string.

Variable env : Env.

(** [v.p]: a TypeError on [null]; an own member of an object; [undefined]
    on arrays and primitives, which have none of the names read here. *)
Definition getProp (v : json) (p : string) : M (option json) :=
  match v with
  | JNull => throw (JsError (nullReadMessage p))
  | JObj kvs => ret (assoc p kvs)
  | _ => ret None
  end.

(** Lines 19-31: the promise resolves with [result.split(',')[1]], or
    rejects with the event of the reader, which is no [Error]. *)
Definition fileToBase64 (file : File.t) : M (option string) :=
  fun tr =>
    match readAsDataURL env tr file with
    | Some result =>
        (Normal (nth_error (Js.split ","%char result) 1),
         (tr ++ [ReadFile file])%list)
    | None => (Throw NonError, (tr ++ [ReadFile file])%list)
    end.

(** [await this.genAI.models.generateContent(req)], read down to the text
    of the first part of the first candidate. *)
Definition models_generateContent (req : Request.t) : M (option string) :=
  fun tr => (generateContent env tr req, (tr ++ [GenerateContent req])%list).

(** Lines 152-218. *)
Definition validateReceiptImage (this : GeminiReceiptService) (file : File.t)
  : M Validation.t :=
  tryCatch
    (match genAI this with
     | None => throw (JsError "Gemini service not initialized")
     | Some _ =>
         base64Data <- fileToBase64 file ;;
         let imagePart := InlineData.mk base64Data (File.type file) in
         validationResult <- models_generateContent
           (Request.mk "gemini-2.0-flash-exp" getReceiptValidationPrompt imagePart) ;;
         let validationText := option_map Js.trim validationResult in
         match validationText with
         | None | Some EmptyString =>
             ret (Validation.mk false
                    (Some "Unable to analyze image. Please try with a clearer image."))
         | Some validationText =>
             if Js.includes validationText "VALID_RECEIPT" then
               ret (Validation.mk true None)
             else if Js.includes validationText "NOT_RECEIPT" then
               ret (Validation.mk false
                      (Some "This image does not appear to be a payment receipt. Please upload a receipt, invoice, or bill."))
             else if Js.includes validationText "UNCLEAR_IMAGE" then
               ret (Validation.mk false
                      (Some "The image is too unclear to process. Please upload a clearer image of your receipt."))
             else
               ret (Validation.mk false
                      (Some "Unable to determine if this is a valid receipt. Please try with a clearer receipt image."))
         end
     end)
    (fun _ => ret (Validation.mk false (Some "Failed to validate image. Please try again."))).

(** Lines 300-306: the loop over the items. *)
Fixpoint validateItems (items : list json) : M unit :=
  match items with
  | [] => ret tt
  | item :: rest =>
      n <- getProp item "name" ;;
      if negb (isString n) then throw (JsError "Invalid item format in response")
      else
        p <- getProp item "price" ;;
        if negb (isString p) then throw (JsError "Invalid item format in response")
        else
          q <- getProp item "quantity" ;;
          if negb (isString q) then throw (JsError "Invalid item format in response")
          else validateItems rest
  end.

(** Lines 329-334: the legacy product of one item. *)
Definition toProduct (item : json) : M Product.t :=
  n <- getProp item "name" ;;
  p <- getProp item "price" ;;
  q <- getProp item "quantity" ;;
  t <- getProp item "price" ;;
  ret (Product.mk n p q t).

Fixpoint mapM {A B} (f : A -> M B) (l : list A) : M (list B) :=
  match l with
  | [] => ret []
  | a :: rest => b <- f a ;; bs <- mapM f rest ;; ret (b :: bs)
  end.

(** Lines 239-343: step 2 of [extractReceiptData], from the second read
    of the file to the success it returns. *)
Definition extractStage (file : File.t) : M ApiResponse.t :=
  base64Data <- fileToBase64 file ;;
  let imagePart := InlineData.mk base64Data (File.type file) in
  let prompt := getPrompt in
  result <- models_generateContent
    (Request.mk "gemini-2.0-flash-exp" prompt imagePart) ;;
  match result with
  | None | Some EmptyString =>
      throw (JsError "No text content received from AI response")
  | Some text =>
      let text := cleanResponseText text in
      extractedData <-
        match JSON_parse text with
        | Some v => ret v
        | None => throw (JsError "Failed to parse AI response as JSON")
        end ;;
      items <- getProp extractedData "items" ;;
      if negb (truthy items) || negb (Array_isArray items) then
        throw (JsError "Invalid response format: missing items array")
      else
        _ <- validateItems (elements items) ;;
        let id := "receipt_" ++ Date_now env ++ "_" ++ Math_random_suffix env in
        let timestamp := Date_toISOString env in
        storeName <- getProp extractedData "storeName" ;;
        address <- getProp extractedData "address" ;;
        phone <- getProp extractedData "phone" ;;
        date <- getProp extractedData "date" ;;
        total <- getProp extractedData "total" ;;
        tax <- getProp extractedData "tax" ;;
        totalItems <- getProp extractedData "totalItems" ;;
        currency <- getProp extractedData "currency" ;;
        products <- mapM toProduct (elements items) ;;
        let receiptData :=
          ReceiptData.mk
            id
            (orElse storeName JNull)
            (orElse address JNull)
            (orElse phone JNull)
            (orElse date JNull)
            (elements items)
            (orElse total JNull)
            (orElse tax JNull)
            timestamp
            (File.name file)
            (orElse totalItems JNull)
            (orElse currency (JStr "USD"))
            products
            (orElse total (JNum (Finite 0 0)))
            timestamp
            (File.name file) in
        ret (ApiResponse.mk true (Some receiptData) None)
  end.

(** Lines 220-353. *)
Definition extractReceiptData (this : GeminiReceiptService) (file : File.t)
  : M ApiResponse.t :=
  tryCatch
    (match genAI this with
     | None => throw (JsError "Gemini service not initialized. Please provide API key.")
     | Some _ =>
         validation <- validateReceiptImage this file ;;
         if negb (Validation.isValid validation) then
           ret (ApiResponse.mk false None
                  (Some (match Validation.reason validation with
                         | Some r => if Js.truthy r then r else "Invalid receipt image"
                         | None => "Invalid receipt image"
                         end)))
         else extractStage file
     end)
    (fun error =>
       ret (ApiResponse.mk false None
              (Some (errorMessageOr error "Unknown error occurred during extraction")))).

End Client.

(* ================================================================== *)
(** ** store/receiptSlice.ts                                           *)
(* ================================================================== *)

Module ExtractionState.
Record t : Type := mk {
  isLoading : bool;
  isProcessing : bool;
  data : option ReceiptData.t;
  currentExtraction : option ReceiptData.t;
  error : option string;
  progress : Z;
  history : list ReceiptData.t
}.
End ExtractionState.

Import ExtractionState.

Inductive Action : Type :=
| resetState
| clearCurrentExtraction
| clearError
| updateProgress (payload : Z)
| saveToHistory
| clearHistory
| removeFromHistory (payload : string)
| loadFromHistory (payload : string)
| extractReceiptData_pending
| extractReceiptData_fulfilled (payload : ReceiptData.t)
| extractReceiptData_rejected (payload : option string)
| testApiKey_pending
| testApiKey_fulfilled
| testApiKey_rejected (payload : option string).

(** [history.slice(0, n)] *)
Definition slice0 {A} (n : nat) (l : list A) : list A := firstn n l.

(** One reducer step. The second component is the list handed to
    [saveHistoryToStorage], when the case calls it. *)
Definition reducer (state : ExtractionState.t) (action : Action)
  : ExtractionState.t * option (list ReceiptData.t) :=
  match action with
  | resetState =>
      (mk false false None None None 0 (history state), None)
  | clearCurrentExtraction =>
      (mk (isLoading state) (isProcessing state) (data state) None None 0
          (history state), None)
  | clearError =>
      (mk (isLoading state) (isProcessing state) (data state)
          (currentExtraction state) None (progress state) (history state), None)
  | updateProgress p =>
      (mk (isLoading state) (isProcessing state) (data state)
          (currentExtraction state) (error state) p (history state), None)
  | saveToHistory =>
      match data state with
      | Some d =>
          let newHistory := d :: slice0 9 (history state) in
          (mk (isLoading state) (isProcessing state) (data state)
              (currentExtraction state) (error state) (progress state)
              newHistory, Some newHistory)
      | None => (state, None)
      end
  | clearHistory =>
      (mk (isLoading state) (isProcessing state) (data state)
          (currentExtraction state) (error state) (progress state) [], Some [])
  | removeFromHistory fileNameToRemove =>
      let h := filter (fun item =>
                 negb (String.eqb (ReceiptData.file_name item) fileNameToRemove))
                 (history state) in
      (mk (isLoading state) (isProcessing state) (data state)
          (currentExtraction state) (error state) (progress state) h, Some h)
  | loadFromHistory fileName =>
      match find (fun item => String.eqb (ReceiptData.file_name item) fileName)
                 (history state) with
      | Some historyItem =>
          (mk (isLoading state) (isProcessing state) (Some historyItem)
              (currentExtraction state) None (progress state) (history state),
           None)
      | None => (state, None)
      end
  | extractReceiptData_pending =>
      (mk true true (data state) (currentExtraction state) None 0
          (history state), None)
  | extractReceiptData_fulfilled payload =>
      let newHistory := payload :: slice0 9 (history state) in
      (mk false false (Some payload) (Some payload) None 100 newHistory,
       Some newHistory)
  | extractReceiptData_rejected payload =>
      (mk false false (data state) (currentExtraction state) payload 0
          (history state), None)
  | testApiKey_pending =>
      (mk true (isProcessing state) (data state) (currentExtraction state)
          None (progress state) (history state), None)
  | testApiKey_fulfilled =>
      (mk false (isProcessing state) (data state) (currentExtraction state)
          None (progress state) (history state), None)
  | testApiKey_rejected payload =>
      (mk false (isProcessing state) (data state) (currentExtraction state)
          payload (progress state) (history state), None)
  end.

(** The store: the slice state and the value under the key
    'receipt-extraction-history' as last handed to [saveHistoryToStorage]. *)
Record Store : Type := mkStore {
  state : ExtractionState.t;
  saved : option (list ReceiptData.t)
}.

Definition dispatch (st : Store) (a : Action) : Store :=
  match reducer (state st) a with
  | (s', Some h) => mkStore s' (Some h)
  | (s', None) => mkStore s' (saved st)
  end.

Definition dispatchAll (st : Store) (actions : list Action) : Store :=
  fold_left dispatch actions st.

Section Thunk.

Variable getReceiptValidationPrompt : string.
Variable getPrompt : string.
Variable JSON_parse : string -> option json.
Variable nullReadMessage : string -> string.
Variable env : Env.

(** The payload creator of the thunk (lines 44-70), between the [pending]
    action and the closing [fulfilled] or [rejected] one. It gives the
    actions it dispatches, the closing action, and the service as
    [initialize] left it. *)
Definition payloadCreator (service : GeminiReceiptService)
    (file : File.t) (apiKey : string) (tr : list Event)
  : list Action * GeminiReceiptService * list Event :=
  match initialize apiKey with
  | Throw e =>
      ([extractReceiptData_rejected (Some (errorMessageOr e "Unknown error occurred"))],
       service, tr)
  | Normal service' =>
      match extractReceiptData getReceiptValidationPrompt getPrompt JSON_parse
              nullReadMessage env service' file tr with
      | (Throw e, tr') =>
          ([updateProgress 25;
            extractReceiptData_rejected (Some (errorMessageOr e "Unknown error occurred"))],
           service', tr')
      | (Normal result, tr') =>
          match ApiResponse.success result, ApiResponse.data result with
          | true, Some d =>
              ([updateProgress 25; updateProgress 75; updateProgress 100;
                extractReceiptData_fulfilled d], service', tr')
          | _, _ =>
              let msg := match ApiResponse.error result with
                         | Some m => if Js.truthy m then m
                                     else "Failed to extract receipt data"
                         | None => "Failed to extract receipt data"
                         end in
              ([updateProgress 25; updateProgress 75;
                extractReceiptData_rejected (Some msg)], service', tr')
          end
      end
  end.

(** [dispatch(extractReceiptData(payload))]: every action the store sees. *)
Definition extractReceiptDataThunk (service : GeminiReceiptService)
    (file : File.t) (apiKey : string) (tr : list Event)
  : list Action * GeminiReceiptService * list Event :=
  match payloadCreator service file apiKey tr with
  | (actions, service', tr') => (extractReceiptData_pending :: actions, service', tr')
  end.

End Thunk.

(* ================================================================== *)
(** ** common/helpers.ts                                               *)
(* ================================================================== *)

Definition CURRENCY_LOCALE_MAP : list (string * string) :=
  [ ("USD", "en-US"); ("EUR", "de-DE"); ("GBP", "en-GB"); ("JPY", "ja-JP");
    ("CAD", "en-CA"); ("AUD", "en-AU"); ("CHF", "de-CH"); ("CNY", "zh-CN");
    ("INR", "en-IN"); ("KRW", "ko-KR"); ("SGD", "en-SG"); ("HKD", "en-HK");
    ("MXN", "es-MX"); ("BRL", "pt-BR"); ("RUB", "ru-RU"); ("SEK", "sv-SE");
    ("NOK", "nb-NO"); ("DKK", "da-DK"); ("PLN", "pl-PL"); ("CZK", "cs-CZ");
    ("HUF", "hu-HU"); ("RON", "ro-RO"); ("BGN", "bg-BG"); ("HRK", "hr-HR");
    ("TRY", "tr-TR"); ("ILS", "he-IL"); ("AED", "ar-AE"); ("SAR", "ar-SA");
    ("THB", "th-TH"); ("VND", "vi-VN"); ("IDR", "id-ID"); ("MYR", "ms-MY");
    ("PHP", "en-PH"); ("TWD", "zh-TW"); ("NZD", "en-NZ"); ("ZAR", "en-ZA");
    ("EGP", "ar-EG"); ("NGN", "en-NG"); ("KES", "sw-KE"); ("GHS", "en-GH");
    ("MAD", "ar-MA"); ("TND", "ar-TN"); ("JOD", "ar-JO"); ("LBP", "ar-LB");
    ("QAR", "ar-QA"); ("KWD", "ar-KW"); ("BHD", "ar-BH"); ("OMR", "ar-OM") ].

Fixpoint lookup (k : string) (m : list (string * string)) : option string :=
  match m with
  | [] => None
  | (k', v) :: rest => if String.eqb k k' then Some v else lookup k rest
  end.

(** The options object handed to [Intl.NumberFormat]. *)
Module NumberFormatOptions.
Record t : Type := mk {
  style : string;
  currency : string;
  minimumFractionDigits : nat;
  maximumFractionDigits : nat
}.
End NumberFormatOptions.

(** [amount: number | string] *)
Inductive Amount : Type :=
| ofNumber (n : number)
| ofString (s : string).

Section Format.

(** The platform primitives: [parseFloat], and
    [new Intl.NumberFormat(locale, options).format(x)], which throws a
    RangeError for a currency code it rejects. *)
Variable parseFloat : string -> number.
Variable Intl_NumberFormat_format :
  string -> NumberFormatOptions.t -> number -> completion string.

(** [currencyCode] is [None] when the caller leaves it out: the default
    of the parameter is USD. *)
Definition formatCurrency (amount : Amount) (currencyCode : option string)
  : completion string :=
  let currencyCode := match currencyCode with
                      | Some code => code
                      | None => "USD"
                      end in
  let numAmount := match amount with
                   | ofString s => parseFloat s
                   | ofNumber n => n
                   end in
  if isNaN numAmount then Normal "N/A"
  else
    let locale := match lookup (Js.toUpperCase currencyCode) CURRENCY_LOCALE_MAP with
                  | Some l => l
                  | None => "en-US"
                  end in
    match Intl_NumberFormat_format locale
            (NumberFormatOptions.mk "currency" (Js.toUpperCase currencyCode) 2 2)
            numAmount with
    | Normal s => Normal s
    | Throw _ =>
        Intl_NumberFormat_format "en-US"
          (NumberFormatOptions.mk "currency" "USD" 2 2) numAmount
    end.

End Format.

(** *** Regular expressions of [detectCurrencyFromLocation]

    Every pattern of the list is one group of alternatives, each a run of
    literal characters and \s, under the flag i. *)
Inductive atom : Type :=
| Chr (c : ascii)
| Blank.

Definition RegExp : Type := list (list atom).

(** Reads the source text of a pattern: parentheses group, | separates the
    alternatives, \s is the blank class, \. a literal dot. *)
Fixpoint compileAlts (src : string) (cur : list atom) : RegExp :=
  match src with
  | EmptyString => [rev cur]
  | String "|" r => rev cur :: compileAlts r []
  | String "(" r => compileAlts r cur
  | String ")" r => compileAlts r cur
  | String "\" (String "s" r) => compileAlts r (Blank :: cur)
  | String "\" (String c r) => compileAlts r (Chr c :: cur)
  | String c r => compileAlts r (Chr c :: cur)
  end.

Definition regexp (src : string) : RegExp := compileAlts src [].

(** Comparison of code units under the flag i. *)
Definition sameLetter (a b : ascii) : bool :=
  Ascii.eqb (Js.upperChar a) (Js.upperChar b).

Fixpoint matchAtoms (p : list atom) (s : string) : bool :=
  match p, s with
  | [], _ => true
  | _ :: _, EmptyString => false
  | Chr c :: p', String d s' => sameLetter c d && matchAtoms p' s'
  | Blank :: p', String d s' => Js.isWhiteSpace d && matchAtoms p' s'
  end.

Definition matchHere (re : RegExp) (s : string) : bool :=
  existsb (fun alt => matchAtoms alt s) re.

(** [re.test(s)]: a match starting anywhere. *)
Fixpoint RegExp_test (re : RegExp) (s : string) : bool :=
  matchHere re s ||
  match s with
  | EmptyString => false
  | String _ s' => RegExp_test re s'
  end.

Definition patterns : list (RegExp * string) :=
  [ (* North America *)
    (regexp "(usa|united states|america|us\s|u\.s\.|canada|ca\s)", "USD");
    (regexp "(canada|canadian|ca\s)", "CAD");
    (* Europe *)
    (regexp "(germany|deutschland|de\s|berlin|munich|hamburg)", "EUR");
    (regexp "(france|french|fr\s|paris|lyon|marseille)", "EUR");
    (regexp "(italy|italian|it\s|rome|milan|napoli)", "EUR");
    (regexp "(spain|spanish|es\s|madrid|barcelona|valencia)", "EUR");
    (regexp "(netherlands|holland|nl\s|amsterdam)", "EUR");
    (regexp "(uk|united kingdom|britain|gb\s|london|manchester)", "GBP");
    (regexp "(switzerland|swiss|ch\s|zurich|geneva)", "CHF");
    (* Asia *)
    (regexp "(japan|japanese|jp\s|tokyo|osaka|kyoto)", "JPY");
    (regexp "(china|chinese|cn\s|beijing|shanghai|guangzhou)", "CNY");
    (regexp "(india|indian|in\s|mumbai|delhi|bangalore)", "INR");
    (regexp "(korea|korean|kr\s|seoul|busan)", "KRW");
    (regexp "(singapore|sg\s)", "SGD");
    (regexp "(hong kong|hk\s)", "HKD");
    (regexp "(thailand|thai|th\s|bangkok)", "THB");
    (regexp "(vietnam|vietnamese|vn\s|hanoi|ho chi minh)", "VND");
    (regexp "(indonesia|indonesian|id\s|jakarta)", "IDR");
    (regexp "(malaysia|malaysian|my\s|kuala lumpur)", "MYR");
    (regexp "(philippines|filipino|ph\s|manila)", "PHP");
    (* Oceania *)
    (regexp "(australia|australian|au\s|sydney|melbourne)", "AUD");
    (regexp "(new zealand|nz\s|auckland)", "NZD");
    (* Middle East & Africa *)
    (regexp "(uae|emirates|dubai|abu dhabi)", "AED");
    (regexp "(saudi|arabia|riyadh|jeddah)", "SAR");
    (regexp "(israel|israeli|il\s|tel aviv|jerusalem)", "ILS");
    (regexp "(south africa|za\s|johannesburg|cape town)", "ZAR");
    (regexp "(egypt|egyptian|eg\s|cairo)", "EGP");
    (* Americas *)
    (regexp "(mexico|mexican|mx\s|mexico city)", "MXN");
    (regexp "(brazil|brazilian|br\s|sao paulo|rio)", "BRL") ].

(** The loop of lines 191-195, with the default of line 198. *)
Fixpoint firstMatch (ps : list (RegExp * string)) (searchText : string) : string :=
  match ps with
  | [] => "USD"
  | (pattern, currency) :: rest =>
      if RegExp_test pattern searchText then currency
      else firstMatch rest searchText
  end.

Definition optTruthy (s : option string) : bool :=
  match s with Some x => Js.truthy x | None => false end.

(** [s?.toLowerCase() || ''] *)
Definition lowerOrEmpty (s : option string) : string :=
  match s with Some x => Js.toLowerCase x | None => "" end.

Definition detectCurrencyFromLocation (address language : option string) : string :=
  if negb (optTruthy address) && negb (optTruthy language) then "USD"
  else
    let addressLower := lowerOrEmpty address in
    let langLower := lowerOrEmpty language in
    let searchText := addressLower ++ " " ++ langLower in
    firstMatch patterns searchText.

(* ================================================================== *)
(** ** JSON texts                                                      *)
(* ================================================================== *)

(** The lexical facts of the JSON grammar (ECMA-404) the properties of the
    cleanup rest on: which characters are whitespace, and with which
    characters a value begins and ends. *)
Module JsonText.

Definition dquote : ascii := ascii_of_nat 34.
Definition backslash : ascii := ascii_of_nat 92.

(** JSON whitespace: tab, line feed, carriage return, space. *)
Definition isBlank (c : ascii) : bool :=
  let n := nat_of_ascii c in
  ((n =? 9) || (n =? 10) || (n =? 13) || (n =? 32))%nat.

Definition allBlank (s : string) : bool := Js.all isBlank s.

Definition isDigit (c : ascii) : bool :=
  let n := nat_of_ascii c in ((48 <=? n) && (n <=? 57))%nat.

(** No JSON text begins or ends with a character that [trim] removes but
    the grammar does not skip, nor with a backquote: a value begins with
    one of the characters of an opening token. *)
Definition opensValue (c : ascii) : bool :=
  isDigit c ||
  existsb (Ascii.eqb c) ["{"; "["; dquote; "-"; "t"; "f"; "n"]%char.

Definition closesValue (c : ascii) : bool :=
  isDigit c ||
  existsb (Ascii.eqb c) ["}"; "]"; dquote; "e"; "l"]%char.

Definition bounded (body : string) : bool :=
  match body, Js.lastChar body with
  | String c _, Some d => opensValue c && closesValue d
  | _, _ => false
  end.

End JsonText.

(* ================================================================== *)
(** ** A reference [JSON.parse]                                        *)
(* ================================================================== *)

(** The client is embedded over any [JSON.parse]. The parser below follows
    the JSON grammar (ECMA-404) and serves to run the client on concrete
    response texts. String escapes above U+00FF are outside the model. *)
Module RefJSON.

Import JsonText.

Definition skipBlank (s : string) : string := Js.stripStart isBlank s.
Definition dropBlankEnd (s : string) : string := Js.stripEnd isBlank s.

Definition digitVal (c : ascii) : Z := (Z.of_nat (nat_of_ascii c) - 48)%Z.

Definition hexVal (c : ascii) : option nat :=
  let n := nat_of_ascii c in
  if ((48 <=? n) && (n <=? 57))%nat then Some (n - 48)%nat
  else if ((97 <=? n) && (n <=? 102))%nat then Some (n - 87)%nat
  else if ((65 <=? n) && (n <=? 70))%nat then Some (n - 55)%nat
  else None.

(** A run of digits: the number read so far, how many digits, the rest. *)
Fixpoint digits (s : string) (acc : Z) (count : nat) : Z * nat * string :=
  match s with
  | String c r => if isDigit c then digits r (acc * 10 + digitVal c)%Z (S count)
                  else (acc, count, s)
  | EmptyString => (acc, count, s)
  end.

(** number = [ - ] int [ frac ] [ exp ] *)
Definition parseNumber (s : string) : option (number * string) :=
  let (neg, s1) := match s with
                   | String "-" r => (true, r)
                   | _ => (false, s)
                   end in
  match s1 with
  | String c _ =>
      if isDigit c then
        let '(i, ni, s2) := digits s1 0%Z 0%nat in
        if Ascii.eqb c "0" && (1 <? ni)%nat then None
        else
          let fracPart :=
            match s2 with
            | String "." r =>
                let '(m, nf, s3) := digits r i 0%nat in
                if (nf =? 0)%nat then None else Some (m, Z.of_nat nf, s3)
            | _ => Some (i, 0%Z, s2)
            end in
          match fracPart with
          | None => None
          | Some (m, nf, s3) =>
              let expPart :=
                match s3 with
                | String e r =>
                    if Ascii.eqb e "e" || Ascii.eqb e "E" then
                      let (eneg, r1) := match r with
                                        | String "-" r' => (true, r')
                                        | String "+" r' => (false, r')
                                        | _ => (false, r)
                                        end in
                      let '(x, nx, s4) := digits r1 0%Z 0%nat in
                      if (nx =? 0)%nat then None
                      else Some ((if eneg then Z.opp x else x), s4)
                    else Some (0%Z, s3)
                | EmptyString => Some (0%Z, s3)
                end in
              match expPart with
              | None => None
              | Some (x, s4) =>
                  Some (toDouble (Finite (if neg then Z.opp m else m) (x - nf)%Z),
                        s4)
              end
          end
      else None
  | EmptyString => None
  end.

(** The characters of a string literal after its opening quote. *)
Fixpoint parseChars (fuel : nat) (s : string) : option (string * string) :=
  match fuel with
  | O => None
  | S k =>
      match s with
      | EmptyString => None
      | String c r =>
          if Ascii.eqb c dquote then Some (EmptyString, r)
          else if Ascii.eqb c backslash then
            match r with
            | String e r' =>
                let simple (x : ascii) :=
                  match parseChars k r' with
                  | Some (t, rest) => Some (String x t, rest)
                  | None => None
                  end in
                if Ascii.eqb e dquote then simple dquote
                else if Ascii.eqb e backslash then simple backslash
                else if Ascii.eqb e "/" then simple "/"%char
                else if Ascii.eqb e "b" then simple (ascii_of_nat 8)
                else if Ascii.eqb e "f" then simple (ascii_of_nat 12)
                else if Ascii.eqb e "n" then simple (ascii_of_nat 10)
                else if Ascii.eqb e "r" then simple (ascii_of_nat 13)
                else if Ascii.eqb e "t" then simple (ascii_of_nat 9)
                else if Ascii.eqb e "u" then
                  match r' with
                  | String h1 (String h2 (String h3 (String h4 r''))) =>
                      match hexVal h1, hexVal h2, hexVal h3, hexVal h4 with
                      | Some 0%nat, Some 0%nat, Some a, Some b =>
                          match parseChars k r'' with
                          | Some (t, rest) =>
                              Some (String (ascii_of_nat (16 * a + b)) t, rest)
                          | None => None
                          end
                      | _, _, _, _ => None
                      end
                  | _ => None
                  end
                else None
            | EmptyString => None
            end
          else if (nat_of_ascii c <? 32)%nat then None
          else
            match parseChars k r with
            | Some (t, rest) => Some (String c t, rest)
            | None => None
            end
      end
  end.

Definition parseLiteral (lit : string) (v : json) (s : string)
  : option (json * string) :=
  if Js.startsWith s lit then Some (v, Js.drop (String.length lit) s) else None.

(** value, the elements of an array after its bracket, the members of an
    object after its brace. A later member of an object goes in front of
    the earlier ones, so that a read sees the binding [JSON.parse] keeps
    for a repeated key. *)
Fixpoint parseValue (fuel : nat) (s : string) : option (json * string) :=
  match fuel with
  | O => None
  | S k =>
      match skipBlank s with
      | EmptyString => None
      | String c r =>
          if Ascii.eqb c "{" then
            match skipBlank r with
            | String "}" r' => Some (JObj [], r')
            | _ => parseMembers k r []
            end
          else if Ascii.eqb c "[" then
            match skipBlank r with
            | String "]" r' => Some (JArr [], r')
            | _ => parseElements k r []
            end
          else if Ascii.eqb c dquote then
            match parseChars (String.length r + 1) r with
            | Some (t, rest) => Some (JStr t, rest)
            | None => None
            end
          else if Ascii.eqb c "t" then parseLiteral "true" (JBool true) (String c r)
          else if Ascii.eqb c "f" then parseLiteral "false" (JBool false) (String c r)
          else if Ascii.eqb c "n" then parseLiteral "null" JNull (String c r)
          else
            match parseNumber (String c r) with
            | Some (n, rest) => Some (JNum n, rest)
            | None => None
            end
      end
  end
with parseElements (fuel : nat) (s : string) (acc : list json)
  : option (json * string) :=
  match fuel with
  | O => None
  | S k =>
      match parseValue k s with
      | Some (v, rest) =>
          match skipBlank rest with
          | String "," rest' => parseElements k rest' (v :: acc)
          | String "]" rest' => Some (JArr (rev (v :: acc)), rest')
          | _ => None
          end
      | None => None
      end
  end
with parseMembers (fuel : nat) (s : string) (acc : list (string * json))
  : option (json * string) :=
  match fuel with
  | O => None
  | S k =>
      match skipBlank s with
      | String c r =>
          if Ascii.eqb c dquote then
            match parseChars (String.length r + 1) r with
            | Some (key, rest) =>
                match skipBlank rest with
                | String ":" rest1 =>
                    match parseValue k rest1 with
                    | Some (v, rest2) =>
                        match skipBlank rest2 with
                        | String "," rest3 => parseMembers k rest3 ((key, v) :: acc)
                        | String "}" rest3 => Some (JObj ((key, v) :: acc), rest3)
                        | _ => None
                        end
                    | None => None
                    end
                | _ => None
                end
            | None => None
            end
          else None
      | EmptyString => None
      end
  end.

Definition parse (s : string) : option json :=
  let body := dropBlankEnd (skipBlank s) in
  if bounded body then
    match parseValue (2 * String.length body + 2) body with
    | Some (v, EmptyString) => Some v
    | _ => None
    end
  else None.

(** Example texts are written with ' for the double quote. *)
Definition q (s : string) : string :=
  Js.mapChars (fun c => if Ascii.eqb c "'" then dquote else c) s.

End RefJSON.

(* ================================================================== *)
(** ** Reference [parseFloat] and [Intl.NumberFormat]                  *)
(* ================================================================== *)

(** [formatCurrency] is embedded over any [parseFloat] and any currency
    formatter. The ones below serve to run it: [parseFloat] reads the
    longest decimal literal at the start of the text, and the formatter
    renders every locale in the en-US shape (sign, symbol, grouped
    integer digits, point, fraction digits). Locale data is not modelled. *)
Module RefIntl.

Definition parseFloat (s : string) : number :=
  let t := Js.trimStart s in
  let (neg, t1) := match t with
                   | String "-" r => (true, r)
                   | String "+" r => (false, r)
                   | _ => (false, t)
                   end in
  if Js.startsWith t1 "Infinity" then Infinite neg
  else
    let '(i, ni, t2) := RefJSON.digits t1 0%Z 0%nat in
    let '(m, nf, t3) := match t2 with
                        | String "." r => RefJSON.digits r i 0%nat
                        | _ => (i, 0%nat, t2)
                        end in
    if (ni + nf =? 0)%nat then NaN
    else
      let x := match t3 with
               | String e r =>
                   if Ascii.eqb e "e" || Ascii.eqb e "E" then
                     let (eneg, r1) := match r with
                                       | String "-" r' => (true, r')
                                       | String "+" r' => (false, r')
                                       | _ => (false, r)
                                       end in
                     let '(x, nx, _) := RefJSON.digits r1 0%Z 0%nat in
                     if (nx =? 0)%nat then 0%Z
                     else if eneg then Z.opp x else x
                   else 0%Z
               | EmptyString => 0%Z
               end in
      toDouble (Finite (if neg then Z.opp m else m) (x - Z.of_nat nf)%Z).

Definition isLetter (c : ascii) : bool :=
  let n := nat_of_ascii c in
  (((65 <=? n) && (n <=? 90)) || ((97 <=? n) && (n <=? 122)))%nat.

(** IsWellFormedCurrencyCode (ECMA-402): three letters. *)
Definition wellFormedCurrency (code : string) : bool :=
  match code with
  | String a (String b (String c EmptyString)) =>
      isLetter a && isLetter b && isLetter c
  | _ => false
  end.

Definition nbsp : ascii := ascii_of_nat 160.

Definition symbol (code : string) : string :=
  if String.eqb code "USD" then "$" else code ++ String nbsp EmptyString.

(** The decimal digits of a natural number, most significant first. *)
Fixpoint digitsOf (fuel : nat) (n : Z) (acc : string) : string :=
  match fuel with
  | O => acc
  | S k =>
      let acc' := String (ascii_of_nat (48 + Z.to_nat (n mod 10))) acc in
      if (n <? 10)%Z then acc' else digitsOf k (n / 10)%Z acc'
  end.

Definition decimal (n : Z) : string := digitsOf (S (Z.to_nat (Z.log2 n))) n EmptyString.

Fixpoint padLeft (width : nat) (s : string) : string :=
  match (width - String.length s)%nat with
  | O => s
  | S _ => match width with
           | O => s
           | S w => String "0" (padLeft w s)
           end
  end.

(** A comma before every group of three digits, counted from the right. *)
Fixpoint group (s : string) : string :=
  match s with
  | EmptyString => EmptyString
  | String c r =>
      String c (if ((0 <? String.length r) && (String.length r mod 3 =? 0))%nat
                then String "," (group r) else group r)
  end.

(** |m * 10^e| * 10^d, rounded to an integer, halves away from zero. *)
Definition scaled (m e : Z) (d : nat) : Z :=
  let a := Z.abs m in
  let k := (e + Z.of_nat d)%Z in
  if (0 <=? k)%Z then (a * 10 ^ k)%Z
  else ((a + 5 * 10 ^ (- k - 1)) / 10 ^ (- k))%Z.

Definition infinitySign : string := "∞".

Definition format (locale : string) (options : NumberFormatOptions.t)
    (x : number) : completion string :=
  let code := NumberFormatOptions.currency options in
  let d := NumberFormatOptions.maximumFractionDigits options in
  if negb (wellFormedCurrency code) then
    Throw (JsError ("Invalid currency code : " ++ code))
  else
    match x with
    | NaN => Normal (symbol code ++ "NaN")
    | Infinite neg =>
        Normal ((if neg then "-" else "") ++ symbol code ++ infinitySign)
    | Finite m e =>
        let n := scaled m e d in
        let unit := (10 ^ Z.of_nat d)%Z in
        Normal ((if (m <? 0)%Z then "-" else "") ++ symbol code ++
                group (decimal (n / unit)) ++
                match d with
                | O => ""
                | S _ => "." ++ padLeft d (decimal (n mod unit))
                end)
    end.

(** Exactly two digits follow the last point of the text. *)
Fixpoint afterLastPoint (s : string) : option string :=
  match s with
  | EmptyString => None
  | String c r =>
      match afterLastPoint r with
      | Some t => Some t
      | None => if Ascii.eqb c "." then Some r else None
      end
  end.

Definition twoFractionDigits (s : string) : bool :=
  match afterLastPoint s with
  | Some (String a (String b r)) =>
      JsonText.isDigit a && JsonText.isDigit b &&
      match r with
      | EmptyString => true
      | String c _ => negb (JsonText.isDigit c)
      end
  | _ => false
  end.

End RefIntl.

(** How many model calls a trace holds. *)
Definition modelCalls (tr : list Event) : nat :=
  List.length (filter (fun e => match e with
                                | GenerateContent _ => true
                                | ReadFile _ => false
                                end) tr).

(** The request of the validation stage (lines 170-178) and of the
    extraction stage (lines 255-263) for a file read as [dataURL]. *)
Definition stageRequest (prompt : string) (file : File.t) (dataURL : string)
  : Request.t :=
  Request.mk "gemini-2.0-flash-exp" prompt
    (InlineData.mk (nth_error (Js.split ","%char dataURL) 1) (File.type file)).

Definition notReceiptMessage : string :=
  "This image does not appear to be a payment receipt. Please upload a receipt, invoice, or bill.".

(** *** A scripted world

    The file reader always succeeds; the first model call is answered with
    [validationReply], every later one with [extractionReply]. *)
Definition scriptedEnv (validationReply extractionReply : option string) : Env :=
  mkEnv (fun _ _ => Some "data:image/png;base64,iVBORw0KGgo=")
        (fun tr _ => Normal (if (modelCalls tr =? 0)%nat then validationReply
                             else extractionReply))
        "1700000000000" "k3j9x0q2a" "2023-11-14T22:13:20.000Z".

(** The message V8 gives to the TypeError of a property read on [null]. *)
Definition v8NullReadMessage (p : string) : string :=
  "Cannot read properties of null (reading '" ++ p ++ "')".

Definition receiptPng : File.t := File.mk "receipt.png" "image/png".

(** The client run in a scripted world, with the reference [JSON.parse];
    the prompts are stood for by their first lines. *)
Definition runScripted (validationReply extractionReply : option string)
  : completion ApiResponse.t * list Event :=
  extractReceiptData
    "Analyze this image and determine if it is a payment receipt or invoice."
    "Please analyze this receipt image and extract the following information in a structured JSON format:"
    RefJSON.parse v8NullReadMessage
    (scriptedEnv validationReply extractionReply)
    (mkService (Some "key")) receiptPng [].

(** [v.p] for a value that is not [null]. *)
Definition member (v : json) (p : string) : option json :=
  match v with
  | JObj kvs => assoc p kvs
  | _ => None
  end.

(** *** The count of items as the specification words it

    "derived by summing quantities of positive-price items only": the
    price and the quantity of an item are read as numbers, and the
    quantities of the items whose price is above zero are added up. *)
Definition toNumber (v : option json) : number :=
  match v with
  | Some (JStr s) => RefIntl.parseFloat s
  | Some (JNum n) => n
  | _ => NaN
  end.

Definition isPositive (x : number) : bool :=
  match x with
  | Finite m _ => (0 <? m)%Z
  | Infinite negative => negb negative
  | NaN => false
  end.

Definition addNumber (a b : number) : number :=
  match a, b with
  | NaN, _ | _, NaN => NaN
  | Infinite n, _ | _, Infinite n => Infinite n
  | Finite m1 e1, Finite m2 e2 =>
      let e := Z.min e1 e2 in
      Finite (m1 * 10 ^ (e1 - e) + m2 * 10 ^ (e2 - e))%Z e
  end.

Definition derivedTotalItems (items : list json) : number :=
  fold_left
    (fun acc item =>
       if isPositive (toNumber (member item "price"))
       then addNumber acc (toNumber (member item "quantity"))
       else acc)
    items (Finite 0 0).

(** The extraction reply of the specification's end-to-end scenario. *)
Definition coffeeReply : string :=
  RefJSON.q "{'items':[{'name':'Coffee','quantity':'2','price':'6.00'}], 'total':'6.00', 'currency':'USD'}".

(** *** Additions to the history

    Two cases of the reducer put a record at the head of the history:
    [fulfilled] puts its payload, [saveToHistory] puts [state.data] when
    there is one. Two cases take records out: [clearHistory] and
    [removeFromHistory]. The other cases leave the history alone. *)
Definition isRemoval (a : Action) : bool :=
  match a with
  | clearHistory | removeFromHistory _ => true
  | _ => false
  end.

Definition added (state : ExtractionState.t) (a : Action) : option ReceiptData.t :=
  match a with
  | extractReceiptData_fulfilled payload => Some payload
  | saveToHistory => data state
  | _ => None
  end.

(** The records a run of actions adds, oldest first. *)
Fixpoint additions (st : Store) (actions : list Action) : list ReceiptData.t :=
  match actions with
  | [] => []
  | a :: rest =>
      match added (state st) a with
      | Some r => r :: additions (dispatch st a) rest
      | None => additions (dispatch st a) rest
      end
  end.

(** The state a fresh store starts from when nothing is persisted. *)
Definition initialState : ExtractionState.t :=
  ExtractionState.mk false false None None None 0 [].

Definition emptyStore : Store := mkStore initialState None.

(** A record for the examples, told from the others by its file name. *)
Definition receiptNamed (fileName : string) : ReceiptData.t :=
  ReceiptData.mk ("receipt_" ++ fileName) JNull JNull JNull JNull [] JNull JNull
    "2023-11-14T22:13:20.000Z" fileName JNull (JStr "USD") []
    (JNum (Finite 0 0)) "2023-11-14T22:13:20.000Z" fileName.

(** What the store sees of a successful extraction that gives [d]. *)
Definition successfulAttempt (d : ReceiptData.t) : list Action :=
  [extractReceiptData_pending; updateProgress 25; updateProgress 75;
   updateProgress 100; extractReceiptData_fulfilled d].

(** The thunk run in a scripted world, from the empty store. *)
Definition runThunkScripted (validationReply extractionReply : option string)
    (apiKey : string) : list Action * GeminiReceiptService * list Event :=
  extractReceiptDataThunk
    "Analyze this image and determine if it is a payment receipt or invoice."
    "Please analyze this receipt image and extract the following information in a structured JSON format:"
    RefJSON.parse v8NullReadMessage
    (scriptedEnv validationReply extractionReply)
    (mkService None) receiptPng apiKey [].

(** The text the patterns are tested on (line 189). *)
Definition searchTextOf (address language : option string) : string :=
  lowerOrEmpty address ++ " " ++ lowerOrEmpty language.

(** The first two patterns of the list. *)
Definition usdPattern : RegExp :=
  regexp "(usa|united states|america|us\s|u\.s\.|canada|ca\s)".
Definition cadPattern : RegExp := regexp "(canada|canadian|ca\s)".

(** *** Fenced replies

    A JSON text [t] between Markdown fence markers: blanks known to [trim]
    around the whole, an opening marker [```json] or [```], and JSON
    whitespace between the markers and the text. *)
Definition fenced (pre fence nl1 t nl2 post : string) : string :=
  pre ++ (fence ++ nl1 ++ t ++ nl2 ++ "```") ++ post.

(** What the two replacements of lines 276 and 278 leave of the text
    between the markers: a line feed less at either end. *)
Definition dropLeadingNewline (s : string) : string :=
  match s with
  | String c r => if Ascii.eqb c newline then r else s
  | EmptyString => EmptyString
  end.

Fixpoint dropFinalNewline (s : string) : string :=
  match s with
  | EmptyString => EmptyString
  | String c r =>
      if Ascii.eqb c newline && String.eqb r EmptyString then EmptyString
      else String c (dropFinalNewline r)
  end.

(** *** The pieces of [formatCurrency], named

    The amount as a number (line 64), the locale looked up for a code
    (line 71), and the two option objects (lines 74-79 and 83-88). *)
Definition numAmount (parseFloat : string -> number) (amount : Amount) : number :=
  match amount with
  | ofString s => parseFloat s
  | ofNumber n => n
  end.

Definition codeOf (currencyCode : option string) : string :=
  match currencyCode with
  | Some code => code
  | None => "USD"
  end.

Definition localeOf (currencyCode : option string) : string :=
  match lookup (Js.toUpperCase (codeOf currencyCode)) CURRENCY_LOCALE_MAP with
  | Some l => l
  | None => "en-US"
  end.

Definition currencyOptions (currencyCode : option string) : NumberFormatOptions.t :=
  NumberFormatOptions.mk "currency" (Js.toUpperCase (codeOf currencyCode)) 2 2.

Definition usdOptions : NumberFormatOptions.t :=
  NumberFormatOptions.mk "currency" "USD" 2 2.

(** An item the loop of lines 300-306 rejects: its name, its price or its
    quantity is not a string. *)
Definition badItem (item : json) : bool :=
  negb (isString (member item "name")) ||
  negb (isString (member item "price")) ||
  negb (isString (member item "quantity")).

Definition missingItemsMessage : string :=
  "Invalid response format: missing items array".
Definition invalidItemMessage : string := "Invalid item format in response".

(** The messages the client words itself: the reasons of the validation
    stage, and the errors raised in [extractReceiptData]. *)
Definition validationReasons : list string :=
  [ "Unable to analyze image. Please try with a clearer image.";
    notReceiptMessage;
    "The image is too unclear to process. Please upload a clearer image of your receipt.";
    "Unable to determine if this is a valid receipt. Please try with a clearer receipt image.";
    "Failed to validate image. Please try again." ].

Definition extractionMessages : list string :=
  [ "Gemini service not initialized. Please provide API key.";
    "No text content received from AI response";
    "Failed to parse AI response as JSON";
    missingItemsMessage;
    invalidItemMessage;
    "Unknown error occurred during extraction" ].

(** Where a failure message can come from: the client's own texts, the
    message of an [Error] the model call threw, or the engine's message
    for a property read on [null]. *)
Definition messageSource (nullReadMessage : string -> string) (env : Env)
    (message : string) : Prop :=
  In message (validationReasons ++ extractionMessages)%list \/
  (exists p, message = nullReadMessage p) \/
  (exists tr req, generateContent env tr req = Throw (JsError message)).

(** A store whose history, in the state and as persisted, is [h]. *)
Definition storeWith (h : list ReceiptData.t) : Store :=
  mkStore (ExtractionState.mk false false None None None 0 h) (Some h).

(** *** Items and products of a returned record

    An item that passes the loop of lines 300-306, and the legacy product
    lines 329-334 make of it. *)
Definition goodItem (item : json) : bool :=
  match item with
  | JNull => false
  | _ => negb (badItem item)
  end.

Definition legacyProduct (item : json) : Product.t :=
  Product.mk (member item "name") (member item "price")
    (member item "quantity") (member item "price").

(** *** More scripted worlds

    A world whose file reader always fails, and one whose model throws an
    [Error] with the given message at every call. *)
Definition brokenReaderEnv : Env :=
  mkEnv (fun _ _ => None) (fun _ _ => Normal (Some "VALID_RECEIPT"))
        "1700000000000" "k3j9x0q2a" "2023-11-14T22:13:20.000Z".

Definition throwingModelEnv (message : string) : Env :=
  mkEnv (fun _ _ => Some "data:image/png;base64,iVBORw0KGgo=")
        (fun _ _ => Throw (JsError message))
        "1700000000000" "k3j9x0q2a" "2023-11-14T22:13:20.000Z".

Definition validationPromptLine : string :=
  "Analyze this image and determine if it is a payment receipt or invoice.".
Definition extractionPromptLine : string :=
  "Please analyze this receipt image and extract the following information in a structured JSON format:".

(** The client, with the reference [JSON.parse], in a given world. *)
Definition runIn (env : Env) (this : GeminiReceiptService)
  : completion ApiResponse.t * list Event :=
  extractReceiptData validationPromptLine extractionPromptLine
    RefJSON.parse v8NullReadMessage env this receiptPng [].

Definition pngDataURL : string := "data:image/png;base64,iVBORw0KGgo=".

(** What [extractReceiptData] makes of the completion of its second
    stage (the catch of lines 345-352): a result is returned as it is, a
    thrown value becomes a failure with the message of the error. *)
Definition caught (c : completion ApiResponse.t * list Event)
  : completion ApiResponse.t * list Event :=
  match c with
  | (Normal r, tr) => (Normal r, tr)
  | (Throw e, tr) =>
      (Normal (ApiResponse.mk false None
                 (Some (errorMessageOr e
                          "Unknown error occurred during extraction"))), tr)
  end.

Definition failure (message : string) : ApiResponse.t :=
  ApiResponse.mk false None (Some message).

(** A computation that adds nothing to the trace. *)
Definition quiet {A} (m : M A) : Prop :=
  forall tr c tr', m tr = (c, tr') -> tr' = tr.

(** How many times a trace reads the file. *)
Definition fileReads (tr : list Event) : nat :=
  List.length (filter (fun e => match e with
                                | ReadFile _ => true
                                | GenerateContent _ => false
                                end) tr).

(** A world scripted by position: the n-th read of the file (from 0) is
    answered by [reader n], the n-th model call by [model n]. *)
Definition worldOf (reader : nat -> option string)
    (model : nat -> completion (option string)) : Env :=
  mkEnv (fun tr _ => reader (fileReads tr)) (fun tr _ => model (modelCalls tr))
        "1700000000000" "k3j9x0q2a" "2023-11-14T22:13:20.000Z".

(** Worlds in which the validation passes and the extraction stage meets
    a failure: the second read of the file fails; the second model call
    throws. *)
Definition secondReadFailsEnv : Env :=
  worldOf (fun n => if (n =? 0)%nat then Some pngDataURL else None)
          (fun _ => Normal (Some "VALID_RECEIPT")).

Definition secondCallThrowsEnv (e : thrown) : Env :=
  worldOf (fun _ => Some pngDataURL)
          (fun n => if (n =? 0)%nat then Normal (Some "VALID_RECEIPT")
                    else Throw e).

(** The trace of a call that went through both stages. *)
Definition bothStages : list Event :=
  [ReadFile receiptPng;
   GenerateContent (stageRequest validationPromptLine receiptPng pngDataURL);
   ReadFile receiptPng;
   GenerateContent (stageRequest extractionPromptLine receiptPng pngDataURL)].

(** Two replies that parse and break the structure: [items] a string;
    an item whose price is a number. *)
Definition itemsNotAnArrayReply : string :=
  RefJSON.q "{'storeName':'Cafe','items':'none'}".

Definition numericPriceReply : string :=
  RefJSON.q "{'items':[{'name':'Coffee','quantity':'2','price':6}]}".

(* ================================================================== *)
(** ** The key test: [testApiKey] of the service and of the slice      *)
(* ================================================================== *)

(** The request of lines 361-366 has a text part and no image part. *)
Module TextRequest.
Record t : Type := mk { model : string; text : string }.
End TextRequest.

Definition testRequest : TextRequest.t :=
  TextRequest.mk "gemini-2.0-flash-exp"
    (RefJSON.q "Test connection. Respond with 'OK'").

Section TestApiKey.

(** The model called through a handle made with the given key: the text
    of the reply ([candidates?.[0]?.content?.parts?.[0]?.text]), or a
    throw. *)
Variable generateText : string -> TextRequest.t -> completion (option string).

(** Lines 358-374, the body of the [try]: the value it completes with,
    the service as [initialize] left it, and the calls made, each with
    the key of its handle. *)
Definition testApiKey_body (this : GeminiReceiptService) (apiKey : string)
  : completion bool * GeminiReceiptService * list (string * TextRequest.t) :=
  match initialize apiKey with
  | Throw e => (Throw e, this, [])
  | Normal this' =>
      match genAI this' with
      | None => (Throw (JsError "Cannot read properties of null (reading 'models')"),
                 this', [])
      | Some key =>
          match generateText key testRequest with
          | Throw e => (Throw e, this', [(key, testRequest)])
          | Normal text =>
              (Normal
                 match text with
                 | Some t =>
                     if negb (Js.truthy t) then false
                     else Js.includes t "OK" || (0 <? String.length t)%nat
                 | None => false
                 end,
               this', [(key, testRequest)])
          end
      end
  end.

(** Lines 356-379. *)
Definition testApiKey (this : GeminiReceiptService) (apiKey : string)
  : completion bool * GeminiReceiptService * list (string * TextRequest.t) :=
  match testApiKey_body this apiKey with
  | (Normal b, this', calls) => (Normal b, this', calls)
  | (Throw _, this', calls) => (Normal false, this', calls)
  end.

(** The payload creator of the thunk (lines 76-87): the closing action. *)
Definition testApiKey_payloadCreator (service : GeminiReceiptService)
    (apiKey : string)
  : Action * GeminiReceiptService * list (string * TextRequest.t) :=
  match testApiKey service apiKey with
  | (outcome, service', calls) =>
      let body :=
        match outcome with
        | Normal isValid =>
            if negb isValid
            then Throw (JsError "Invalid API key or connection failed")
            else Normal true
        | Throw e => Throw e
        end in
      (match body with
       | Normal _ => testApiKey_fulfilled
       | Throw e =>
           testApiKey_rejected (Some (errorMessageOr e "API key validation failed"))
       end, service', calls)
  end.

(** [dispatch(testApiKey(apiKey))]: every action the store sees. *)
Definition testApiKeyThunk (service : GeminiReceiptService) (apiKey : string)
  : list Action * GeminiReceiptService * list (string * TextRequest.t) :=
  match testApiKey_payloadCreator service apiKey with
  | (closing, service', calls) => ([testApiKey_pending; closing], service', calls)
  end.

End TestApiKey.

(** A model that answers every text request with the same text, and one
    that refuses every key. *)
Definition answering (text : option string)
  : string -> TextRequest.t -> completion (option string) :=
  fun _ _ => Normal text.

Definition refusing (message : string)
  : string -> TextRequest.t -> completion (option string) :=
  fun _ _ => Throw (JsError message).

(* ================================================================== *)
(** ** components/ReceiptExtraction/ExtractionDetailsDialog.tsx        *)
(* ================================================================== *)

(** Lines 21-27: the delete button of the dialog that shows
    [extraction]. The record is named by its [fileName]; the reducer
    compares the name with the [file_name] of the records. *)
Definition handleDelete (extraction : option ReceiptData.t) (st : Store) : Store :=
  match extraction with
  | Some e =>
      if Js.truthy (ReceiptData.fileName e)
      then dispatch st (removeFromHistory (ReceiptData.fileName e))
      else st
  | None => st
  end.

(** The list last handed to [saveHistoryToStorage], when there is one, is
    the history of the state. *)
Definition persistedInSync (st : Store) : Prop :=
  forall h, saved st = Some h -> h = history (state st).

(** The records of a history that carry a given file name. *)
Definition named (fileName : string) (h : list ReceiptData.t) : list ReceiptData.t :=
  filter (fun item => String.eqb (ReceiptData.file_name item) fileName) h.

(* ================================================================== *)
(** ** common/helpers.ts: [getCurrencySymbol]                          *)
(* ================================================================== *)

(** The class [[0-9.,\s]] of line 110. *)
Definition isNumberPart (c : ascii) : bool :=
  JsonText.isDigit c || Ascii.eqb c "." || Ascii.eqb c "," || Js.isWhiteSpace c.

(** [s.replace(/[...]/g, '')] for a class of code units. *)
Fixpoint removeAll (class : ascii -> bool) (s : string) : string :=
  match s with
  | EmptyString => EmptyString
  | String c s' =>
      if class c then removeAll class s' else String c (removeAll class s')
  end.

Section Symbol.

Variable Intl_NumberFormat_format :
  string -> NumberFormatOptions.t -> number -> completion string.

(** Lines 97-114. *)
Definition getCurrencySymbol (currencyCode : option string) : completion string :=
  let currencyCode := match currencyCode with
                      | Some code => code
                      | None => "USD"
                      end in
  let locale := match lookup (Js.toUpperCase currencyCode) CURRENCY_LOCALE_MAP with
                | Some l => l
                | None => "en-US"
                end in
  match Intl_NumberFormat_format locale
          (NumberFormatOptions.mk "currency" (Js.toUpperCase currencyCode) 0 0)
          (Finite 0 0) with
  | Normal formatted => Normal (removeAll isNumberPart formatted)
  | Throw _ => Normal "$"
  end.

End Symbol.

(** A text free of digits, points, commas and blanks. *)
Definition bareSymbol (s : string) : bool :=
  Js.all (fun c => negb (isNumberPart c)) s.

(* ================================================================== *)
(** ** app/receipt-extraction/page.tsx                                 *)
(* ================================================================== *)

(** The file the user picked: what the client reads of it, and its size
    in bytes. *)
Module Upload.
Record t : Type := mk { file : File.t; size : Z }.
End Upload.

Definition supportedTypes : list string :=
  ["image/jpeg"; "image/jpg"; "image/png"; "application/pdf"].

Definition maxFileSize : Z := 10 * 1024 * 1024.

(** [supportedTypes.includes(type)] *)
Definition Array_includes (l : list string) (x : string) : bool :=
  existsb (String.eqb x) l.

(** Lines 36-50: the verdict, and the file error the call leaves. *)
Definition validateFile (f : Upload.t) : bool * option string :=
  if negb (Array_includes supportedTypes (File.type (Upload.file f)))
  then (false, Some "Please upload a JPG, PNG, or PDF file")
  else if (Upload.size f >? maxFileSize)%Z
  then (false, Some "File size must be less than 10MB")
  else (true, None).

(** The state of the page that the handlers below read and write, with
    the store they dispatch to. *)
Record Page : Type := mkPage {
  selectedFile : option Upload.t;
  fileError : option string;
  country : string;
  store : Store
}.

(** Lines 52-68, the preview apart. *)
Definition handleFileSelect (f : Upload.t) (p : Page) : Page :=
  match validateFile f with
  | (true, err) =>
      mkPage (Some f) err (country p) (dispatch (store p) clearCurrentExtraction)
  | (false, err) => mkPage (selectedFile p) err (country p) (store p)
  end.

(** Lines 109-118. *)
Definition handleRemoveFile (p : Page) : Page :=
  mkPage None None (country p) (dispatch (store p) clearCurrentExtraction).

Definition setCountry (c : string) (p : Page) : Page :=
  mkPage (selectedFile p) (fileError p) c (store p).

Inductive PageEvent : Type :=
| FileSelect (f : Upload.t)
| RemoveFile
| SetCountry (c : string).

Definition pageStep (p : Page) (e : PageEvent) : Page :=
  match e with
  | FileSelect f => handleFileSelect f p
  | RemoveFile => handleRemoveFile p
  | SetCountry c => setCountry c p
  end.

Definition pageRun (p : Page) (events : list PageEvent) : Page :=
  fold_left pageStep events p.

(** What [handleExtractData] (lines 120-141) does: nothing, an alert, or
    the dispatch of the extraction thunk with its payload. *)
Inductive PageEffect : Type :=
| Nothing
| Alert (message : string)
| DispatchExtract (file : File.t) (apiKey : string) (country : string).

(** [envKey] is [process.env.NEXT_PUBLIC_GEMINI_API_KEY]; [promptAnswer]
    is what [prompt] returns, asked only when the former is falsy. *)
Definition handleExtractData (envKey promptAnswer : option string) (p : Page)
  : PageEffect :=
  match selectedFile p with
  | None => Nothing
  | Some f =>
      let apiKey := if optTruthy envKey then envKey else promptAnswer in
      if negb (optTruthy apiKey)
      then Alert "API key is required for data extraction"
      else if negb (Js.truthy (country p)) || String.eqb (Js.trim (country p)) ""
      then Alert "Please select your country before proceeding"
      else DispatchExtract (Upload.file f)
             (match apiKey with Some k => k | None => "" end) (country p)
  end.

(** The page as it is first rendered, over a given store. *)
Definition firstRender (st : Store) : Page := mkPage None None "" st.

(** *** The two counts shown for a record

    The header of the item list on the page (line 386) shows
    [totalItems || 0]; the exports (exportServices, lines 38 and 99) write
    [totalItems || items?.length || 0]. *)
Definition itemsHeaderCount (d : ReceiptData.t) : json :=
  orElse (Some (ReceiptData.totalItems d)) (JNum (Finite 0 0)).

Definition numberOfNat (n : nat) : json := JNum (Finite (Z.of_nat n) 0).

Definition exportedTotalItems (d : ReceiptData.t) : json :=
  if truthy (Some (ReceiptData.totalItems d)) then ReceiptData.totalItems d
  else orElse (Some (numberOfNat (List.length (ReceiptData.items d))))
              (JNum (Finite 0 0)).

(** A text without a comma. *)
Definition noComma (s : string) : bool :=
  Js.all (fun c => negb (Ascii.eqb c ",")) s.

(** *** Examples for the store and the page *)

(** A history with two records of one name around a record of another. *)
Definition twiceScanned : list ReceiptData.t :=
  [receiptNamed "a.png"; receiptNamed "b.png"; receiptNamed "a.png"].

(** A record whose two names differ, as an older version of the client
    could have stored it. *)
Definition renamedRecord : ReceiptData.t :=
  ReceiptData.mk "receipt_old" JNull JNull JNull JNull [] JNull JNull
    "2023-11-14T22:13:20.000Z" "scan.png" JNull (JStr "USD") []
    (JNum (Finite 0 0)) "2023-11-14T22:13:20.000Z" "scan-2023.png".

(** The record the client makes of [coffeeReply] in the scripted world. *)
Definition coffeeRecord : ReceiptData.t :=
  ReceiptData.mk "receipt_1700000000000_k3j9x0q2a" JNull JNull JNull JNull
    [JObj [("price", JStr "6.00"); ("quantity", JStr "2"); ("name", JStr "Coffee")]]
    (JStr "6.00") JNull "2023-11-14T22:13:20.000Z" "receipt.png" JNull
    (JStr "USD")
    [Product.mk (Some (JStr "Coffee")) (Some (JStr "6.00")) (Some (JStr "2"))
       (Some (JStr "6.00"))]
    (JStr "6.00") "2023-11-14T22:13:20.000Z" "receipt.png".

Definition pngOfSize (size : Z) : Upload.t := Upload.mk receiptPng size.

Definition gifUpload : Upload.t := Upload.mk (File.mk "anim.gif" "image/gif") 2048.

(** A text that holds none of the three code units whose upper case is no
    single code unit of U+0000..U+00FF. *)
Definition caseStable (s : string) : bool :=
  Js.upperCaseInRange s &&
  Js.all (fun c => negb (Ascii.eqb c Js.sharpS)) s.

(** Swiss, written with U+00DF for its last two letters. *)
Definition swissWithSharpS : string := "Swi" ++ String Js.sharpS EmptyString.

(** An extraction reply that names no currency. *)
Definition teaReply : string :=
  RefJSON.q "{'items':[{'name':'Tea','quantity':'1','price':'3.00'}], 'total':'3.00'}".

(* ================================================================== *)
(** ** The parts of a rendering                                        *)
(* ================================================================== *)

(** [formatToParts] gives a rendering in parts, each with its type, and
    [format] gives the values of these parts joined (ECMA-402,
    FormatNumeric and FormatNumericToParts). The fraction digits of a
    rendering are the code units of its parts of type fraction. *)
Inductive PartType : Type :=
| currencyPart
| minusSignPart
| integerPart
| groupPart
| decimalPart
| fractionPart
| literalPart
| infinityPart
| nanPart.

Definition Part : Type := (PartType * string)%type.

Definition joinParts (parts : list Part) : string :=
  fold_right (fun p acc => snd p ++ acc) "" parts.

Definition isFraction (p : Part) : bool :=
  match fst p with
  | fractionPart => true
  | _ => false
  end.

Definition fractionDigits (parts : list Part) : nat :=
  String.length (joinParts (filter isFraction parts)).

(** The parts of the reference formatter [RefIntl.format]; the integer
    digits and their group separators are given as one part. *)
Definition referenceParts (locale : string) (options : NumberFormatOptions.t)
    (x : number) : completion (list Part) :=
  let code := NumberFormatOptions.currency options in
  let d := NumberFormatOptions.maximumFractionDigits options in
  if negb (RefIntl.wellFormedCurrency code) then
    Throw (JsError ("Invalid currency code : " ++ code))
  else
    match x with
    | NaN => Normal [(currencyPart, RefIntl.symbol code); (nanPart, "NaN")]
    | Infinite neg =>
        Normal ((if neg then [(minusSignPart, "-")] else []) ++
                [(currencyPart, RefIntl.symbol code);
                 (infinityPart, RefIntl.infinitySign)])%list
    | Finite m e =>
        let n := RefIntl.scaled m e d in
        let unit := (10 ^ Z.of_nat d)%Z in
        Normal ((if (m <? 0)%Z then [(minusSignPart, "-")] else []) ++
                [(currencyPart, RefIntl.symbol code);
                 (integerPart, RefIntl.group (RefIntl.decimal (n / unit)))] ++
                match d with
                | O => []
                | S _ => [(decimalPart, ".");
                          (fractionPart,
                           RefIntl.padLeft d (RefIntl.decimal (n mod unit)))]
                end)%list
    end.

(* ================================================================== *)
(** * Properties                                                       *)
(* ================================================================== *)

(** ** Strings *)

Lemma startsWith_empty (s : string) : Js.startsWith s "" = true.
Proof. destruct s; reflexivity. Qed.

Lemma startsWith_app (p r : string) : Js.startsWith (p ++ r) p = true.
Proof.
  induction p as [|c p IH]; simpl.
  - apply startsWith_empty.
  - now rewrite Ascii.eqb_refl, IH.
Qed.

Lemma startsWith_inv (s p : string) :
  Js.startsWith s p = true -> exists r, s = p ++ r.
Proof.
  revert s; induction p as [|c p IH]; intros s H.
  - now exists s.
  - destruct s as [|d s]; simpl in H; [discriminate|].
    apply andb_true_iff in H as [Hc Hp].
    apply Ascii.eqb_eq in Hc; subst d.
    destruct (IH _ Hp) as [r ->]. now exists r.
Qed.

Lemma includes_inv (s p : string) :
  Js.includes s p = true -> exists a b, s = a ++ p ++ b.
Proof.
  induction s as [|c s IH]; simpl; intros H.
  - destruct p; [now exists "", ""|discriminate].
  - apply orb_true_iff in H as [H|H].
    + destruct (startsWith_inv (String c s) p H) as [r Hr]. now exists "", r.
    + destruct (IH H) as (a & b & ->). now exists (String c a), b.
Qed.

Lemma startsWith_cons (c : ascii) (s : string) (t : ascii) (p : string) :
  Js.startsWith (String c s) (String t p) = Ascii.eqb t c && Js.startsWith s p.
Proof. reflexivity. Qed.

(** A prefix without blanks survives [trimEnd]... *)
Lemma startsWith_trimEnd (s p : string) :
  Js.noBlank p = true -> Js.startsWith (Js.trimEnd s) p = Js.startsWith s p.
Proof.
  unfold Js.trimEnd, Js.noBlank.
  revert p; induction s as [|c s IH]; intros p Hp; [reflexivity|].
  destruct p as [|t p]; [now rewrite !startsWith_empty|].
  simpl in Hp. apply andb_true_iff in Hp as [Ht Hp].
  apply negb_true_iff in Ht.
  specialize (IH p Hp).
  rewrite startsWith_cons, <- IH.
  simpl Js.stripEnd. destruct (Js.stripEnd Js.isWhiteSpace s) as [|d r] eqn:E.
  - destruct (Js.isWhiteSpace c) eqn:Hc.
    + destruct (Ascii.eqb t c) eqn:Etc; [|reflexivity].
      apply Ascii.eqb_eq in Etc; subst; congruence.
    + apply startsWith_cons.
  - apply startsWith_cons.
Qed.

(** ... and so does an occurrence of a token without blanks. *)
Lemma includes_trimEnd (s p : string) :
  Js.noBlank p = true -> Js.includes (Js.trimEnd s) p = Js.includes s p.
Proof.
  intros Hp. induction s as [|c s IH]; [reflexivity|].
  change (Js.includes (String c s) p)
    with (Js.startsWith (String c s) p || Js.includes s p).
  rewrite <- (startsWith_trimEnd (String c s) p Hp), <- IH.
  unfold Js.trimEnd.
  simpl. destruct (Js.stripEnd Js.isWhiteSpace s) as [|d r] eqn:E.
  - destruct (Js.isWhiteSpace c); simpl.
    + now destruct p.
    + reflexivity.
  - reflexivity.
Qed.

Lemma includes_trimStart (s : string) (t : ascii) (p : string) :
  Js.isWhiteSpace t = false ->
  Js.includes (Js.trimStart s) (String t p) = Js.includes s (String t p).
Proof.
  unfold Js.trimStart.
  intros Ht. induction s as [|c s IH]; [reflexivity|].
  simpl Js.stripStart. destruct (Js.isWhiteSpace c) eqn:Hc; [|reflexivity].
  rewrite IH. simpl.
  destruct (Ascii.eqb t c) eqn:Etc; [|reflexivity].
  apply Ascii.eqb_eq in Etc; subst; congruence.
Qed.

Lemma includes_trim (s : string) (t : ascii) (p : string) :
  Js.noBlank (String t p) = true ->
  Js.includes (Js.trim s) (String t p) = Js.includes s (String t p).
Proof.
  intros H. unfold Js.trim.
  rewrite includes_trimEnd by exact H.
  apply includes_trimStart.
  unfold Js.noBlank in H. simpl in H.
  apply andb_true_iff in H as [H _]. now apply negb_true_iff in H.
Qed.

(** ** The client *)

Section ClientFacts.

Variable getReceiptValidationPrompt : string.
Variable getPrompt : string.
Variable JSON_parse : string -> option json.
Variable nullReadMessage : string -> string.
Variable env : Env.

Local Abbreviation validate := (validateReceiptImage getReceiptValidationPrompt env).
Local Abbreviation stage2 :=
  (extractStage getPrompt JSON_parse nullReadMessage env).
Local Abbreviation extract :=
  (extractReceiptData getReceiptValidationPrompt getPrompt JSON_parse
     nullReadMessage env).

(** The validation stage never throws: its body sits in a try block whose
    handler returns. *)
Lemma validate_returns (this : GeminiReceiptService) (file : File.t)
    (tr : list Event) :
  exists v tr', validate this file tr = (Normal v, tr').
Proof.
  unfold validateReceiptImage, tryCatch.
  match goal with |- context [match ?m tr with _ => _ end] =>
    destruct (m tr) as [[v|e] tr'] end; unfold ret; eauto.
Qed.

(** What the validation stage answers to a reply holding NOT_RECEIPT and
    not VALID_RECEIPT, and the one model call it makes. *)
Lemma validate_not_receipt (this : GeminiReceiptService) (file : File.t)
    (tr : list Event) (key dataURL reply : string) :
  genAI this = Some key ->
  readAsDataURL env tr file = Some dataURL ->
  generateContent env (tr ++ [ReadFile file])%list
    (stageRequest getReceiptValidationPrompt file dataURL) = Normal (Some reply) ->
  Js.includes reply "NOT_RECEIPT" = true ->
  Js.includes reply "VALID_RECEIPT" = false ->
  validate this file tr =
    (Normal (Validation.mk false (Some notReceiptMessage)),
     (tr ++ [ReadFile file;
             GenerateContent (stageRequest getReceiptValidationPrompt file dataURL)])%list).
Proof.
  intros Hkey Hread Hgen Hnot Hvalid.
  unfold validateReceiptImage, tryCatch, bind, fileToBase64,
    models_generateContent.
  rewrite Hkey, Hread. unfold stageRequest in Hgen. rewrite Hgen.
  unfold option_map.
  rewrite <- (includes_trim reply) in Hnot, Hvalid by reflexivity.
  destruct (Js.trim reply) as [|c r] eqn:E; [discriminate|].
  rewrite Hvalid, Hnot. unfold ret, stageRequest, notReceiptMessage.
  now rewrite <- app_assoc.
Qed.

(** C1. When the reply of the validation stage holds the token NOT_RECEIPT
    and not VALID_RECEIPT, [extractReceiptData] returns the failure whose
    message says that the image is not a receipt, and the trace grows by
    the file read and the validation request only: the extraction request
    is never issued. *)
Theorem C1_not_receipt_is_rejected_before_extraction
    (this : GeminiReceiptService) (file : File.t) (tr : list Event)
    (key dataURL reply : string) :
  genAI this = Some key ->
  readAsDataURL env tr file = Some dataURL ->
  generateContent env (tr ++ [ReadFile file])%list
    (stageRequest getReceiptValidationPrompt file dataURL) = Normal (Some reply) ->
  Js.includes reply "NOT_RECEIPT" = true ->
  Js.includes reply "VALID_RECEIPT" = false ->
  extract this file tr =
    (Normal (ApiResponse.mk false None (Some notReceiptMessage)),
     (tr ++ [ReadFile file;
             GenerateContent (stageRequest getReceiptValidationPrompt file dataURL)])%list)
  /\ modelCalls (snd (extract this file tr)) = S (modelCalls tr).
Proof.
  intros Hkey Hread Hgen Hnot Hvalid.
  assert (E : extract this file tr =
    (Normal (ApiResponse.mk false None (Some notReceiptMessage)),
     (tr ++ [ReadFile file;
             GenerateContent (stageRequest getReceiptValidationPrompt file dataURL)])%list)).
  { unfold extractReceiptData, tryCatch, bind.
    rewrite Hkey.
    rewrite (validate_not_receipt this file tr key dataURL reply) by assumption.
    reflexivity. }
  split; [exact E|].
  rewrite E. unfold modelCalls. simpl snd.
  rewrite filter_app, length_app. simpl. lia.
Qed.

(** A result of the extraction stage is a success, and all of it comes
    from the reply to the extraction request: the reply parsed to an object
    whose [items] is an array, and the record copies the members through. *)
Lemma stage2_inv (file : File.t) (tr tr' : list Event) (r : ApiResponse.t) :
  stage2 file tr = (Normal r, tr') ->
  exists dataURL reply members arr d,
    readAsDataURL env tr file = Some dataURL /\
    generateContent env (tr ++ [ReadFile file])%list
      (stageRequest getPrompt file dataURL) = Normal (Some reply) /\
    JSON_parse (cleanResponseText reply) = Some (JObj members) /\
    assoc "items" members = Some (JArr arr) /\
    r = ApiResponse.mk true (Some d) None /\
    ReceiptData.items d = arr /\
    ReceiptData.totalItems d = orElse (assoc "totalItems" members) JNull /\
    ReceiptData.currency d = orElse (assoc "currency" members) (JStr "USD").
Proof.
  unfold extractStage, bind, fileToBase64, models_generateContent, stageRequest.
  destruct (readAsDataURL env tr file) as [dataURL|]; [|discriminate].
  destruct (generateContent env _ _) as [[reply|]|e] eqn:Hgen;
    [|discriminate|discriminate].
  destruct reply as [|c0 reply0] eqn:Hreply; [discriminate|].
  rewrite <- Hreply in *. clear Hreply c0 reply0.
  destruct (JSON_parse (cleanResponseText reply)) as [payload|] eqn:Hparse;
    [|discriminate].
  destruct payload as [| | | | |members]; try discriminate.
  unfold getProp, ret.
  destruct (assoc "items" members) as [v|] eqn:Hitems; [|discriminate].
  cbn beta iota.
  destruct (Array_isArray (Some v)) eqn:Harr;
    [|cbn [negb]; rewrite orb_true_r; discriminate].
  destruct v as [| | | |arr|]; try discriminate Harr.
  cbn [truthy negb orb elements].
  destruct (validateItems nullReadMessage arr _) as [[[]|e] tr2] eqn:Hval;
    [|discriminate].
  destruct (mapM _ arr tr2) as [[products|e] tr3] eqn:Hmap; [|discriminate].
  intros H. injection H as <- <-.
  exists dataURL, reply, members, arr.
  eexists. repeat split; eauto.
Qed.

Lemma validate_reason (this : GeminiReceiptService) (file : File.t)
    (tr tr' : list Event) (v : Validation.t) :
  validate this file tr = (Normal v, tr') ->
  Validation.isValid v = false ->
  exists r, Validation.reason v = Some r /\ Js.truthy r = true /\
            In r validationReasons.
Proof.
  unfold validateReceiptImage, tryCatch.
  match goal with |- context [match ?m tr with _ => _ end] =>
    destruct (m tr) as [[v0|e] tr0] eqn:E end.
  2:{ unfold ret. intros [= <- <-] _. eexists. split; [reflexivity|].
      split; [reflexivity|]. simpl. tauto. }
  intros [= <- <-]. revert E.
  destruct (genAI this); [|discriminate].
  unfold bind, fileToBase64, models_generateContent.
  destruct (readAsDataURL env tr file); [|discriminate].
  destruct (generateContent env _ _) as [reply|]; [|discriminate].
  unfold ret.
  destruct (option_map Js.trim reply) as [[|c t]|];
    try (intros [= <- <-] _; eexists; split; [reflexivity|];
         split; [reflexivity|]; simpl; tauto).
  destruct (Js.includes _ "VALID_RECEIPT");
    [intros [= <- <-] Hv; discriminate Hv|].
  destruct (Js.includes _ "NOT_RECEIPT");
    [intros [= <- <-] _; eexists; split; [reflexivity|];
     split; [reflexivity|]; simpl; tauto|].
  destruct (Js.includes _ "UNCLEAR_IMAGE");
    intros [= <- <-] _; eexists; (split; [reflexivity|]);
    (split; [reflexivity|]); simpl; tauto.
Qed.

Lemma getProp_throw (v : json) (p : string) (tr tr' : list Event) (e : thrown) :
  getProp nullReadMessage v p tr = (Throw e, tr') ->
  e = JsError (nullReadMessage p).
Proof. destruct v; unfold getProp, ret, throw; now intros [= <- _]. Qed.

Lemma validateItems_throw (arr : list json) (tr tr' : list Event) (e : thrown) :
  validateItems nullReadMessage arr tr = (Throw e, tr') ->
  e = JsError invalidItemMessage \/ exists p, e = JsError (nullReadMessage p).
Proof.
  revert tr. induction arr as [|item rest IH]; intros tr; [discriminate|].
  cbn [validateItems]. unfold bind.
  destruct (getProp nullReadMessage item "name" tr) as [[n|e1] t1] eqn:E1.
  2:{ intros [= <- _]. right. eexists. exact (getProp_throw _ _ _ _ _ E1). }
  destruct (negb (isString n)); [intros [= <- _]; now left|].
  destruct (getProp nullReadMessage item "price" t1) as [[q|e2] t2] eqn:E2.
  2:{ intros [= <- _]. right. eexists. exact (getProp_throw _ _ _ _ _ E2). }
  destruct (negb (isString q)); [intros [= <- _]; now left|].
  destruct (getProp nullReadMessage item "quantity" t2) as [[w|e3] t3] eqn:E3.
  2:{ intros [= <- _]. right. eexists. exact (getProp_throw _ _ _ _ _ E3). }
  destruct (negb (isString w)); [intros [= <- _]; now left|].
  apply IH.
Qed.

Lemma toProduct_throw (item : json) (tr tr' : list Event) (e : thrown) :
  toProduct nullReadMessage item tr = (Throw e, tr') ->
  exists p, e = JsError (nullReadMessage p).
Proof.
  unfold toProduct, bind.
  repeat match goal with
  | |- context [getProp nullReadMessage item ?p ?t] =>
      let E := fresh "E" in
      destruct (getProp nullReadMessage item p t) as [[?|?] ?] eqn:E;
      [|intros [= <- _]; eexists; exact (getProp_throw _ _ _ _ _ E)]
  end.
  discriminate.
Qed.

Lemma mapM_toProduct_throw (arr : list json) (tr tr' : list Event) (e : thrown) :
  mapM (toProduct nullReadMessage) arr tr = (Throw e, tr') ->
  exists p, e = JsError (nullReadMessage p).
Proof.
  revert tr. induction arr as [|item rest IH]; intros tr; [discriminate|].
  cbn [mapM]. unfold bind.
  destruct (toProduct nullReadMessage item tr) as [[b|e1] t1] eqn:E1.
  2:{ intros [= <- _]. exact (toProduct_throw _ _ _ _ E1). }
  destruct (mapM _ rest t1) as [[bs|e2] t2] eqn:E2.
  - discriminate.
  - intros [= <- <-]. exact (IH _ E2).
Qed.

(** An [Error] thrown by the extraction stage carries a message of one of
    the three sources. *)
Lemma stage2_throw (file : File.t) (tr tr' : list Event) (message : string) :
  stage2 file tr = (Throw (JsError message), tr') ->
  messageSource nullReadMessage env message.
Proof.
  unfold extractStage, bind, fileToBase64, models_generateContent, messageSource.
  destruct (readAsDataURL env tr file) as [dataURL|]; [|discriminate].
  destruct (generateContent env _ _) as [[reply|]|e] eqn:Hgen.
  3:{ intros [= -> _]. right. right. eauto. }
  2:{ intros [= <-]. left. simpl. tauto. }
  destruct reply as [|c0 reply0] eqn:Hreply;
    [intros [= <-]; left; simpl; tauto|].
  rewrite <- Hreply in *. clear Hreply c0 reply0.
  destruct (JSON_parse (cleanResponseText reply)) as [payload|];
    [|intros [= <-]; left; simpl; tauto].
  unfold ret at 1.
  destruct (getProp nullReadMessage payload "items" _) as [[items|e] t1] eqn:E1.
  2:{ intros [= -> _]. pose proof (getProp_throw _ _ _ _ _ E1) as [= ->].
      right. left. eauto. }
  destruct (negb (truthy items) || negb (Array_isArray items)).
  { intros [= <-]. left. simpl. tauto. }
  destruct (validateItems nullReadMessage (elements items) t1)
    as [[[]|e] t2] eqn:E2.
  2:{ intros [= -> _].
      destruct (validateItems_throw _ _ _ _ E2) as [[= ->]|(p & [= ->])];
        [left; simpl; tauto|right; left; eauto]. }
  repeat match goal with
  | |- context [getProp nullReadMessage payload ?p ?t] =>
      let E := fresh "E" in
      destruct (getProp nullReadMessage payload p t) as [[?|?] ?] eqn:E;
      [|intros [= -> _]; pose proof (getProp_throw _ _ _ _ _ E) as [= ->];
        right; left; eauto]
  end.
  destruct (mapM _ _ _) as [[products|e] t3] eqn:Emap; [discriminate|].
  intros [= -> _]. destruct (mapM_toProduct_throw _ _ _ _ Emap) as (p & [= ->]).
  right. left. eauto.
Qed.

(** C5. Whatever the file, the state of the service and the behaviour of
    the file reader, of the model and of [JSON.parse], [extractReceiptData]
    completes normally, never by a throw, and what it returns is either
    [{success: true, data}] or [{success: false, error}]; the message of a
    failure is a text of the client, or the message of the [Error] that
    the model call or the engine raised. *)
Theorem C5_extractReceiptData_never_throws
    (this : GeminiReceiptService) (file : File.t) (tr : list Event) :
  exists r tr',
    extract this file tr = (Normal r, tr') /\
    ((ApiResponse.success r = true /\ ApiResponse.error r = None /\
      exists d, ApiResponse.data r = Some d)
     \/
     (ApiResponse.success r = false /\ ApiResponse.data r = None /\
      exists message, ApiResponse.error r = Some message /\
                      messageSource nullReadMessage env message)).
Proof.
  unfold extractReceiptData, tryCatch, bind.
  destruct (genAI this) as [key|].
  - destruct (validate_returns this file tr) as (v & tr1 & Hv). rewrite Hv.
    destruct (Validation.isValid v) eqn:Hvalid; cbn [negb].
    + destruct (stage2 file tr1) as [[r|e] tr2] eqn:E.
      * destruct (stage2_inv _ _ _ _ E)
          as (? & ? & ? & ? & d & _ & _ & _ & _ & -> & _).
        do 2 eexists. split; [reflexivity|]. left. simpl. eauto.
      * unfold ret. do 2 eexists. split; [reflexivity|]. right. simpl.
        do 2 (split; [reflexivity|]). eexists. split; [reflexivity|].
        destruct e as [message|]; [exact (stage2_throw _ _ _ _ E)|].
        left. simpl. tauto.
    + destruct (validate_reason _ _ _ _ _ Hv Hvalid) as (r & -> & Ht & Hin).
      unfold ret. do 2 eexists. split; [reflexivity|]. right. simpl.
      do 2 (split; [reflexivity|]). eexists. split; [reflexivity|].
      rewrite Ht. left. apply in_or_app. now left.
  - unfold throw, ret. do 2 eexists. split; [reflexivity|]. right. simpl.
    do 2 (split; [reflexivity|]). eexists. split; [reflexivity|].
    left. simpl. tauto.
Qed.

(** A success of [extractReceiptData] is a result of the extraction stage. *)
Lemma extract_success_inv (this : GeminiReceiptService) (file : File.t)
    (tr tr' : list Event) (r : ApiResponse.t) :
  extract this file tr = (Normal r, tr') ->
  ApiResponse.success r = true ->
  exists tr1, stage2 file tr1 = (Normal r, tr').
Proof.
  unfold extractReceiptData, tryCatch, bind.
  destruct (genAI this) as [key|].
  - destruct (validate_returns this file tr) as (v & tr1 & ->).
    destruct (negb (Validation.isValid v)).
    + unfold ret. intros H Hs. injection H as <- <-. discriminate Hs.
    + destruct (stage2 file tr1) as [[r1|e] tr2] eqn:E.
      * intros H _. injection H as <- <-. now exists tr1.
      * unfold ret. intros H Hs. injection H as <- <-. discriminate Hs.
  - unfold throw, ret. intros H Hs. injection H as <- <-. discriminate Hs.
Qed.


End ClientFacts.

(** Witness of C1: the model answers NOT_RECEIPT inside a sentence. *)
Lemma C1_not_receipt_witness :
  runScripted (Some "I am sure: NOT_RECEIPT.") (Some coffeeReply)
    = (Normal (ApiResponse.mk false None (Some notReceiptMessage)),
       [ReadFile receiptPng;
        GenerateContent
          (stageRequest
             "Analyze this image and determine if it is a payment receipt or invoice."
             receiptPng "data:image/png;base64,iVBORw0KGgo=")])
  /\ modelCalls (snd (runScripted (Some "I am sure: NOT_RECEIPT.")
                        (Some coffeeReply))) = 1%nat.
Proof.
  apply (C1_not_receipt_is_rejected_before_extraction
           "Analyze this image and determine if it is a payment receipt or invoice."
           "Please analyze this receipt image and extract the following information in a structured JSON format:"
           RefJSON.parse v8NullReadMessage
           (scriptedEnv (Some "I am sure: NOT_RECEIPT.") (Some coffeeReply))
           (mkService (Some "key")) receiptPng [] "key"
           "data:image/png;base64,iVBORw0KGgo=" "I am sure: NOT_RECEIPT.");
    reflexivity.
Defined.



(** ** Schema violations *)

Section SchemaFacts.

Variable getReceiptValidationPrompt : string.
Variable getPrompt : string.
Variable JSON_parse : string -> option json.
Variable nullReadMessage : string -> string.
Variable env : Env.

Local Abbreviation validate := (validateReceiptImage getReceiptValidationPrompt env).
Local Abbreviation stage2 :=
  (extractStage getPrompt JSON_parse nullReadMessage env).
Local Abbreviation extract :=
  (extractReceiptData getReceiptValidationPrompt getPrompt JSON_parse
     nullReadMessage env).

Lemma getProp_member (v : json) (p : string) :
  v <> JNull -> getProp nullReadMessage v p = ret (member v p).
Proof. destruct v; intros H; try reflexivity. now elim H. Qed.

Lemma validateItems_bad (arr : list json) (tr : list Event) :
  Forall (fun item => item <> JNull) arr ->
  Exists (fun item => badItem item = true) arr ->
  validateItems nullReadMessage arr tr = (Throw (JsError invalidItemMessage), tr).
Proof.
  induction 1 as [|item rest Hitem _ IH]; intros Hbad; [inversion Hbad|].
  cbn [validateItems]. unfold bind.
  rewrite !(getProp_member item _ Hitem). unfold ret.
  destruct (isString (member item "name")) eqn:En; [|reflexivity].
  destruct (isString (member item "price")) eqn:Ep; [|reflexivity].
  destruct (isString (member item "quantity")) eqn:Eq; [|reflexivity].
  cbn [negb]. apply IH.
  inversion Hbad as [? ? Hb|? ? Hb]; subst; [|exact Hb].
  unfold badItem in Hb. rewrite En, Ep, Eq in Hb. discriminate Hb.
Qed.

(** Away from [null], the check of lines 294-306 answers a payload
    without an array of items, and an array with a bad item, by the two
    schema messages. *)
Lemma stage2_schema_violation (file : File.t) (tr : list Event)
    (dataURL reply : string) (payload : json) :
  readAsDataURL env tr file = Some dataURL ->
  generateContent env (tr ++ [ReadFile file])%list
    (stageRequest getPrompt file dataURL) = Normal (Some reply) ->
  reply <> "" ->
  JSON_parse (cleanResponseText reply) = Some payload ->
  payload <> JNull ->
  (Array_isArray (member payload "items") = false ->
   fst (stage2 file tr) = Throw (JsError missingItemsMessage))
  /\
  (forall arr,
     member payload "items" = Some (JArr arr) ->
     Forall (fun item => item <> JNull) arr ->
     Exists (fun item => badItem item = true) arr ->
     fst (stage2 file tr) = Throw (JsError invalidItemMessage)).
Proof.
  intros Hread Hgen Hne Hparse Hnull.
  unfold extractStage, bind, fileToBase64, models_generateContent.
  rewrite Hread. unfold stageRequest in Hgen. rewrite Hgen.
  destruct reply as [|c0 reply0] eqn:Er; [now elim Hne|]. rewrite <- Er in *.
  rewrite Hparse.
  split; [intros Harr|intros arr Hitems Hall Hbad];
    unfold ret at 1; rewrite (getProp_member payload "items" Hnull);
    unfold ret at 1.
  - rewrite Harr. cbn [negb]. now rewrite orb_true_r.
  - rewrite Hitems.
    cbn [truthy Array_isArray negb orb elements].
    now rewrite (validateItems_bad arr _ Hall Hbad).
Qed.

(** A throw of the extraction stage comes back from [extractReceiptData]
    as a failure with the message of the error. *)
Lemma extract_reports_stage2_error (this : GeminiReceiptService)
    (file : File.t) (tr tr1 : list Event) (key message : string) :
  genAI this = Some key ->
  validate this file tr = (Normal (Validation.mk true None), tr1) ->
  fst (stage2 file tr1) = Throw (JsError message) ->
  fst (extract this file tr) = Normal (ApiResponse.mk false None (Some message)).
Proof.
  intros Hkey Hval Hs. unfold extractReceiptData, tryCatch, bind.
  rewrite Hkey, Hval. cbn [Validation.isValid negb].
  destruct (stage2 file tr1) as [c tr2]. simpl in Hs. now rewrite Hs.
Qed.

End SchemaFacts.

(** C4, where the code departs from it. A reply that parses to [null] has
    no [items], and an array holding [null] has an item without a name;
    the check of lines 294-306 reads a property of [null] in both cases,
    so the failure carries the TypeError's message, not one of the two
    schema messages. The rest of the property holds there as well: no record
    is returned, and the store keeps the history it had. *)
Theorem C4_null_escapes_the_schema_messages :
  RefJSON.parse (cleanResponseText "null") = Some JNull /\
  fst (runScripted (Some "VALID_RECEIPT") (Some "null"))
    = Normal (ApiResponse.mk false None
                (Some "Cannot read properties of null (reading 'items')")) /\
  RefJSON.parse (cleanResponseText (RefJSON.q "{'items':[null]}"))
    = Some (JObj [("items", JArr [JNull])]) /\
  fst (runScripted (Some "VALID_RECEIPT") (Some (RefJSON.q "{'items':[null]}")))
    = Normal (ApiResponse.mk false None
                (Some "Cannot read properties of null (reading 'name')")) /\
  error (state (dispatchAll (storeWith [receiptNamed "r01"])
                  (fst (fst (runThunkScripted (Some "VALID_RECEIPT")
                               (Some "null") "key")))))
    = Some "Cannot read properties of null (reading 'items')" /\
  history (state (dispatchAll (storeWith [receiptNamed "r01"])
                    (fst (fst (runThunkScripted (Some "VALID_RECEIPT")
                                 (Some "null") "key")))))
    = [receiptNamed "r01"].
Proof. repeat split; vm_compute; reflexivity. Qed.

(** ** The reducer *)

Lemma length_slice0 {A} (n : nat) (l : list A) : (List.length (slice0 n l) <= n)%nat.
Proof. unfold slice0. rewrite length_firstn. lia. Qed.

Lemma firstn_app_firstn {A} (n : nat) (a b : list A) :
  firstn n (a ++ firstn n b)%list = firstn n (a ++ b)%list.
Proof.
  rewrite !firstn_app, firstn_firstn.
  now replace (Nat.min (n - List.length a) n) with (n - List.length a)%nat by lia.
Qed.

Lemma dispatch_addition (st : Store) (a : Action) (r : ReceiptData.t) :
  added (state st) a = Some r ->
  history (state (dispatch st a)) = firstn 10 (r :: history (state st)) /\
  saved (dispatch st a) = Some (history (state (dispatch st a))).
Proof.
  destruct a; try discriminate; simpl; unfold dispatch; simpl.
  - intros ->. simpl. now split.
  - intros H; injection H as ->. now split.
Qed.

Lemma dispatch_no_addition (st : Store) (a : Action) :
  isRemoval a = false -> added (state st) a = None ->
  history (state (dispatch st a)) = history (state st) /\
  saved (dispatch st a) = saved st.
Proof.
  unfold dispatch.
  destruct a; try discriminate; simpl; intros _ H; try (now split).
  - now rewrite H.
  - now destruct (find _ _).
Qed.

(** The history after a run of actions none of which is a removal: the
    records added, newest first, then the history of before, cut at ten. *)
Lemma history_after_additions (actions : list Action) (st : Store) :
  Forall (fun a => isRemoval a = false) actions ->
  history (state (dispatchAll st actions)) =
    match additions st actions with
    | [] => history (state st)
    | recs => firstn 10 (rev recs ++ history (state st))%list
    end.
Proof.
  revert st. induction actions as [|a rest IH]; intros st Hall; [reflexivity|].
  inversion Hall as [|? ? Ha Hrest]; subst.
  change (dispatchAll st (a :: rest)) with (dispatchAll (dispatch st a) rest).
  rewrite (IH _ Hrest). simpl additions.
  destruct (added (state st) a) as [r|] eqn:E.
  - destruct (dispatch_addition st a r E) as [Hh _]. rewrite Hh.
    destruct (additions (dispatch st a) rest) as [|r1 recs1]; [reflexivity|].
    rewrite firstn_app_firstn.
    change (rev (r :: r1 :: recs1)) with (rev (r1 :: recs1) ++ [r])%list.
    now rewrite <- app_assoc.
  - destruct (dispatch_no_addition st a Ha E) as [Hh _]. now rewrite Hh.
Qed.

(** No action makes a history of at most ten entries longer than ten. *)
Lemma dispatch_keeps_cap (st : Store) (a : Action) :
  (List.length (history (state st)) <= 10)%nat ->
  (List.length (history (state (dispatch st a))) <= 10)%nat.
Proof.
  intros H. unfold dispatch.
  pose proof (length_slice0 9 (history (state st))) as Hs.
  destruct a; cbn -[slice0]; try assumption; try lia.
  - destruct (data (state st)); cbn -[slice0]; [lia|assumption].
  - match goal with |- context [filter ?f ?l] =>
      pose proof (filter_length_le f l) end. lia.
  - destruct (find _ _); cbn; assumption.
Qed.

Lemma dispatchAll_keeps_cap (actions : list Action) (st : Store) :
  (List.length (history (state st)) <= 10)%nat ->
  (List.length (history (state (dispatchAll st actions))) <= 10)%nat.
Proof.
  revert st. induction actions as [|a rest IH]; intros st H; [exact H|].
  apply IH, dispatch_keeps_cap, H.
Qed.

(** After a run that added a record, the list last handed to
    [saveHistoryToStorage] is the history itself. *)
Lemma saved_after_additions (actions : list Action) (st : Store) :
  Forall (fun a => isRemoval a = false) actions ->
  saved st = Some (history (state st)) \/ additions st actions <> [] ->
  saved (dispatchAll st actions) = Some (history (state (dispatchAll st actions))).
Proof.
  revert st. induction actions as [|a rest IH]; intros st Hall H.
  - destruct H as [H|H]; [exact H|now elim H].
  - inversion Hall as [|? ? Ha Hrest]; subst.
    change (dispatchAll st (a :: rest)) with (dispatchAll (dispatch st a) rest).
    apply (IH _ Hrest). simpl additions in H.
    destruct (added (state st) a) as [r|] eqn:E.
    + left. apply (dispatch_addition st a r E).
    + destruct (dispatch_no_addition st a Ha E) as [Hh Hs].
      destruct H as [H|H]; [left|now right]. now rewrite Hh, Hs.
Qed.

(** C2. Along any run of actions that holds no removal, so along any run
    of history additions ([fulfilled] extractions and [saveToHistory]
    calls) with the other actions of the attempts between them, the
    history, in the state and as persisted, holds at most ten entries as
    soon as one record has been added; once more than ten records have
    been added it holds exactly ten, the ten added last, newest first.
    And whatever the actions, a history within ten stays within ten. *)
Theorem C2_history_is_capped_at_ten (st : Store) (actions : list Action) :
  let recs := additions st actions in
  let h := history (state (dispatchAll st actions)) in
  ((List.length (history (state st)) <= 10)%nat -> (List.length h <= 10)%nat) /\
  (Forall (fun a => isRemoval a = false) actions ->
   (recs <> [] ->
    (List.length h <= 10)%nat /\ saved (dispatchAll st actions) = Some h) /\
   ((10 < List.length recs)%nat ->
    h = firstn 10 (rev recs) /\ List.length h = 10%nat)).
Proof.
  intros recs h. split; [apply dispatchAll_keeps_cap|]. intros Hall.
  assert (Hsaved : recs <> [] -> saved (dispatchAll st actions) = Some h)
    by (intros Hne; apply saved_after_additions; [exact Hall|now right]).
  subst h. revert Hsaved.
  rewrite (history_after_additions actions st Hall). fold recs.
  intros Hsaved. split.
  - intros Hne. split; [|exact (Hsaved Hne)].
    destruct recs; [congruence|]. rewrite length_firstn. lia.
  - intros H. destruct recs as [|r recs]; [simpl in H; lia|].
    assert (L : (10 <= List.length (rev (r :: recs)))%nat)
      by (rewrite length_rev; lia).
    rewrite firstn_app.
    replace (10 - List.length (rev (r :: recs)))%nat with 0%nat by lia.
    rewrite firstn_O, app_nil_r. split; [reflexivity|].
    rewrite length_firstn. lia.
Qed.

(** Witness of C2: eleven successful extractions from the empty store;
    the first record is gone, the other ten remain, newest first. *)
Lemma C2_history_is_capped_witness :
  history (state (dispatchAll emptyStore
    (flat_map (fun n => successfulAttempt (receiptNamed n))
       ["r01"; "r02"; "r03"; "r04"; "r05"; "r06"; "r07"; "r08"; "r09";
        "r10"; "r11"])))
    = map receiptNamed ["r11"; "r10"; "r09"; "r08"; "r07"; "r06"; "r05";
                        "r04"; "r03"; "r02"].
Proof.
  set (actions := flat_map (fun n => successfulAttempt (receiptNamed n)) _).
  assert (Hall : Forall (fun a => isRemoval a = false) actions)
    by (repeat constructor).
  destruct (C2_history_is_capped_at_ten emptyStore actions) as (_ & H).
  destruct (H Hall) as (_ & H10).
  destruct (H10 ltac:(simpl; lia)) as [E _].
  rewrite E. reflexivity.
Defined.

(** ** The thunk and the reducer together *)

Section ThunkFacts.

Variable getReceiptValidationPrompt : string.
Variable getPrompt : string.
Variable JSON_parse : string -> option json.
Variable nullReadMessage : string -> string.
Variable env : Env.

Local Abbreviation thunk :=
  (extractReceiptDataThunk getReceiptValidationPrompt getPrompt JSON_parse
     nullReadMessage env).

(** The four shapes of an attempt, as the store sees it. *)
Lemma thunk_shapes (service : GeminiReceiptService) (file : File.t)
    (apiKey : string) (tr : list Event) :
  let actions := fst (fst (thunk service file apiKey tr)) in
  (exists m, actions = [extractReceiptData_pending;
                        extractReceiptData_rejected (Some m)]) \/
  (exists m, actions = [extractReceiptData_pending; updateProgress 25;
                        extractReceiptData_rejected (Some m)]) \/
  (exists m, actions = [extractReceiptData_pending; updateProgress 25;
                        updateProgress 75;
                        extractReceiptData_rejected (Some m)]) \/
  (exists d, actions = [extractReceiptData_pending; updateProgress 25;
                        updateProgress 75; updateProgress 100;
                        extractReceiptData_fulfilled d]).
Proof.
  unfold extractReceiptDataThunk, payloadCreator.
  destruct (initialize apiKey) as [service'|e]; [|simpl; eauto].
  destruct (extractReceiptData _ _ _ _ _ service' file tr) as [[r|e] tr'];
    [|simpl; eauto 6].
  destruct (ApiResponse.success r), (ApiResponse.data r); simpl; eauto 8.
Qed.

(** C9. The [rejected] case of the reducer stores the message, clears the
    two loading flags and resets the progress, and touches nothing else;
    and over a whole failed attempt, from [pending] to [rejected], the
    history, the current extraction and the persisted list are those of
    before the attempt. *)
Theorem C9_rejected_attempt_leaves_history_and_current_extraction :
  (forall (s : ExtractionState.t) (payload : option string),
     reducer s (extractReceiptData_rejected payload) =
       (ExtractionState.mk false false (data s) (currentExtraction s)
          payload 0 (history s), None))
  /\
  (forall (st : Store) (service : GeminiReceiptService) (file : File.t)
          (apiKey : string) (tr : list Event) (payload : option string),
     let actions := fst (fst (thunk service file apiKey tr)) in
     let st' := dispatchAll st actions in
     In (extractReceiptData_rejected payload) actions ->
     error (state st') = payload /\
     isLoading (state st') = false /\
     isProcessing (state st') = false /\
     progress (state st') = 0%Z /\
     history (state st') = history (state st) /\
     currentExtraction (state st') = currentExtraction (state st) /\
     data (state st') = data (state st) /\
     saved st' = saved st).
Proof.
  split; [reflexivity|].
  intros st service file apiKey tr payload actions st' Hin.
  subst st'.
  destruct (thunk_shapes service file apiKey tr)
    as [(m & E)|[(m & E)|[(m & E)|(d & E)]]];
    fold actions in E; rewrite E in *; clear E;
    simpl in Hin;
    repeat (destruct Hin as [Hin|Hin]; [try discriminate Hin|]);
    try contradiction;
    injection Hin as <-; cbn; repeat split; reflexivity.
Qed.

End ThunkFacts.

(** Witness of C9: an image the model calls NOT_RECEIPT, from the empty
    store. *)
Lemma C9_rejected_attempt_witness :
  error (state (dispatchAll emptyStore
           (fst (fst (runThunkScripted (Some "NOT_RECEIPT") None "key")))))
    = Some notReceiptMessage /\
  history (state (dispatchAll emptyStore
             (fst (fst (runThunkScripted (Some "NOT_RECEIPT") None "key")))))
    = [] /\
  currentExtraction (state (dispatchAll emptyStore
                       (fst (fst (runThunkScripted (Some "NOT_RECEIPT") None "key")))))
    = None.
Proof.
  destruct C9_rejected_attempt_leaves_history_and_current_extraction
    with (getReceiptValidationPrompt :=
            "Analyze this image and determine if it is a payment receipt or invoice.")
         (getPrompt :=
            "Please analyze this receipt image and extract the following information in a structured JSON format:")
         (JSON_parse := RefJSON.parse)
         (nullReadMessage := v8NullReadMessage)
         (env := scriptedEnv (Some "NOT_RECEIPT") None) as [_ H].
  specialize (H emptyStore (mkService None) receiptPng "key" []
                (Some notReceiptMessage)).
  destruct H as (He & _ & _ & _ & Hh & Hc & _).
  - vm_compute. tauto.
  - unfold runThunkScripted. now rewrite He, Hh, Hc.
Defined.

(** ** Currency detection *)

(** USD is also what comes out when no pattern of the list matches. *)
Lemma firstMatch_default (ps : list (RegExp * string)) (s : string) :
  Forall (fun pc => RegExp_test (fst pc) s = false) ps -> firstMatch ps s = "USD".
Proof.
  induction 1 as [|[p c] ps Hp _ IH]; [reflexivity|].
  simpl in *. now rewrite Hp.
Qed.

Lemma firstMatch_range (ps : list (RegExp * string)) (s : string) :
  firstMatch ps s = "USD" \/ In (firstMatch ps s) (map snd ps).
Proof.
  induction ps as [|[p c] ps IH]; [now left|].
  simpl. destruct (RegExp_test p s); [right; now left|].
  destruct IH; [now left|right; now right].
Qed.

(** C7. The two examples of the specification: the Tokyo address gives
    JPY, and no address and no language give the default USD, which is
    also the answer whenever no pattern of the list matches the text. *)
Theorem C7_detectCurrencyFromLocation_examples :
  detectCurrencyFromLocation (Some "123 Main St, Tokyo, Japan") None = "JPY" /\
  detectCurrencyFromLocation None None = "USD" /\
  (forall address language,
     Forall (fun pc => RegExp_test (fst pc) (searchTextOf address language) = false)
            patterns ->
     detectCurrencyFromLocation address language = "USD").
Proof.
  split; [vm_compute; reflexivity|]. split; [reflexivity|].
  intros address language H. unfold detectCurrencyFromLocation.
  destruct (negb (optTruthy address) && negb (optTruthy language));
    [reflexivity|].
  now apply firstMatch_default.
Qed.

(** Witness of C7: an address no pattern matches. *)
Lemma C7_detectCurrencyFromLocation_witness :
  detectCurrencyFromLocation (Some "Laugavegur 12, Reykjavik") None = "USD".
Proof.
  apply C7_detectCurrencyFromLocation_examples.
  unfold patterns. repeat constructor.
Defined.

Lemma append_assoc (a b c : string) : (a ++ b) ++ c = a ++ (b ++ c).
Proof. induction a as [|x a IH]; simpl; [reflexivity|now rewrite IH]. Qed.

Lemma RegExp_test_skip (re : RegExp) (a x : string) :
  matchHere re x = true -> RegExp_test re (a ++ x) = true.
Proof.
  intros H. induction a as [|c a IH]; simpl.
  - destruct x; simpl; now rewrite H.
  - rewrite IH. apply orb_true_r.
Qed.

Lemma matchHere_app (r1 r2 : RegExp) (x : string) :
  matchHere (r1 ++ r2)%list x = matchHere r1 x || matchHere r2 x.
Proof. unfold matchHere. apply existsb_app. Qed.

Lemma usdPattern_alternatives :
  usdPattern = (regexp "(usa|united states|america|us\s|u\.s\.)"
                ++ regexp "canada" ++ regexp "ca\s")%list.
Proof. reflexivity. Qed.

Lemma cadPattern_alternatives :
  cadPattern = (regexp "canada" ++ regexp "canadian" ++ regexp "ca\s")%list.
Proof. reflexivity. Qed.

Lemma patterns_head :
  exists rest,
    patterns = (usdPattern, "USD") :: (cadPattern, "CAD") :: rest /\
    ~ In "CAD" (map snd rest).
Proof.
  eexists. split; [reflexivity|].
  simpl. intros H.
  repeat (destruct H as [H|H]; [discriminate H|]). exact H.
Qed.

(** Where the CAD pattern matches and the USD pattern does not, it is the
    alternative [canadian] that matches. *)
Lemma matchHere_cad_only (x : string) :
  matchHere cadPattern x = true -> matchHere usdPattern x = false ->
  matchHere (regexp "canadian") x = true.
Proof.
  rewrite usdPattern_alternatives, cadPattern_alternatives, !matchHere_app.
  destruct (matchHere (regexp "canada") x), (matchHere (regexp "ca\s") x),
    (matchHere (regexp "canadian") x); simpl;
    rewrite ?orb_true_r, ?orb_false_r; congruence.
Qed.

Lemma RegExp_test_cad_only (s : string) :
  RegExp_test cadPattern s = true -> RegExp_test usdPattern s = false ->
  RegExp_test (regexp "canadian") s = true.
Proof.
  induction s as [|c s IH].
  - cbn [RegExp_test]. rewrite !orb_false_r. apply matchHere_cad_only.
  - cbn [RegExp_test]. intros Hc Hu.
    apply orb_false_iff in Hu as [Hu1 Hu2].
    apply orb_true_iff in Hc as [Hc|Hc].
    + now rewrite (matchHere_cad_only _ Hc Hu1).
    + rewrite (IH Hc Hu2). apply orb_true_r.
Qed.

Lemma usdPattern_matches_canada (s rest : string) :
  Js.includes s "canada" = true -> RegExp_test usdPattern (s ++ rest) = true.
Proof.
  intros H. destruct (includes_inv _ _ H) as (a & b & ->).
  rewrite !append_assoc. apply RegExp_test_skip.
  vm_compute. reflexivity.
Qed.

Lemma usdPattern_matches_ca_blank (s rest : string) (w : ascii) :
  Js.isWhiteSpace w = true ->
  Js.includes s (String "c" (String "a" (String w ""))) = true ->
  RegExp_test usdPattern (s ++ rest) = true.
Proof.
  intros Hw H. destruct (includes_inv _ _ H) as (a & b & ->).
  rewrite !append_assoc. apply RegExp_test_skip.
  rewrite usdPattern_alternatives, !matchHere_app.
  replace (matchHere (regexp "ca\s") _) with true; [now rewrite !orb_true_r|].
  simpl. now rewrite Hw.
Qed.

(** C10. An address whose lower-cased text holds [canada], or [ca] and a
    blank after it, gives USD: the first pattern of the list matches it,
    and the CAD pattern behind it is never tried. CAD comes out only of a
    text the first pattern does not match and in which [canadian] occurs,
    as it does for "Canadian Tire". *)
Theorem C10_canada_is_shadowed_by_the_first_pattern :
  (forall (address : string) (language : option string),
     Js.includes (Js.toLowerCase address) "canada" = true \/
     (exists w, Js.isWhiteSpace w = true /\
                Js.includes (Js.toLowerCase address)
                  (String "c" (String "a" (String w ""))) = true) ->
     detectCurrencyFromLocation (Some address) language = "USD")
  /\
  (forall (address language : option string),
     detectCurrencyFromLocation address language = "CAD" ->
     RegExp_test usdPattern (searchTextOf address language) = false /\
     RegExp_test (regexp "canadian") (searchTextOf address language) = true)
  /\
  detectCurrencyFromLocation (Some "Canadian Tire") None = "CAD".
Proof.
  destruct patterns_head as (rest & Hp & Hrest).
  split; [|split].
  - intros address language H.
    assert (Hne : optTruthy (Some address) = true).
    { destruct address; [|reflexivity].
      destruct H as [H|(w & _ & H)]; discriminate H. }
    unfold detectCurrencyFromLocation. rewrite Hne. cbn [negb andb].
    rewrite Hp. cbn [firstMatch lowerOrEmpty].
    replace (RegExp_test usdPattern _) with true; [reflexivity|].
    symmetry. destruct H as [H|(w & Hw & H)].
    + now apply usdPattern_matches_canada.
    + now apply (usdPattern_matches_ca_blank _ _ w).
  - intros address language. unfold detectCurrencyFromLocation.
    destruct (negb (optTruthy address) && negb (optTruthy language));
      [discriminate|].
    fold (searchTextOf address language). rewrite Hp. cbn [firstMatch].
    destruct (RegExp_test usdPattern _) eqn:Hu; [discriminate|].
    destruct (RegExp_test cadPattern _) eqn:Hc.
    + intros _. split; [reflexivity|]. now apply RegExp_test_cad_only.
    + intros H. exfalso. apply Hrest.
      destruct (firstMatch_range rest (searchTextOf address language)) as [E|E];
        [congruence|now rewrite H in E].
  - vm_compute. reflexivity.
Qed.

(** Witness of C10: a Toronto address. *)
Lemma C10_canada_is_shadowed_witness :
  detectCurrencyFromLocation (Some "55 Bloor St W, Toronto, Canada") None = "USD".
Proof.
  apply C10_canada_is_shadowed_by_the_first_pattern.
  left. vm_compute. reflexivity.
Defined.

(** ** Stripping blanks and fences *)

Section Strip.

Variable p : ascii -> bool.

Lemma stripStart_all (l x : string) :
  Js.all p l = true -> Js.stripStart p (l ++ x) = Js.stripStart p x.
Proof.
  induction l as [|c l IH]; simpl; [reflexivity|].
  intros H. apply andb_true_iff in H as [Hc Hl]. rewrite Hc. auto.
Qed.

Lemma stripEnd_all (r : string) : Js.all p r = true -> Js.stripEnd p r = "".
Proof.
  induction r as [|c r IH]; simpl; [reflexivity|].
  intros H. apply andb_true_iff in H as [Hc Hr]. now rewrite (IH Hr), Hc.
Qed.

Lemma stripEnd_app_all (y r : string) :
  Js.all p r = true -> Js.stripEnd p (y ++ r) = Js.stripEnd p y.
Proof.
  intros H. induction y as [|c y IH]; simpl.
  - now apply stripEnd_all.
  - now rewrite IH.
Qed.

Lemma stripEnd_last (a : string) (d : ascii) :
  Js.lastChar a = Some d -> p d = false -> Js.stripEnd p a = a.
Proof.
  induction a as [|c a IH]; [discriminate|].
  intros Hl Hd. destruct a as [|c' a].
  - injection Hl as ->. simpl. now rewrite Hd.
  - change (Js.lastChar (String c (String c' a)))
      with (Js.lastChar (String c' a)) in Hl.
    specialize (IH Hl Hd).
    change (Js.stripEnd p (String c (String c' a))) with
      (match Js.stripEnd p (String c' a) with
       | EmptyString => if p c then EmptyString else String c EmptyString
       | r => String c r
       end).
    now rewrite IH.
Qed.

Lemma stripStart_split (s : string) :
  exists l, s = l ++ Js.stripStart p s /\ Js.all p l = true.
Proof.
  induction s as [|c s (l & E & Hl)]; [now exists ""|].
  simpl. destruct (p c) eqn:Hc.
  - exists (String c l). simpl. now rewrite <- E, Hc, Hl.
  - now exists "".
Qed.

Lemma stripEnd_split (s : string) :
  exists r, s = Js.stripEnd p s ++ r /\ Js.all p r = true.
Proof.
  induction s as [|c s (r & E & Hr)]; [now exists ""|].
  simpl. destruct (Js.stripEnd p s) as [|d t] eqn:Es.
  - simpl in E. subst s. destruct (p c) eqn:Hc.
    + exists (String c r). simpl. now rewrite Hc, Hr.
    + now exists r.
  - exists r. split; [|exact Hr]. simpl. simpl in E. now rewrite <- E.
Qed.

Lemma all_app (a b : string) :
  Js.all p (a ++ b) = Js.all p a && Js.all p b.
Proof.
  induction a as [|c a IH]; simpl; [reflexivity|].
  now rewrite IH, andb_assoc.
Qed.

End Strip.

Lemma lastChar_app_cons (a : string) (c : ascii) (b : string) :
  Js.lastChar (a ++ String c b) = Js.lastChar (String c b).
Proof.
  induction a as [|x a IH]; [reflexivity|].
  cbn [append]. destruct (a ++ String c b) as [|y ys] eqn:E.
  - destruct a; discriminate E.
  - exact IH.
Qed.

(** [trim] of a text padded with blanks, when the text itself begins and
    ends with a code unit that is not blank. *)
Lemma trim_padded (pre core post : string) (c d : ascii) (rest : string) :
  core = String c rest -> Js.isWhiteSpace c = false ->
  Js.lastChar core = Some d -> Js.isWhiteSpace d = false ->
  Js.all Js.isWhiteSpace pre = true -> Js.all Js.isWhiteSpace post = true ->
  Js.trim (pre ++ core ++ post) = core.
Proof.
  intros Hcore Hc Hlast Hd Hpre Hpost.
  unfold Js.trim, Js.trimStart, Js.trimEnd.
  rewrite (stripStart_all _ _ _ Hpre).
  replace (Js.stripStart Js.isWhiteSpace (core ++ post)) with (core ++ post)
    by (rewrite Hcore; simpl; now rewrite Hc).
  rewrite (stripEnd_app_all _ _ _ Hpost).
  exact (stripEnd_last _ _ _ Hlast Hd).
Qed.

Lemma length_append (a b : string) :
  String.length (a ++ b) = (String.length a + String.length b)%nat.
Proof. induction a as [|c a IH]; simpl; [reflexivity|now rewrite IH]. Qed.

Lemma drop_length_app (a b : string) : Js.drop (String.length a) (a ++ b) = b.
Proof. induction a as [|c a IH]; [now destruct b|exact IH]. Qed.

Lemma removeOpeningFence_here (fence rest : string) :
  removeOpeningFence fence (fence ++ rest) = dropLeadingNewline rest.
Proof.
  assert (E : forall s, removeOpeningFence fence s =
    if Js.startsWith s fence then
      match Js.drop (String.length fence) s with
      | String c r => if Ascii.eqb c newline then r else String c r
      | EmptyString => EmptyString
      end
    else match s with
         | EmptyString => EmptyString
         | String c s' => String c (removeOpeningFence fence s')
         end) by (intros [|? ?]; reflexivity).
  rewrite E, startsWith_app, drop_length_app. now destruct rest.
Qed.

Lemma eqb_app_fence (r : string) :
  String.eqb (r ++ "```") "```" = String.eqb r "".
Proof.
  destruct r as [|c r]; [reflexivity|].
  apply String.eqb_neq. intros H.
  apply (f_equal String.length) in H. simpl in H.
  rewrite length_append in H. simpl in H. lia.
Qed.

Lemma removeClosingFence_here (x : string) :
  removeClosingFence (x ++ "```") = dropFinalNewline x.
Proof.
  induction x as [|c x IH]; [reflexivity|].
  change (removeClosingFence (String c x ++ "```")) with
    (if String.eqb (String c (x ++ "```")) (String newline "```")
        || String.eqb (String c (x ++ "```")) "```"
     then EmptyString else String c (removeClosingFence (x ++ "```"))).
  rewrite IH.
  replace (String.eqb (String c (x ++ "```")) "```") with false.
  2:{ symmetry. apply String.eqb_neq. intros H.
      apply (f_equal String.length) in H. simpl in H.
      rewrite length_append in H. simpl in H. lia. }
  rewrite orb_false_r.
  change (String.eqb (String c (x ++ "```")) (String newline "```"))
    with (Ascii.eqb c newline && String.eqb (x ++ "```") "```").
  rewrite eqb_app_fence. reflexivity.
Qed.

Lemma dropFinalNewline_after (a r : string) (d : ascii) :
  Js.lastChar a = Some d -> d <> newline ->
  dropFinalNewline (a ++ r) = a ++ dropFinalNewline r.
Proof.
  induction a as [|c a IH]; [discriminate|].
  intros Hl Hd. destruct a as [|c' a].
  - injection Hl as ->. simpl.
    destruct (Ascii.eqb d newline) eqn:E; [|reflexivity].
    apply Ascii.eqb_eq in E. contradiction.
  - change (Js.lastChar (String c (String c' a)))
      with (Js.lastChar (String c' a)) in Hl.
    specialize (IH Hl Hd).
    change (dropFinalNewline (String c (String c' a) ++ r)) with
      (if Ascii.eqb c newline && String.eqb (String c' a ++ r) ""
       then EmptyString else String c (dropFinalNewline (String c' a ++ r))).
    rewrite IH. simpl. now rewrite andb_false_r.
Qed.

Lemma all_dropFinalNewline (p : ascii -> bool) (r : string) :
  Js.all p r = true -> Js.all p (dropFinalNewline r) = true.
Proof.
  induction r as [|c r IH]; [reflexivity|].
  simpl. intros H. apply andb_true_iff in H as [Hc Hr].
  destruct (Ascii.eqb c newline && String.eqb r ""); [reflexivity|].
  simpl. now rewrite Hc, IH.
Qed.

(** ** Characters at the ends of a JSON text *)

Lemma opensValue_facts (c : ascii) :
  JsonText.opensValue c = true ->
  Js.isWhiteSpace c = false /\ Ascii.eqb c newline = false /\
  Ascii.eqb "`" c = false /\ Ascii.eqb "j" c = false.
Proof.
  destruct c as [[|] [|] [|] [|] [|] [|] [|] [|]]; vm_compute;
    intros H; try discriminate H; repeat split.
Qed.

Lemma closesValue_facts (d : ascii) :
  JsonText.closesValue d = true ->
  Js.isWhiteSpace d = false /\ d <> newline.
Proof.
  destruct d as [[|] [|] [|] [|] [|] [|] [|] [|]]; vm_compute;
    intros H; try discriminate H; split; try reflexivity; discriminate.
Qed.

Lemma isBlank_facts (c : ascii) :
  JsonText.isBlank c = true ->
  Js.isWhiteSpace c = true /\ Ascii.eqb "j" c = false.
Proof.
  destruct c as [[|] [|] [|] [|] [|] [|] [|] [|]]; vm_compute;
    intros H; try discriminate H; split; reflexivity.
Qed.

Lemma allBlank_allWhiteSpace (s : string) :
  JsonText.allBlank s = true -> Js.all Js.isWhiteSpace s = true.
Proof.
  unfold JsonText.allBlank.
  induction s as [|c s IH]; [reflexivity|]. simpl.
  intros H. apply andb_true_iff in H as [Hc Hs].
  now rewrite (proj1 (isBlank_facts c Hc)), IH.
Qed.

Lemma bounded_inv (body : string) :
  JsonText.bounded body = true ->
  exists c rest d,
    body = String c rest /\ Js.lastChar body = Some d /\
    JsonText.opensValue c = true /\ JsonText.closesValue d = true.
Proof.
  unfold JsonText.bounded. destruct body as [|c rest]; [discriminate|].
  destruct (Js.lastChar (String c rest)) as [d|]; [|discriminate].
  intros H. apply andb_true_iff in H as [Hc Hd]. now exists c, rest, d.
Qed.

(** ** Fenced and plain replies parse alike *)

Section FenceFacts.

Variable JSON_parse : string -> option json.

(** Two facts of the JSON grammar (ECMA-404): whitespace around a text is
    insignificant, and a text that parses is a value between whitespace,
    the value beginning and ending with a character of a token. *)
Hypothesis JSON_parse_blank :
  forall l s r,
    JsonText.allBlank l = true -> JsonText.allBlank r = true ->
    JSON_parse (l ++ s ++ r) = JSON_parse s.
Hypothesis JSON_parse_bounded :
  forall s v,
    JSON_parse s = Some v ->
    exists l body r,
      s = l ++ body ++ r /\ JsonText.allBlank l = true /\
      JsonText.allBlank r = true /\ JsonText.bounded body = true.

Lemma clean_plain (l body r : string) :
  JsonText.allBlank l = true -> JsonText.allBlank r = true ->
  JsonText.bounded body = true ->
  cleanResponseText (l ++ body ++ r) = body.
Proof.
  intros Hl Hr Hb.
  destruct (bounded_inv _ Hb) as (c & rest & d & E & Hlast & Hc & Hd).
  destruct (opensValue_facts c Hc) as (Hws & _ & Hbt & _).
  destruct (closesValue_facts d Hd) as (Hwd & _).
  unfold cleanResponseText.
  rewrite (trim_padded l body r c d rest E Hws Hlast Hwd
             (allBlank_allWhiteSpace _ Hl) (allBlank_allWhiteSpace _ Hr)).
  unfold stripFences. rewrite E.
  now rewrite !startsWith_cons, Hbt.
Qed.

Lemma stripFences_fenced (fence L body R : string) :
  fence = "```json" \/ fence = "```" ->
  JsonText.allBlank L = true -> JsonText.allBlank R = true ->
  JsonText.bounded body = true ->
  exists L' R',
    stripFences (fence ++ (L ++ body ++ R) ++ "```") = L' ++ body ++ R' /\
    JsonText.allBlank L' = true /\ JsonText.allBlank R' = true.
Proof.
  intros Hfence HL HR Hb.
  destruct (bounded_inv _ Hb) as (c & rest & d & E & Hlast & Hc & Hd).
  destruct (opensValue_facts c Hc) as (_ & Hnl & _ & Hj).
  destruct (closesValue_facts d Hd) as (_ & Hdn).
  assert (Hopen : exists L',
    dropLeadingNewline ((L ++ body ++ R) ++ "```") = (L' ++ body ++ R) ++ "```"
    /\ JsonText.allBlank L' = true).
  { destruct L as [|c0 L0].
    - exists "". split; [|reflexivity]. rewrite E. simpl. now rewrite Hnl.
    - unfold JsonText.allBlank in HL. simpl in HL.
      apply andb_true_iff in HL as [H0 HL0].
      simpl. destruct (Ascii.eqb c0 newline).
      + now exists L0.
      + exists (String c0 L0). split; [reflexivity|].
        unfold JsonText.allBlank. simpl. now rewrite H0, HL0. }
  assert (Hnotjson :
    Js.startsWith ("```" ++ (L ++ body ++ R) ++ "```") "```json" = false).
  { destruct L as [|c0 L0].
    - rewrite E. cbn [append]. now rewrite !startsWith_cons, Hj.
    - unfold JsonText.allBlank in HL. simpl in HL.
      apply andb_true_iff in HL as [H0 _].
      cbn [append].
      now rewrite !startsWith_cons, (proj2 (isBlank_facts c0 H0)). }
  destruct Hopen as (L' & Eo & HL').
  assert (Hclose : removeClosingFence ((L' ++ body ++ R) ++ "```")
                   = L' ++ body ++ dropFinalNewline R).
  { rewrite removeClosingFence_here, <- append_assoc.
    rewrite (dropFinalNewline_after (L' ++ body) R d).
    - now rewrite append_assoc.
    - rewrite E, lastChar_app_cons, <- E. exact Hlast.
    - exact Hdn. }
  exists L', (dropFinalNewline R).
  split; [|split; [exact HL'|now apply all_dropFinalNewline]].
  unfold stripFences. destruct Hfence as [-> | ->].
  - now rewrite startsWith_app, removeOpeningFence_here, Eo.
  - now rewrite Hnotjson, startsWith_app, removeOpeningFence_here, Eo.
Qed.

(** C8. For a JSON text [t], the cleanup of lines 271-279 followed by
    [JSON.parse] gives on [t] between code fences ([```json] or [```])
    what it gives on [t] alone, namely what [t] parses to. *)
Theorem C8_fenced_reply_parses_like_the_plain_one
    (t : string) (v : json) (pre fence nl1 nl2 post : string) :
  JSON_parse t = Some v ->
  fence = "```json" \/ fence = "```" ->
  Js.all Js.isWhiteSpace pre = true -> Js.all Js.isWhiteSpace post = true ->
  JsonText.allBlank nl1 = true -> JsonText.allBlank nl2 = true ->
  JSON_parse (cleanResponseText (fenced pre fence nl1 t nl2 post))
    = JSON_parse (cleanResponseText t)
  /\ JSON_parse (cleanResponseText t) = Some v.
Proof.
  intros Ht Hfence Hpre Hpost Hn1 Hn2.
  destruct (JSON_parse_bounded t v Ht) as (l & body & r & -> & Hl & Hr & Hb).
  assert (Hplain : JSON_parse (cleanResponseText (l ++ body ++ r)) = Some v).
  { rewrite (clean_plain l body r Hl Hr Hb).
    now rewrite <- (JSON_parse_blank l body r Hl Hr). }
  split; [|exact Hplain]. rewrite Hplain.
  assert (HL : JsonText.allBlank (nl1 ++ l) = true)
    by (unfold JsonText.allBlank in *; now rewrite all_app, Hn1, Hl).
  assert (HR : JsonText.allBlank (r ++ nl2) = true)
    by (unfold JsonText.allBlank in *; now rewrite all_app, Hr, Hn2).
  unfold fenced, cleanResponseText.
  replace (fence ++ nl1 ++ (l ++ body ++ r) ++ nl2 ++ "```")
    with (fence ++ ((nl1 ++ l) ++ body ++ (r ++ nl2)) ++ "```")
    by (now rewrite !append_assoc).
  set (core := fence ++ ((nl1 ++ l) ++ body ++ (r ++ nl2)) ++ "```").
  assert (Htrim : Js.trim (pre ++ core ++ post) = core).
  { assert (Hlast : Js.lastChar core = Some "`"%char).
    { unfold core. rewrite <- append_assoc.
      apply (lastChar_app_cons _ "`"%char "``"). }
    assert (Hhead : exists rest, core = String "`" rest)
      by (unfold core; destruct Hfence as [-> | ->]; simpl; eauto).
    destruct Hhead as (rest & Hhead).
    now apply (trim_padded pre core post "`"%char "`"%char rest). }
  rewrite Htrim. unfold core.
  destruct (stripFences_fenced fence (nl1 ++ l) body (r ++ nl2) Hfence HL HR Hb)
    as (L' & R' & -> & HL' & HR').
  rewrite (JSON_parse_blank L' body R' HL' HR').
  rewrite <- (JSON_parse_blank l body r Hl Hr). exact Ht.
Qed.

End FenceFacts.

Lemma append_nil_r_stripStart (p : ascii -> bool) (r : string) :
  Js.all p r = true -> "" = Js.stripStart p r.
Proof.
  induction r as [|c r IH]; simpl; [reflexivity|].
  intros H. apply andb_true_iff in H as [Hc Hr]. rewrite Hc. auto.
Qed.

Lemma strip_both_app_all (p : ascii -> bool) (s r : string) :
  Js.all p r = true ->
  Js.stripEnd p (Js.stripStart p (s ++ r)) = Js.stripEnd p (Js.stripStart p s).
Proof.
  intros Hr. induction s as [|c s IH].
  - simpl. rewrite <- (append_nil_r_stripStart p r Hr). reflexivity.
  - simpl. destruct (p c); [exact IH|].
    now apply (stripEnd_app_all p (String c s) r).
Qed.

(** The reference parser has the two facts of the grammar. *)
Lemma RefJSON_parse_blank (l s r : string) :
  JsonText.allBlank l = true -> JsonText.allBlank r = true ->
  RefJSON.parse (l ++ s ++ r) = RefJSON.parse s.
Proof.
  intros Hl Hr. unfold RefJSON.parse, RefJSON.dropBlankEnd, RefJSON.skipBlank.
  rewrite (stripStart_all _ l (s ++ r) Hl).
  now rewrite (strip_both_app_all _ s r Hr).
Qed.

Lemma RefJSON_parse_bounded (s : string) (v : json) :
  RefJSON.parse s = Some v ->
  exists l body r,
    s = l ++ body ++ r /\ JsonText.allBlank l = true /\
    JsonText.allBlank r = true /\ JsonText.bounded body = true.
Proof.
  unfold RefJSON.parse, RefJSON.dropBlankEnd, RefJSON.skipBlank.
  destruct (JsonText.bounded _) eqn:Hb; [|discriminate]. intros _.
  destruct (stripStart_split JsonText.isBlank s) as (l & El & Hl).
  destruct (stripEnd_split JsonText.isBlank (Js.stripStart JsonText.isBlank s))
    as (r & Er & Hr).
  exists l, (Js.stripEnd JsonText.isBlank (Js.stripStart JsonText.isBlank s)), r.
  repeat split; try assumption. now rewrite <- Er.
Qed.

(** Witness of C8: the reply of the end-to-end scenario, plain and between
    [```json] fences on lines of their own. *)
Lemma C8_fenced_reply_witness :
  RefJSON.parse (cleanResponseText
                   (fenced " " "```json" (String newline "") coffeeReply
                      (String newline "") (String newline "")))
    = RefJSON.parse (cleanResponseText coffeeReply)
  /\ RefJSON.parse (cleanResponseText coffeeReply)
     = Some (JObj [("currency", JStr "USD"); ("total", JStr "6.00");
                   ("items", JArr [JObj [("price", JStr "6.00");
                                         ("quantity", JStr "2");
                                         ("name", JStr "Coffee")]])]).
Proof.
  apply (C8_fenced_reply_parses_like_the_plain_one RefJSON.parse
           RefJSON_parse_blank RefJSON_parse_bounded);
    try reflexivity.
  now left.
Defined.

(** ** Currency formatting *)

Section FormatFacts.

Variable parseFloat : string -> number.
Variable Intl_NumberFormat_format :
  string -> NumberFormatOptions.t -> number -> completion string.
Variable Intl_NumberFormat_formatToParts :
  string -> NumberFormatOptions.t -> number -> completion (list Part).

(** Two facts of the platform formatter (ECMA-402): the en-US formatter
    for USD exists and formats every number, and no rendering of a number
    is the text N/A. *)
Hypothesis usd_formatter_total :
  forall x, exists s, Intl_NumberFormat_format "en-US" usdOptions x = Normal s.
Hypothesis rendering_is_not_NA :
  forall locale options x s,
    Intl_NumberFormat_format locale options x = Normal s -> s <> "N/A".

(** Three more, on the fraction digits: a rendering is its parts joined;
    asked for two fraction digits, as the minimum and as the maximum, the
    formatter renders a finite number with two; and it renders an
    infinite number with none. *)
Hypothesis format_joins_the_parts :
  forall locale options x s,
    Intl_NumberFormat_format locale options x = Normal s ->
    exists parts,
      Intl_NumberFormat_formatToParts locale options x = Normal parts /\
      s = joinParts parts.
Hypothesis two_fraction_digits_as_asked :
  forall locale options mantissa exponent parts,
    NumberFormatOptions.minimumFractionDigits options = 2%nat ->
    NumberFormatOptions.maximumFractionDigits options = 2%nat ->
    Intl_NumberFormat_formatToParts locale options (Finite mantissa exponent)
      = Normal parts ->
    fractionDigits parts = 2%nat.
Hypothesis infinity_has_no_fraction :
  forall locale options negative parts,
    Intl_NumberFormat_formatToParts locale options (Infinite negative)
      = Normal parts ->
    fractionDigits parts = 0%nat.

Local Abbreviation format := (formatCurrency parseFloat Intl_NumberFormat_format).

(** C6, as the code has it. [formatCurrency] returns a string and never
    throws. The string is N/A exactly when the amount, coerced, is NaN.
    Otherwise it is a rendering of the amount by the platform formatter,
    in the locale of the upper-cased code, or in en-US for USD when the
    formatter rejects the code; the code asks for two fraction digits in
    both calls, so the rendering of a finite amount has exactly two
    fraction digits. The rendering of an infinite amount, which the guard
    of line 66 lets through, has none. *)
Theorem C6_formatCurrency_renders_finite_amounts_with_two_fraction_digits
    (amount : Amount) (currencyCode : option string) :
  let x := numAmount parseFloat amount in
  exists s,
    format amount currencyCode = Normal s /\
    (s = "N/A" <-> isNaN x = true) /\
    (isNaN x = false ->
     exists locale options parts,
       ((locale, options) = (localeOf currencyCode, currencyOptions currencyCode) \/
        (exists e, Intl_NumberFormat_format (localeOf currencyCode)
                     (currencyOptions currencyCode) x = Throw e) /\
        (locale, options) = ("en-US", usdOptions)) /\
       Intl_NumberFormat_format locale options x = Normal s /\
       Intl_NumberFormat_formatToParts locale options x = Normal parts /\
       s = joinParts parts /\
       fractionDigits parts = match x with
                              | Finite _ _ => 2%nat
                              | _ => 0%nat
                              end).
Proof.
  cbv zeta. unfold formatCurrency.
  fold (codeOf currencyCode).
  fold (numAmount parseFloat amount). fold (localeOf currencyCode).
  fold (currencyOptions currencyCode). fold usdOptions.
  set (x := numAmount parseFloat amount).
  assert (Digits : forall locale options s,
            NumberFormatOptions.minimumFractionDigits options = 2%nat ->
            NumberFormatOptions.maximumFractionDigits options = 2%nat ->
            isNaN x = false ->
            Intl_NumberFormat_format locale options x = Normal s ->
            exists parts,
              Intl_NumberFormat_formatToParts locale options x = Normal parts /\
              s = joinParts parts /\
              fractionDigits parts = match x with
                                     | Finite _ _ => 2%nat
                                     | _ => 0%nat
                                     end).
  { intros locale options s Hmin Hmax Hx E.
    destruct (format_joins_the_parts _ _ _ _ E) as (parts & P & Hs).
    exists parts. split; [exact P|]. split; [exact Hs|].
    destruct x as [|negative|mantissa exponent]; [discriminate Hx| |].
    - exact (infinity_has_no_fraction _ _ _ _ P).
    - exact (two_fraction_digits_as_asked _ _ _ _ _ Hmin Hmax P). }
  destruct (isNaN x) eqn:Hnan.
  - exists "N/A". split; [reflexivity|]. split; [tauto|discriminate].
  - destruct (Intl_NumberFormat_format (localeOf currencyCode)
                (currencyOptions currencyCode) x) as [s|e] eqn:E.
    + exists s. split; [reflexivity|]. split.
      * split; [|discriminate]. intros ->.
        now elim (rendering_is_not_NA _ _ _ _ E).
      * intros _.
        destruct (Digits (localeOf currencyCode) (currencyOptions currencyCode) s
                    eq_refl eq_refl eq_refl E) as (parts & P & Hs & Hd).
        exists (localeOf currencyCode), (currencyOptions currencyCode), parts.
        split; [now left|]. auto.
    + destruct (usd_formatter_total x) as (s & Es).
      exists s. split; [exact Es|]. split.
      * split; [|discriminate]. intros ->.
        now elim (rendering_is_not_NA _ _ _ _ Es).
      * intros _.
        destruct (Digits "en-US" usdOptions s eq_refl eq_refl eq_refl Es)
          as (parts & P & Hs & Hd).
        exists "en-US", usdOptions, parts.
        split; [right; split; [now exists e|reflexivity]|]. auto.
Qed.

End FormatFacts.

(** The reference formatter has the two facts. *)
Lemma RefIntl_usd_formatter_total (x : number) :
  exists s, RefIntl.format "en-US" usdOptions x = Normal s.
Proof. destruct x; eexists; reflexivity. Qed.

Lemma RefIntl_format_shape (locale : string) (options : NumberFormatOptions.t)
    (x : number) (s : string) :
  RefIntl.format locale options x = Normal s ->
  RefIntl.wellFormedCurrency (NumberFormatOptions.currency options) = true /\
  exists sign rest,
    s = sign ++ RefIntl.symbol (NumberFormatOptions.currency options) ++ rest /\
    (sign = "" \/ sign = "-").
Proof.
  unfold RefIntl.format.
  destruct (RefIntl.wellFormedCurrency _) eqn:W; [|discriminate].
  cbn [negb]. intros H. split; [reflexivity|].
  destruct x as [|neg|m e]; injection H as <-.
  - exists "", "NaN". auto.
  - exists (if neg then "-" else ""), RefIntl.infinitySign.
    destruct neg; auto.
  - eexists (if (m <? 0)%Z then "-" else ""), _.
    split; [reflexivity|]. destruct (m <? 0)%Z; auto.
Qed.

Lemma RefIntl_rendering_is_not_NA (locale : string)
    (options : NumberFormatOptions.t) (x : number) (s : string) :
  RefIntl.format locale options x = Normal s -> s <> "N/A".
Proof.
  intros H. destruct (RefIntl_format_shape _ _ _ _ H) as (W & sign & rest & -> & Hs).
  unfold RefIntl.symbol, RefIntl.wellFormedCurrency in *.
  destruct (NumberFormatOptions.currency options) as [|a [|b [|c [|? ?]]]];
    try discriminate W.
  apply andb_true_iff in W as [W _]. apply andb_true_iff in W as [_ Wb].
  destruct Hs as [-> | ->]; [|discriminate].
  destruct (String.eqb _ "USD"); [discriminate|].
  simpl. intros E. injection E as _ Eb _. subst b. discriminate Wb.
Qed.

Lemma append_empty_r (s : string) : s ++ "" = s.
Proof. induction s as [|c s IH]; [reflexivity|]. cbn. now rewrite IH. Qed.

(** The reference formatter has the three facts on the fraction digits,
    with [referenceParts] for its parts. *)
Lemma RefIntl_format_joins_the_parts (locale : string)
    (options : NumberFormatOptions.t) (x : number) (s : string) :
  RefIntl.format locale options x = Normal s ->
  exists parts,
    referenceParts locale options x = Normal parts /\ s = joinParts parts.
Proof.
  unfold RefIntl.format, referenceParts.
  destruct (RefIntl.wellFormedCurrency _); [|discriminate]. cbn [negb].
  destruct x as [|neg|m e]; intros [= <-]; eexists; (split; [reflexivity|]).
  - unfold joinParts. cbn [fold_right snd]. now rewrite ?append_empty_r.
  - unfold joinParts. destruct neg; cbn [app fold_right snd];
      now rewrite ?append_empty_r.
  - unfold joinParts.
    destruct (m <? 0)%Z, (NumberFormatOptions.maximumFractionDigits options);
      cbn [app fold_right snd]; now rewrite ?append_empty_r.
Qed.

Lemma RefIntl_two_digit_fraction (r : Z) :
  (0 <= r < 100)%Z ->
  String.length (RefIntl.padLeft 2 (RefIntl.decimal r)) = 2%nat.
Proof.
  intros Hr.
  assert (H : forallb (fun k =>
                String.length (RefIntl.padLeft 2 (RefIntl.decimal (Z.of_nat k)))
                =? 2)%nat (seq 0 100) = true) by (vm_compute; reflexivity).
  rewrite forallb_forall in H.
  specialize (H (Z.to_nat r)). rewrite Z2Nat.id in H by lia.
  apply Nat.eqb_eq, H, in_seq. lia.
Qed.

Lemma referenceParts_two_fraction_digits (locale : string)
    (options : NumberFormatOptions.t) (m e : Z) (parts : list Part) :
  NumberFormatOptions.minimumFractionDigits options = 2%nat ->
  NumberFormatOptions.maximumFractionDigits options = 2%nat ->
  referenceParts locale options (Finite m e) = Normal parts ->
  fractionDigits parts = 2%nat.
Proof.
  intros _ Hmax. unfold referenceParts. rewrite Hmax.
  destruct (RefIntl.wellFormedCurrency _); [|discriminate]. cbn [negb].
  intros [= <-]. unfold fractionDigits.
  destruct (m <? 0)%Z;
    cbn [app filter isFraction fst joinParts fold_right snd];
    rewrite append_empty_r;
    apply RefIntl_two_digit_fraction;
    apply Z.mod_pos_bound; reflexivity.
Qed.

Lemma referenceParts_infinity_has_no_fraction (locale : string)
    (options : NumberFormatOptions.t) (negative : bool) (parts : list Part) :
  referenceParts locale options (Infinite negative) = Normal parts ->
  fractionDigits parts = 0%nat.
Proof.
  unfold referenceParts.
  destruct (RefIntl.wellFormedCurrency _); [|discriminate]. cbn [negb].
  intros [= <-]. now destruct negative.
Qed.

(** Witness of C6: 1234.5 in USD, with the two digits of its fraction
    part; N/A for a text that is no number; the fallback to USD for a
    code of four letters; and an infinite amount, with no fraction
    part. *)
Lemma C6_formatCurrency_witness :
  (formatCurrency RefIntl.parseFloat RefIntl.format (ofString "1234.5") (Some "usd")
     = Normal "$1,234.50" /\
   exists parts,
     referenceParts "en-US" usdOptions (Finite 12345 (-1)) = Normal parts /\
     joinParts parts = "$1,234.50" /\ fractionDigits parts = 2%nat) /\
  formatCurrency RefIntl.parseFloat RefIntl.format (ofString "not-a-number") (Some "USD")
    = Normal "N/A" /\
  formatCurrency RefIntl.parseFloat RefIntl.format (ofNumber (Finite 12 0)) (Some "ABCD")
    = Normal "$12.00" /\
  (exists parts,
     referenceParts "en-US" usdOptions (Infinite true) = Normal parts /\
     joinParts parts = "-$" ++ RefIntl.infinitySign /\
     fractionDigits parts = 0%nat).
Proof.
  pose (T := C6_formatCurrency_renders_finite_amounts_with_two_fraction_digits
               RefIntl.parseFloat RefIntl.format referenceParts
               RefIntl_usd_formatter_total RefIntl_rendering_is_not_NA
               RefIntl_format_joins_the_parts
               referenceParts_two_fraction_digits
               referenceParts_infinity_has_no_fraction).
  split; [|split; [|split]].
  - destruct (T (ofString "1234.5") (Some "usd")) as (s & E & _ & H).
    assert (Es : Normal s = Normal "$1,234.50")
      by (rewrite <- E; vm_compute; reflexivity).
    injection Es as ->. split; [exact E|].
    destruct (H eq_refl) as (locale & options & parts & Hl & _ & P & Hs & Hd).
    exists parts.
    assert (El : (locale, options) = ("en-US", usdOptions)).
    { destruct Hl as [Hl|[(e & He) _]]; [exact Hl|].
      vm_compute in He. discriminate He. }
    injection El as -> ->.
    split; [exact P|]. split; [now symmetry|exact Hd].
  - destruct (T (ofString "not-a-number") (Some "USD")) as (s & E & [_ Hna] & _).
    rewrite E. f_equal. apply Hna. reflexivity.
  - destruct (T (ofNumber (Finite 12 0)) (Some "ABCD")) as (s & E & _ & H).
    rewrite E. f_equal.
    destruct (H eq_refl) as (locale & options & parts & Hl & F & _).
    destruct Hl as [Hl|[_ Hl]]; injection Hl as -> ->.
    + vm_compute in F. discriminate F.
    + vm_compute in F. now injection F as <-.
  - destruct (T (ofNumber (Infinite true)) (Some "USD")) as (s & E & _ & H).
    destruct (H eq_refl) as (locale & options & parts & Hl & _ & P & Hs & Hd).
    assert (El : (locale, options) = ("en-US", usdOptions)).
    { destruct Hl as [Hl|[(e & He) _]]; [exact Hl|].
      vm_compute in He. discriminate He. }
    injection El as -> ->.
    exists parts. split; [exact P|]. split; [|exact Hd].
    rewrite <- Hs.
    assert (Es : Normal s = Normal ("-$" ++ RefIntl.infinitySign))
      by (rewrite <- E; vm_compute; reflexivity).
    now injection Es.
Defined.

(** C6, as the specification has it, fails for an infinite amount: the
    text Infinity is a number for [parseFloat] and is not NaN, and its
    rendering, the currency sign and the infinity sign, has no digit after
    a decimal point. *)
Lemma C6_infinite_amount_counterexample :
  isNaN (RefIntl.parseFloat "Infinity") = false /\
  formatCurrency RefIntl.parseFloat RefIntl.format (ofString "Infinity") (Some "USD")
    = Normal ("$" ++ RefIntl.infinitySign) /\
  RefIntl.twoFractionDigits ("$" ++ RefIntl.infinitySign) = false.
Proof. repeat split; vm_compute; reflexivity. Qed.

(* ================================================================== *)
(** * Further properties                                               *)
(* ================================================================== *)

(** ** The client, stage by stage *)

Section ClientStages.

Variable getReceiptValidationPrompt : string.
Variable getPrompt : string.
Variable JSON_parse : string -> option json.
Variable nullReadMessage : string -> string.
Variable env : Env.

Local Abbreviation validate := (validateReceiptImage getReceiptValidationPrompt env).
Local Abbreviation stage2 :=
  (extractStage getPrompt JSON_parse nullReadMessage env).
Local Abbreviation extract :=
  (extractReceiptData getReceiptValidationPrompt getPrompt JSON_parse
     nullReadMessage env).
Local Abbreviation validationRequest :=
  (stageRequest getReceiptValidationPrompt).
Local Abbreviation extractionRequest := (stageRequest getPrompt).

(** The client before [initialize]. *)
Lemma extract_uninitialized
    (this : GeminiReceiptService) (file : File.t) (tr : list Event) :
  genAI this = None ->
  extract this file tr =
    (Normal (ApiResponse.mk false None
               (Some "Gemini service not initialized. Please provide API key.")),
     tr).
Proof.
  intros H. unfold extractReceiptData, tryCatch. now rewrite H.
Qed.

(** What the validation stage answers once the file is read and the model
    has replied: it passes exactly when the reply holds VALID_RECEIPT. *)
Lemma validate_verdict (this : GeminiReceiptService) (file : File.t)
    (tr : list Event) (key dataURL : string) (reply : option string) :
  genAI this = Some key ->
  readAsDataURL env tr file = Some dataURL ->
  generateContent env (tr ++ [ReadFile file])%list
    (validationRequest file dataURL) = Normal reply ->
  exists v,
    validate this file tr =
      (Normal v, (tr ++ [ReadFile file;
                         GenerateContent (validationRequest file dataURL)])%list) /\
    Validation.isValid v =
      match reply with
      | Some r => Js.includes r "VALID_RECEIPT"
      | None => false
      end.
Proof.
  intros Hkey Hread Hgen.
  unfold validateReceiptImage, tryCatch, bind, fileToBase64,
    models_generateContent.
  rewrite Hkey, Hread. unfold stageRequest in Hgen. rewrite Hgen.
  unfold stageRequest. rewrite <- app_assoc. cbn [app].
  destruct reply as [r|]; cbn [option_map].
  2:{ eexists. split; reflexivity. }
  rewrite <- (includes_trim r "V" "ALID_RECEIPT") by reflexivity.
  destruct (Js.trim r) as [|c t]; [eexists; split; reflexivity|].
  destruct (Js.includes (String c t) "VALID_RECEIPT");
    [eexists; split; reflexivity|].
  destruct (Js.includes (String c t) "NOT_RECEIPT");
    [eexists; split; reflexivity|].
  destruct (Js.includes (String c t) "UNCLEAR_IMAGE");
    eexists; split; reflexivity.
Qed.

Lemma quiet_ret {A} (a : A) : quiet (ret a).
Proof. intros tr c tr' [= _ <-]. reflexivity. Qed.

Lemma quiet_throw {A} (e : thrown) : quiet (@throw A e).
Proof. intros tr c tr' [= _ <-]. reflexivity. Qed.

Lemma quiet_bind {A B} (m : M A) (k : A -> M B) :
  quiet m -> (forall a, quiet (k a)) -> quiet (bind m k).
Proof.
  intros Hm Hk tr c tr'. unfold bind.
  destruct (m tr) as [[a|e] t1] eqn:E; pose proof (Hm _ _ _ E) as ->.
  - apply Hk.
  - now intros [= _ <-].
Qed.

Lemma quiet_getProp (v : json) (p : string) : quiet (getProp nullReadMessage v p).
Proof. destruct v; first [apply quiet_ret | apply quiet_throw]. Qed.

Lemma quiet_validateItems (arr : list json) :
  quiet (validateItems nullReadMessage arr).
Proof.
  induction arr as [|item rest IH]; [apply quiet_ret|].
  cbn [validateItems].
  repeat (apply quiet_bind; [apply quiet_getProp|intros ?];
          match goal with |- quiet (if ?c then _ else _) =>
            destruct c; [apply quiet_throw|] end).
  exact IH.
Qed.

Lemma quiet_mapM_toProduct (arr : list json) :
  quiet (mapM (toProduct nullReadMessage) arr).
Proof.
  induction arr as [|item rest IH]; [apply quiet_ret|].
  cbn [mapM]. apply quiet_bind.
  - unfold toProduct.
    repeat (apply quiet_bind; [apply quiet_getProp|intros ?]).
    apply quiet_ret.
  - intros b. apply quiet_bind; [exact IH|intros bs; apply quiet_ret].
Qed.

(** The trace of the extraction stage: the file read, and the request
    when the read succeeded. *)
Lemma stage2_trace (file : File.t) (tr : list Event) :
  (readAsDataURL env tr file = None ->
   snd (stage2 file tr) = (tr ++ [ReadFile file])%list) /\
  (forall dataURL,
     readAsDataURL env tr file = Some dataURL ->
     snd (stage2 file tr) =
       (tr ++ [ReadFile file;
               GenerateContent (extractionRequest file dataURL)])%list).
Proof.
  split; [intros Hread|intros dataURL Hread];
    unfold extractStage; unfold bind at 1; unfold fileToBase64; cbv beta;
    rewrite Hread; [reflexivity|].
  unfold bind at 1. unfold models_generateContent. cbv beta.
  fold (extractionRequest file dataURL).
  destruct (generateContent env _ _) as [reply|e];
    [|cbn; now rewrite <- app_assoc].
  match goal with |- snd (?m ?t) = _ =>
    assert (Hq : quiet m); [|destruct (m t) as [c t'] eqn:E;
                             rewrite (Hq _ _ _ E); cbn;
                             now rewrite <- app_assoc]
  end.
  destruct reply as [[|c0 r0]|]; try apply quiet_throw.
  apply quiet_bind.
  { destruct (JSON_parse _); [apply quiet_ret|apply quiet_throw]. }
  intros payload. apply quiet_bind; [apply quiet_getProp|intros items].
  destruct (negb (truthy items) || negb (Array_isArray items));
    [apply quiet_throw|].
  apply quiet_bind; [apply quiet_validateItems|intros _].
  repeat (apply quiet_bind; [apply quiet_getProp|intros ?]).
  apply quiet_bind; [apply quiet_mapM_toProduct|intros ?].
  apply quiet_ret.
Qed.

Lemma modelCalls_app (a b : list Event) :
  modelCalls (a ++ b)%list = (modelCalls a + modelCalls b)%nat.
Proof. unfold modelCalls. now rewrite filter_app, length_app. Qed.

(** [extractReceiptData] in terms of its two stages. *)
Lemma extract_by_stages (this : GeminiReceiptService) (file : File.t)
    (tr tr1 : list Event) (key : string) (v : Validation.t) :
  genAI this = Some key ->
  validate this file tr = (Normal v, tr1) ->
  extract this file tr =
    if Validation.isValid v then caught (stage2 file tr1)
    else
      (Normal (failure (match Validation.reason v with
                        | Some r => if Js.truthy r then r
                                    else "Invalid receipt image"
                        | None => "Invalid receipt image"
                        end)), tr1).
Proof.
  intros Hkey Hv. unfold extractReceiptData, tryCatch, bind, caught.
  rewrite Hkey, Hv. destruct (Validation.isValid v); cbn [negb]; [|reflexivity].
  now destruct (stage2 file tr1) as [[r|e] tr2].
Qed.

(** The validation stage when the reader or the model call fails. *)
Lemma validate_failure (this : GeminiReceiptService) (file : File.t)
    (tr : list Event) (key : string) :
  genAI this = Some key ->
  (readAsDataURL env tr file = None ->
   validate this file tr =
     (Normal (Validation.mk false
                (Some "Failed to validate image. Please try again.")),
      (tr ++ [ReadFile file])%list)) /\
  (forall dataURL e,
     readAsDataURL env tr file = Some dataURL ->
     generateContent env (tr ++ [ReadFile file])%list
       (validationRequest file dataURL) = Throw e ->
     validate this file tr =
       (Normal (Validation.mk false
                  (Some "Failed to validate image. Please try again.")),
        (tr ++ [ReadFile file;
                GenerateContent (validationRequest file dataURL)])%list)).
Proof.
  intros Hkey.
  split; [intros Hread|intros dataURL e Hread Hgen];
    unfold validateReceiptImage, tryCatch, bind, fileToBase64,
      models_generateContent;
    rewrite Hkey, Hread; [reflexivity|].
  unfold stageRequest in Hgen. rewrite Hgen.
  unfold ret, stageRequest. now rewrite <- app_assoc.
Qed.

(** The client when the validation stage fails. *)
Lemma extract_validation_failure
    (this : GeminiReceiptService) (file : File.t) (tr : list Event)
    (key : string) :
  genAI this = Some key ->
  (readAsDataURL env tr file = None ->
   extract this file tr =
     (Normal (ApiResponse.mk false None
                (Some "Failed to validate image. Please try again.")),
      (tr ++ [ReadFile file])%list)) /\
  (forall dataURL e,
     readAsDataURL env tr file = Some dataURL ->
     generateContent env (tr ++ [ReadFile file])%list
       (validationRequest file dataURL) = Throw e ->
     extract this file tr =
       (Normal (ApiResponse.mk false None
                  (Some "Failed to validate image. Please try again.")),
        (tr ++ [ReadFile file;
                GenerateContent (validationRequest file dataURL)])%list)).
Proof.
  intros Hkey. destruct (validate_failure this file tr key Hkey) as [H1 H2].
  split.
  - intros Hread. now rewrite (extract_by_stages _ _ _ _ _ _ Hkey (H1 Hread)).
  - intros dataURL e Hread Hgen.
    now rewrite (extract_by_stages _ _ _ _ _ _ Hkey (H2 _ _ Hread Hgen)).
Qed.

(** The client once the validation stage has its reply. *)
Lemma extract_after_verdict
    (this : GeminiReceiptService) (file : File.t) (tr : list Event)
    (key dataURL : string) (reply : option string) :
  genAI this = Some key ->
  readAsDataURL env tr file = Some dataURL ->
  generateContent env (tr ++ [ReadFile file])%list
    (validationRequest file dataURL) = Normal reply ->
  let tr1 := (tr ++ [ReadFile file;
                     GenerateContent (validationRequest file dataURL)])%list in
  let passes := match reply with
                | Some r => Js.includes r "VALID_RECEIPT"
                | None => false
                end in
  (passes = true -> extract this file tr = caught (stage2 file tr1)) /\
  (passes = false ->
   exists message,
     extract this file tr = (Normal (failure message), tr1) /\
     In message validationReasons).
Proof.
  intros Hkey Hread Hgen tr1 passes.
  destruct (validate_verdict this file tr key dataURL reply Hkey Hread Hgen)
    as (v & Hv & Hvalid).
  fold tr1 in Hv. fold passes in Hvalid.
  rewrite (extract_by_stages _ _ _ _ _ _ Hkey Hv), Hvalid.
  split; intros Hp; rewrite Hp; [reflexivity|].
  rewrite Hp in Hvalid.
  destruct (validate_reason _ JSON_parse nullReadMessage _ _ _ _ _ _ Hv Hvalid)
    as (r & -> & -> & Hin).
  now exists r.
Qed.

(** X1. One call of [extractReceiptData] makes at most two model calls, and
    the second one only after the file was read and the first reply held
    VALID_RECEIPT. *)
Theorem at_most_two_model_calls
    (this : GeminiReceiptService) (file : File.t) (tr : list Event) :
  (modelCalls (snd (extract this file tr)) <= modelCalls tr + 2)%nat /\
  (modelCalls (snd (extract this file tr)) = (modelCalls tr + 2)%nat ->
   exists dataURL reply,
     readAsDataURL env tr file = Some dataURL /\
     generateContent env (tr ++ [ReadFile file])%list
       (validationRequest file dataURL) = Normal (Some reply) /\
     Js.includes reply "VALID_RECEIPT" = true).
Proof.
  destruct (genAI this) as [key|] eqn:Hkey.
  2:{ rewrite (extract_uninitialized this file tr Hkey).
      cbn [snd]. split; lia. }
  destruct (readAsDataURL env tr file) as [dataURL|] eqn:Hread.
  2:{ rewrite (proj1 (extract_validation_failure
                        this file tr key Hkey) Hread).
      cbn [snd]. rewrite modelCalls_app. cbn. split; lia. }
  destruct (generateContent env (tr ++ [ReadFile file])%list
              (validationRequest file dataURL)) as [reply|e] eqn:Hgen.
  2:{ rewrite (proj2 (extract_validation_failure
                        this file tr key Hkey) _ _ Hread Hgen).
      cbn [snd]. rewrite modelCalls_app. cbn. split; lia. }
  destruct (extract_after_verdict
              this file tr key dataURL reply Hkey Hread Hgen) as [Hp Hf].
  destruct (match reply with
            | Some r => Js.includes r "VALID_RECEIPT"
            | None => false
            end) eqn:Hpass.
  - rewrite (Hp eq_refl).
    assert (E : forall c, snd (caught c) = snd c) by (intros [[r|e] t]; reflexivity).
    rewrite E. destruct (stage2_trace file
      (tr ++ [ReadFile file; GenerateContent (validationRequest file dataURL)])%list)
      as [Hn Hs].
    destruct (readAsDataURL env
      (tr ++ [ReadFile file; GenerateContent (validationRequest file dataURL)])%list
      file) as [d2|].
    + rewrite (Hs d2 eq_refl), !modelCalls_app. cbn. split; [lia|].
      intros _. destruct reply as [r|]; [|discriminate]. eauto.
    + rewrite (Hn eq_refl), !modelCalls_app. cbn. split; lia.
  - destruct (Hf eq_refl) as (m & -> & _). cbn [snd].
    rewrite modelCalls_app. cbn. split; lia.
Qed.

Lemma goodItem_not_null (item : json) : goodItem item = true -> item <> JNull.
Proof. destruct item; [discriminate|congruence..]. Qed.

Lemma validateItems_ok (arr : list json) (tr tr' : list Event) :
  validateItems nullReadMessage arr tr = (Normal tt, tr') ->
  Forall (fun item => goodItem item = true) arr.
Proof.
  revert tr. induction arr as [|item rest IH]; intros tr; [constructor|].
  cbn [validateItems]. unfold bind.
  destruct item as [| | | | |kvs] eqn:Ei; try discriminate;
    rewrite <- Ei;
    (assert (Hn : item <> JNull) by (subst item; discriminate));
    rewrite !(getProp_member nullReadMessage item _ Hn); unfold ret;
    (destruct (isString (member item "name")) eqn:E1; [|discriminate]);
    (destruct (isString (member item "price")) eqn:E2; [|discriminate]);
    (destruct (isString (member item "quantity")) eqn:E3; [|discriminate]);
    cbn [negb]; intros H; constructor; try exact (IH _ H);
    subst item; unfold goodItem, badItem; now rewrite E1, E2, E3.
Qed.

Lemma toProduct_ok (item : json) (tr : list Event) :
  item <> JNull ->
  toProduct nullReadMessage item tr = (Normal (legacyProduct item), tr).
Proof.
  intros H. unfold toProduct, bind.
  now rewrite !(getProp_member nullReadMessage item _ H).
Qed.

Lemma mapM_toProduct_ok (arr : list json) (tr : list Event) :
  Forall (fun item => goodItem item = true) arr ->
  mapM (toProduct nullReadMessage) arr tr = (Normal (map legacyProduct arr), tr).
Proof.
  induction 1 as [|item rest Hitem _ IH]; [reflexivity|].
  cbn [mapM map]. unfold bind at 1.
  rewrite (toProduct_ok item tr (goodItem_not_null _ Hitem)).
  unfold bind. now rewrite IH.
Qed.

(** A result of the extraction stage, field by field. *)
Lemma stage2_success (file : File.t) (tr tr' : list Event) (r : ApiResponse.t) :
  stage2 file tr = (Normal r, tr') ->
  exists dataURL reply members arr,
    readAsDataURL env tr file = Some dataURL /\
    generateContent env (tr ++ [ReadFile file])%list
      (extractionRequest file dataURL) = Normal (Some reply) /\
    JSON_parse (cleanResponseText reply) = Some (JObj members) /\
    assoc "items" members = Some (JArr arr) /\
    Forall (fun item => goodItem item = true) arr /\
    tr' = (tr ++ [ReadFile file;
                  GenerateContent (extractionRequest file dataURL)])%list /\
    r = ApiResponse.mk true
          (Some (ReceiptData.mk
                   ("receipt_" ++ Date_now env ++ "_" ++ Math_random_suffix env)
                   (orElse (assoc "storeName" members) JNull)
                   (orElse (assoc "address" members) JNull)
                   (orElse (assoc "phone" members) JNull)
                   (orElse (assoc "date" members) JNull)
                   arr
                   (orElse (assoc "total" members) JNull)
                   (orElse (assoc "tax" members) JNull)
                   (Date_toISOString env)
                   (File.name file)
                   (orElse (assoc "totalItems" members) JNull)
                   (orElse (assoc "currency" members) (JStr "USD"))
                   (map legacyProduct arr)
                   (orElse (assoc "total" members) (JNum (Finite 0 0)))
                   (Date_toISOString env)
                   (File.name file)))
          None.
Proof.
  intros H.
  pose proof (proj2 (stage2_trace file tr)) as Htrace.
  revert H.
  unfold extractStage, bind, fileToBase64, models_generateContent, stageRequest.
  destruct (readAsDataURL env tr file) as [dataURL|]; [|discriminate].
  specialize (Htrace dataURL eq_refl).
  destruct (generateContent env _ _) as [[reply|]|e] eqn:Hgen;
    [|discriminate|discriminate].
  destruct reply as [|c0 reply0] eqn:Hreply; [discriminate|].
  rewrite <- Hreply in *. clear Hreply c0 reply0.
  destruct (JSON_parse (cleanResponseText reply)) as [payload|] eqn:Hparse;
    [|discriminate].
  destruct payload as [| | | | |members]; try discriminate.
  unfold getProp, ret.
  destruct (assoc "items" members) as [v|] eqn:Hitems; [|discriminate].
  cbn beta iota.
  destruct (Array_isArray (Some v)) eqn:Harr;
    [|cbn [negb]; rewrite orb_true_r; discriminate].
  destruct v as [| | | |arr|]; try discriminate Harr.
  cbn [truthy negb orb elements].
  destruct (validateItems nullReadMessage arr _) as [[[]|e] tr2] eqn:Hval;
    [|discriminate].
  pose proof (validateItems_ok _ _ _ Hval) as Hgood.
  rewrite (mapM_toProduct_ok arr tr2 Hgood).
  intros H. injection H as <- Htr.
  exists dataURL, reply, members, arr.
  repeat split; try assumption.
  rewrite <- Htr.
  pose proof (quiet_validateItems arr _ _ _ Hval) as ->.
  unfold stageRequest. now rewrite <- app_assoc.
Qed.

Lemma validate_valid_inv (this : GeminiReceiptService) (file : File.t)
    (tr tr1 : list Event) (key : string) (v : Validation.t) :
  genAI this = Some key ->
  validate this file tr = (Normal v, tr1) ->
  Validation.isValid v = true ->
  exists dataURL reply,
    readAsDataURL env tr file = Some dataURL /\
    generateContent env (tr ++ [ReadFile file])%list
      (validationRequest file dataURL) = Normal (Some reply) /\
    Js.includes reply "VALID_RECEIPT" = true /\
    tr1 = (tr ++ [ReadFile file;
                  GenerateContent (validationRequest file dataURL)])%list.
Proof.
  intros Hkey Hv Hvalid.
  destruct (validate_failure this file tr key Hkey) as [Hn Ht].
  destruct (readAsDataURL env tr file) as [dataURL|] eqn:Hread.
  2:{ rewrite (Hn eq_refl) in Hv. injection Hv as <- _. discriminate Hvalid. }
  destruct (generateContent env (tr ++ [ReadFile file])%list
              (validationRequest file dataURL)) as [reply|e] eqn:Hgen.
  2:{ rewrite (Ht _ _ eq_refl Hgen) in Hv. injection Hv as <- _.
      discriminate Hvalid. }
  destruct (validate_verdict this file tr key dataURL reply Hkey Hread Hgen)
    as (v' & Hv' & Hvalid').
  rewrite Hv' in Hv. injection Hv as -> <-.
  rewrite Hvalid in Hvalid'.
  destruct reply as [r|]; [|discriminate].
  exists dataURL, r. auto.
Qed.

Lemma orElse_truthy (v : option json) (d : json) :
  truthy (Some d) = true -> truthy (Some (orElse v d)) = true.
Proof.
  intros Hd. unfold orElse. destruct v as [x|]; [|exact Hd].
  destruct (truthy (Some x)) eqn:E; [exact E|exact Hd].
Qed.

(** A success, as the caller sees it *)
Lemma extract_success (this : GeminiReceiptService) (file : File.t)
    (tr tr' : list Event) (r : ApiResponse.t) :
  extract this file tr = (Normal r, tr') ->
  ApiResponse.success r = true ->
  exists url1 reply1,
    readAsDataURL env tr file = Some url1 /\
    generateContent env (tr ++ [ReadFile file])%list
      (validationRequest file url1) = Normal (Some reply1) /\
    Js.includes reply1 "VALID_RECEIPT" = true /\
    stage2 file (tr ++ [ReadFile file;
                        GenerateContent (validationRequest file url1)])%list
      = (Normal r, tr').
Proof.
  intros H Hs.
  destruct (genAI this) as [key|] eqn:Hkey.
  2:{ rewrite (extract_uninitialized _ _ _ Hkey) in H.
      injection H as <- _. discriminate Hs. }
  destruct (validate_returns getReceiptValidationPrompt env this file tr)
    as (v & tr1 & Hv).
  rewrite (extract_by_stages _ _ _ _ _ _ Hkey Hv) in H.
  destruct (Validation.isValid v) eqn:Hvalid.
  2:{ injection H as <- _. discriminate Hs. }
  destruct (validate_valid_inv _ _ _ _ _ _ Hkey Hv Hvalid)
    as (url1 & reply1 & Hread & Hgen & Hinc & ->).
  exists url1, reply1. repeat split; try assumption.
  destruct (stage2 file _) as [[r2|e] t2]; cbn in H.
  - exact H.
  - injection H as <- _. discriminate Hs.
Qed.

(** X2. A success costs two reads of the file and two requests, in this
    order, and the record it returns takes its identity from the file and
    the clock, not from the reply: the two file names are the name of the
    file, the two dates are the time of the call. Its currency is never
    empty: it is the currency of the parsed reply when that is truthy,
    and USD when the reply gives none. *)
Theorem success_trace_and_identity_fields
    (this : GeminiReceiptService) (file : File.t) (tr tr' : list Event)
    (r : ApiResponse.t) :
  extract this file tr = (Normal r, tr') ->
  ApiResponse.success r = true ->
  exists d url1 url2 reply members,
    ApiResponse.data r = Some d /\
    ApiResponse.error r = None /\
    tr' = (tr ++ [ReadFile file; GenerateContent (validationRequest file url1);
                  ReadFile file; GenerateContent (extractionRequest file url2)])%list /\
    ReceiptData.fileName d = File.name file /\
    ReceiptData.file_name d = File.name file /\
    ReceiptData.timestamp d = Date_toISOString env /\
    ReceiptData.extraction_date d = Date_toISOString env /\
    ReceiptData.id d = "receipt_" ++ Date_now env ++ "_" ++ Math_random_suffix env /\
    generateContent env
      (tr ++ [ReadFile file; GenerateContent (validationRequest file url1);
              ReadFile file])%list
      (extractionRequest file url2) = Normal (Some reply) /\
    JSON_parse (cleanResponseText reply) = Some (JObj members) /\
    truthy (Some (ReceiptData.currency d)) = true /\
    (truthy (assoc "currency" members) = true ->
     Some (ReceiptData.currency d) = assoc "currency" members) /\
    (truthy (assoc "currency" members) = false ->
     ReceiptData.currency d = JStr "USD").
Proof.
  intros H Hs.
  destruct (extract_success _ _ _ _ _ H Hs) as (url1 & reply1 & _ & _ & _ & H2).
  destruct (stage2_success _ _ _ _ H2)
    as (url2 & reply & members & arr & _ & Hgen & Hparse & _ & _ & -> & ->).
  rewrite <- app_assoc in Hgen. cbn [app] in Hgen.
  exists (ReceiptData.mk
            ("receipt_" ++ Date_now env ++ "_" ++ Math_random_suffix env)
            (orElse (assoc "storeName" members) JNull)
            (orElse (assoc "address" members) JNull)
            (orElse (assoc "phone" members) JNull)
            (orElse (assoc "date" members) JNull)
            arr
            (orElse (assoc "total" members) JNull)
            (orElse (assoc "tax" members) JNull)
            (Date_toISOString env)
            (File.name file)
            (orElse (assoc "totalItems" members) JNull)
            (orElse (assoc "currency" members) (JStr "USD"))
            (map legacyProduct arr)
            (orElse (assoc "total" members) (JNum (Finite 0 0)))
            (Date_toISOString env)
            (File.name file)),
    url1, url2, reply, members.
  cbn [ApiResponse.data ApiResponse.error ReceiptData.fileName
       ReceiptData.file_name ReceiptData.timestamp ReceiptData.extraction_date
       ReceiptData.id ReceiptData.currency].
  split; [reflexivity|]. split; [reflexivity|].
  split; [now rewrite <- app_assoc|].
  do 5 (split; [reflexivity|]).
  split; [exact Hgen|]. split; [exact Hparse|].
  split; [now apply orElse_truthy|].
  unfold orElse. split; intros Ht.
  - destruct (assoc "currency" members) as [v|]; [|discriminate Ht].
    now rewrite Ht.
  - destruct (assoc "currency" members) as [v|]; [|reflexivity].
    now rewrite Ht.
Qed.

(** X3. Every item of a returned record has passed the check of lines
    300-306: it is not null, and its name, price and quantity are
    strings. The legacy products mirror the items one for one, the total
    of a product being the price of its item. *)
Theorem success_items_are_checked_and_mirrored
    (this : GeminiReceiptService) (file : File.t) (tr tr' : list Event)
    (r : ApiResponse.t) :
  extract this file tr = (Normal r, tr') ->
  ApiResponse.success r = true ->
  exists d,
    ApiResponse.data r = Some d /\
    Forall (fun item =>
              item <> JNull /\
              isString (member item "name") = true /\
              isString (member item "price") = true /\
              isString (member item "quantity") = true)
           (ReceiptData.items d) /\
    ReceiptData.products d = map legacyProduct (ReceiptData.items d) /\
    Forall (fun p => Product.total p = Product.price p) (ReceiptData.products d).
Proof.
  intros H Hs.
  destruct (extract_success _ _ _ _ _ H Hs) as (url1 & reply1 & _ & _ & _ & H2).
  destruct (stage2_success _ _ _ _ H2)
    as (url2 & reply & members & arr & _ & _ & _ & _ & Hgood & _ & ->).
  eexists. cbn. split; [reflexivity|]. split; [|split; [reflexivity|]].
  - eapply Forall_impl; [|exact Hgood].
    intros item Hi. split; [now apply goodItem_not_null|].
    destruct item; try discriminate Hi;
      unfold goodItem, badItem in Hi;
      apply negb_true_iff in Hi;
      apply orb_false_iff in Hi as [Hi H3];
      apply orb_false_iff in Hi as [H1 H2'];
      apply negb_false_iff in H1, H2', H3; auto.
  - apply Forall_forall. intros p Hp. apply in_map_iff in Hp as (item & <- & _).
    reflexivity.
Qed.

(** The failures of the extraction stage before the structure check. *)
Lemma stage2_early_failures (file : File.t) (tr : list Event) :
  (readAsDataURL env tr file = None ->
   stage2 file tr = (Throw NonError, (tr ++ [ReadFile file])%list)) /\
  (forall url,
     readAsDataURL env tr file = Some url ->
     let tr2 := (tr ++ [ReadFile file;
                        GenerateContent (extractionRequest file url)])%list in
     (forall e,
        generateContent env (tr ++ [ReadFile file])%list
          (extractionRequest file url) = Throw e ->
        stage2 file tr = (Throw e, tr2)) /\
     (forall reply,
        generateContent env (tr ++ [ReadFile file])%list
          (extractionRequest file url) = Normal reply ->
        reply = None \/ reply = Some "" ->
        stage2 file tr =
          (Throw (JsError "No text content received from AI response"), tr2)) /\
     (forall reply,
        generateContent env (tr ++ [ReadFile file])%list
          (extractionRequest file url) = Normal (Some reply) ->
        reply <> "" ->
        JSON_parse (cleanResponseText reply) = None ->
        stage2 file tr =
          (Throw (JsError "Failed to parse AI response as JSON"), tr2))).
Proof.
  split; [intros Hread|intros url Hread tr2; repeat split];
    [|intros e Hgen|intros reply Hgen Hr|intros reply Hgen Hne Hparse];
    unfold extractStage, bind, fileToBase64, models_generateContent;
    rewrite Hread; [reflexivity|..];
    unfold stageRequest in Hgen; rewrite Hgen; subst tr2;
    unfold stageRequest; rewrite <- app_assoc; cbn [app].
  - reflexivity.
  - now destruct Hr as [-> | ->].
  - destruct reply; [now elim Hne|]. now rewrite Hparse.
Qed.

(** X4. Once the validation has passed, each failure of the extraction stage
    has its message: the reader failing a second time is an unknown
    error; an [Error] of the model call is passed on with its own message
    (the validation stage hides it); a reply without text and a reply
    that is no JSON have a fixed message each, the parser's own message
    being dropped. *)
Theorem extraction_stage_errors
    (this : GeminiReceiptService) (file : File.t) (tr : list Event)
    (key url1 reply1 : string) :
  genAI this = Some key ->
  readAsDataURL env tr file = Some url1 ->
  generateContent env (tr ++ [ReadFile file])%list
    (validationRequest file url1) = Normal (Some reply1) ->
  Js.includes reply1 "VALID_RECEIPT" = true ->
  let tr1 := (tr ++ [ReadFile file;
                     GenerateContent (validationRequest file url1)])%list in
  (readAsDataURL env tr1 file = None ->
   extract this file tr =
     (Normal (failure "Unknown error occurred during extraction"),
      (tr1 ++ [ReadFile file])%list)) /\
  (forall url2,
     readAsDataURL env tr1 file = Some url2 ->
     let tr2 := (tr1 ++ [ReadFile file;
                         GenerateContent (extractionRequest file url2)])%list in
     (forall message,
        generateContent env (tr1 ++ [ReadFile file])%list
          (extractionRequest file url2) = Throw (JsError message) ->
        extract this file tr = (Normal (failure message), tr2)) /\
     (generateContent env (tr1 ++ [ReadFile file])%list
        (extractionRequest file url2) = Throw NonError ->
      extract this file tr =
        (Normal (failure "Unknown error occurred during extraction"), tr2)) /\
     (forall reply,
        generateContent env (tr1 ++ [ReadFile file])%list
          (extractionRequest file url2) = Normal reply ->
        reply = None \/ reply = Some "" ->
        extract this file tr =
          (Normal (failure "No text content received from AI response"), tr2)) /\
     (forall reply,
        generateContent env (tr1 ++ [ReadFile file])%list
          (extractionRequest file url2) = Normal (Some reply) ->
        reply <> "" ->
        JSON_parse (cleanResponseText reply) = None ->
        extract this file tr =
          (Normal (failure "Failed to parse AI response as JSON"), tr2))).
Proof.
  intros Hkey Hread Hgen Hinc tr1.
  destruct (extract_after_verdict
              this file tr key url1 (Some reply1) Hkey Hread Hgen) as [Hp _].
  specialize (Hp Hinc). fold tr1 in Hp. rewrite Hp.
  destruct (stage2_early_failures file tr1) as [Hn Hs].
  split.
  - intros H. now rewrite (Hn H).
  - intros url2 H tr2. destruct (Hs url2 H) as (Ht & Hnone & Hparse).
    repeat split.
    + intros message Hg. now rewrite (Ht _ Hg).
    + intros Hg. now rewrite (Ht _ Hg).
    + intros reply Hg Hr. now rewrite (Hnone _ Hg Hr).
    + intros reply Hg Hne Hpa. now rewrite (Hparse _ Hg Hne Hpa).
Qed.

(** X5. Without [initialize] nothing outside the client happens: no file is
    read and no request is made, and the caller is told to provide the
    key. *)
Theorem uninitialized_service_fails_without_any_call
    (this : GeminiReceiptService) (file : File.t) (tr : list Event) :
  genAI this = None ->
  extract this file tr =
    (Normal (failure "Gemini service not initialized. Please provide API key."),
     tr).
Proof. exact (extract_uninitialized this file tr). Qed.

(** X6. A failure of the validation stage, whether the reader failed or the
    model call threw, comes back as one and the same message: the error
    of the model is not passed on, and no extraction request follows. A
    reader that fails is never followed by a request at all. *)
Theorem validation_stage_errors_give_one_message
    (this : GeminiReceiptService) (file : File.t) (tr : list Event)
    (key : string) :
  genAI this = Some key ->
  (readAsDataURL env tr file = None ->
   extract this file tr =
     (Normal (failure "Failed to validate image. Please try again."),
      (tr ++ [ReadFile file])%list)) /\
  (forall dataURL e,
     readAsDataURL env tr file = Some dataURL ->
     generateContent env (tr ++ [ReadFile file])%list
       (validationRequest file dataURL) = Throw e ->
     extract this file tr =
       (Normal (failure "Failed to validate image. Please try again."),
        (tr ++ [ReadFile file;
                GenerateContent (validationRequest file dataURL)])%list)).
Proof. exact (extract_validation_failure this file tr key). Qed.

(** X7. The validation passes on every reply that holds VALID_RECEIPT, also
    inside another word or beside NOT_RECEIPT, and on no other reply: the
    extraction stage is entered exactly then, and otherwise the call ends
    after the validation request with one of the reasons of the stage. *)
Theorem validation_passes_exactly_on_VALID_RECEIPT
    (this : GeminiReceiptService) (file : File.t) (tr : list Event)
    (key dataURL : string) (reply : option string) :
  genAI this = Some key ->
  readAsDataURL env tr file = Some dataURL ->
  generateContent env (tr ++ [ReadFile file])%list
    (validationRequest file dataURL) = Normal reply ->
  let tr1 := (tr ++ [ReadFile file;
                     GenerateContent (validationRequest file dataURL)])%list in
  let passes := match reply with
                | Some r => Js.includes r "VALID_RECEIPT"
                | None => false
                end in
  (passes = true -> extract this file tr = caught (stage2 file tr1)) /\
  (passes = false ->
   exists message,
     extract this file tr = (Normal (failure message), tr1) /\
     In message validationReasons).
Proof. exact (extract_after_verdict this file tr key dataURL reply). Qed.

(** X8. Away from [null], a reply that parses but breaks the structure is
    answered by one of two messages, after both requests were made: a
    payload whose [items] is no array (missing, or of another type, or
    the payload no object at all) by the first, an array with an item
    whose name, price or quantity is no string by the second. *)
Theorem schema_violations_away_from_null
    (this : GeminiReceiptService) (file : File.t) (tr : list Event)
    (key url1 reply1 url2 reply : string) (payload : json) :
  genAI this = Some key ->
  readAsDataURL env tr file = Some url1 ->
  generateContent env (tr ++ [ReadFile file])%list
    (validationRequest file url1) = Normal (Some reply1) ->
  Js.includes reply1 "VALID_RECEIPT" = true ->
  let tr1 := (tr ++ [ReadFile file;
                     GenerateContent (validationRequest file url1)])%list in
  let tr2 := (tr1 ++ [ReadFile file;
                      GenerateContent (extractionRequest file url2)])%list in
  readAsDataURL env tr1 file = Some url2 ->
  generateContent env (tr1 ++ [ReadFile file])%list
    (extractionRequest file url2) = Normal (Some reply) ->
  reply <> "" ->
  JSON_parse (cleanResponseText reply) = Some payload ->
  payload <> JNull ->
  (Array_isArray (member payload "items") = false ->
   extract this file tr = (Normal (failure missingItemsMessage), tr2)) /\
  (forall arr,
     member payload "items" = Some (JArr arr) ->
     Forall (fun item => item <> JNull) arr ->
     Exists (fun item => badItem item = true) arr ->
     extract this file tr = (Normal (failure invalidItemMessage), tr2)).
Proof.
  intros Hkey Hread Hgen Hinc tr1 tr2 Hread2 Hgen2 Hne Hparse Hnull.
  destruct (extract_after_verdict this file tr key url1 (Some reply1)
              Hkey Hread Hgen) as [Hp _].
  specialize (Hp Hinc). fold tr1 in Hp. rewrite Hp.
  pose proof (proj2 (stage2_trace file tr1) url2 Hread2) as Htrace.
  fold tr2 in Htrace.
  destruct (stage2_schema_violation getPrompt JSON_parse nullReadMessage env
              file tr1 url2 reply payload Hread2 Hgen2 Hne Hparse Hnull)
    as [Hmissing Hbad].
  destruct (stage2 file tr1) as [c t]. cbn [fst snd] in *. subst t.
  split.
  - intros H. now rewrite (Hmissing H).
  - intros arr Hitems Hall Hex. now rewrite (Hbad arr Hitems Hall Hex).
Qed.

(** What a call returns is either a record without a message or a message
    without a record. *)
Lemma extract_result_shape
    (this : GeminiReceiptService) (file : File.t) (tr : list Event) :
  exists r tr',
    extract this file tr = (Normal r, tr') /\
    ((ApiResponse.success r = true /\
      (exists d, ApiResponse.data r = Some d) /\
      ApiResponse.error r = None) \/
     (ApiResponse.success r = false /\
      ApiResponse.data r = None /\
      exists message, ApiResponse.error r = Some message)).
Proof.
  destruct (genAI this) as [key|] eqn:Hkey.
  2:{ rewrite (extract_uninitialized this file tr Hkey).
      do 2 eexists. split; [reflexivity|]. right. cbn. eauto. }
  destruct (validate_returns getReceiptValidationPrompt env this file tr)
    as (v & tr1 & Hv).
  rewrite (extract_by_stages _ _ _ _ _ _ Hkey Hv).
  destruct (Validation.isValid v).
  2:{ do 2 eexists. split; [reflexivity|]. right. cbn. eauto. }
  destruct (stage2 file tr1) as [[r|e] tr2] eqn:H2; cbn [caught].
  - destruct (stage2_success _ _ _ _ H2)
      as (url2 & reply & members & arr & _ & _ & _ & _ & _ & _ & ->).
    do 2 eexists. split; [reflexivity|]. left. cbn. eauto.
  - do 2 eexists. split; [reflexivity|]. right. cbn. eauto.
Qed.

End ClientStages.

(** The theorems of the section on scripted worlds. *)

Lemma uninitialized_service_witness :
  genAI (mkService None) = None /\
  runIn (scriptedEnv (Some "VALID_RECEIPT") (Some coffeeReply)) (mkService None) =
    (Normal (failure "Gemini service not initialized. Please provide API key."),
     []).
Proof.
  split; [reflexivity|].
  exact (uninitialized_service_fails_without_any_call
           validationPromptLine extractionPromptLine RefJSON.parse
           v8NullReadMessage
           (scriptedEnv (Some "VALID_RECEIPT") (Some coffeeReply))
           (mkService None) receiptPng [] eq_refl).
Defined.

Lemma validation_stage_errors_witness :
  runIn brokenReaderEnv (mkService (Some "key")) =
    (Normal (failure "Failed to validate image. Please try again."),
     [ReadFile receiptPng]) /\
  runIn (throwingModelEnv "429 Too Many Requests") (mkService (Some "key")) =
    (Normal (failure "Failed to validate image. Please try again."),
     [ReadFile receiptPng;
      GenerateContent (stageRequest validationPromptLine receiptPng pngDataURL)]).
Proof.
  split.
  - exact (proj1 (validation_stage_errors_give_one_message
                    validationPromptLine extractionPromptLine RefJSON.parse
                    v8NullReadMessage brokenReaderEnv
                    (mkService (Some "key")) receiptPng [] "key" eq_refl)
                 eq_refl).
  - exact (proj2 (validation_stage_errors_give_one_message
                    validationPromptLine extractionPromptLine RefJSON.parse
                    v8NullReadMessage (throwingModelEnv "429 Too Many Requests")
                    (mkService (Some "key")) receiptPng [] "key" eq_refl)
                 pngDataURL (JsError "429 Too Many Requests") eq_refl eq_refl).
Defined.

Lemma validation_passes_witness :
  runIn (scriptedEnv (Some "INVALID_RECEIPT") (Some coffeeReply))
        (mkService (Some "key")) =
    caught (extractStage extractionPromptLine RefJSON.parse v8NullReadMessage
              (scriptedEnv (Some "INVALID_RECEIPT") (Some coffeeReply))
              receiptPng
              [ReadFile receiptPng;
               GenerateContent
                 (stageRequest validationPromptLine receiptPng pngDataURL)]) /\
  exists message,
    runIn (scriptedEnv (Some "This is a menu.") (Some coffeeReply))
          (mkService (Some "key")) =
      (Normal (failure message),
       [ReadFile receiptPng;
        GenerateContent
          (stageRequest validationPromptLine receiptPng pngDataURL)]) /\
    In message validationReasons.
Proof.
  split.
  - exact (proj1 (validation_passes_exactly_on_VALID_RECEIPT
                    validationPromptLine extractionPromptLine RefJSON.parse
                    v8NullReadMessage
                    (scriptedEnv (Some "INVALID_RECEIPT") (Some coffeeReply))
                    (mkService (Some "key")) receiptPng [] "key" pngDataURL
                    (Some "INVALID_RECEIPT") eq_refl eq_refl eq_refl)
                 eq_refl).
  - exact (proj2 (validation_passes_exactly_on_VALID_RECEIPT
                    validationPromptLine extractionPromptLine RefJSON.parse
                    v8NullReadMessage
                    (scriptedEnv (Some "This is a menu.") (Some coffeeReply))
                    (mkService (Some "key")) receiptPng [] "key" pngDataURL
                    (Some "This is a menu.") eq_refl eq_refl eq_refl)
                 eq_refl).
Defined.

Lemma at_most_two_model_calls_witness :
  modelCalls (snd (runIn (scriptedEnv (Some "VALID_RECEIPT") (Some coffeeReply))
                         (mkService (Some "key")))) = 2%nat /\
  exists dataURL reply,
    readAsDataURL (scriptedEnv (Some "VALID_RECEIPT") (Some coffeeReply))
      [] receiptPng = Some dataURL /\
    generateContent (scriptedEnv (Some "VALID_RECEIPT") (Some coffeeReply))
      [ReadFile receiptPng]
      (stageRequest validationPromptLine receiptPng dataURL) =
      Normal (Some reply) /\
    Js.includes reply "VALID_RECEIPT" = true.
Proof.
  split; [vm_compute; reflexivity|].
  exact (proj2 (at_most_two_model_calls
                  validationPromptLine extractionPromptLine RefJSON.parse
                  v8NullReadMessage
                  (scriptedEnv (Some "VALID_RECEIPT") (Some coffeeReply))
                  (mkService (Some "key")) receiptPng [])
               ltac:(vm_compute; reflexivity)).
Defined.

Lemma success_trace_and_identity_witness :
  exists r tr',
    runIn (scriptedEnv (Some "VALID_RECEIPT") (Some teaReply))
          (mkService (Some "key")) = (Normal r, tr') /\
    ApiResponse.success r = true /\
    exists d,
      ApiResponse.data r = Some d /\
      ApiResponse.error r = None /\
      tr' = bothStages /\
      ReceiptData.fileName d = "receipt.png" /\
      ReceiptData.file_name d = "receipt.png" /\
      ReceiptData.timestamp d = "2023-11-14T22:13:20.000Z" /\
      ReceiptData.extraction_date d = "2023-11-14T22:13:20.000Z" /\
      ReceiptData.id d = "receipt_1700000000000_k3j9x0q2a" /\
      ReceiptData.currency d = JStr "USD".
Proof.
  do 2 eexists. split; [vm_compute; reflexivity|]. split; [reflexivity|].
  destruct (success_trace_and_identity_fields
              validationPromptLine extractionPromptLine RefJSON.parse
              v8NullReadMessage
              (scriptedEnv (Some "VALID_RECEIPT") (Some teaReply))
              (mkService (Some "key")) receiptPng [] _ _
              ltac:(vm_compute; reflexivity) eq_refl)
    as (d & url1 & url2 & reply & members & Hd & He & _ & Hf1 & Hf2 & Ht1 & Ht2
        & Hid & Hgen & Hparse & _ & _ & Husd).
  exists d. split; [exact Hd|]. split; [exact He|]. split; [reflexivity|].
  split; [exact Hf1|]. split; [exact Hf2|]. split; [exact Ht1|].
  split; [exact Ht2|]. split; [exact Hid|].
  apply Husd.
  cbn in Hgen. injection Hgen as <-.
  vm_compute in Hparse. injection Hparse as <-. reflexivity.
Defined.

Lemma success_items_witness :
  exists r tr',
    runIn (scriptedEnv (Some "VALID_RECEIPT") (Some coffeeReply))
          (mkService (Some "key")) = (Normal r, tr') /\
    ApiResponse.success r = true /\
    exists d,
      ApiResponse.data r = Some d /\
      Forall (fun item =>
                item <> JNull /\
                isString (member item "name") = true /\
                isString (member item "price") = true /\
                isString (member item "quantity") = true)
             (ReceiptData.items d) /\
      ReceiptData.products d = map legacyProduct (ReceiptData.items d) /\
      Forall (fun p => Product.total p = Product.price p) (ReceiptData.products d).
Proof.
  do 2 eexists. split; [vm_compute; reflexivity|]. split; [reflexivity|].
  exact (success_items_are_checked_and_mirrored
           validationPromptLine extractionPromptLine RefJSON.parse
           v8NullReadMessage
           (scriptedEnv (Some "VALID_RECEIPT") (Some coffeeReply))
           (mkService (Some "key")) receiptPng [] _ _
           ltac:(vm_compute; reflexivity) eq_refl).
Defined.

Lemma extraction_stage_errors_witness :
  runIn secondReadFailsEnv (mkService (Some "key")) =
    (Normal (failure "Unknown error occurred during extraction"),
     [ReadFile receiptPng;
      GenerateContent (stageRequest validationPromptLine receiptPng pngDataURL);
      ReadFile receiptPng]) /\
  runIn (secondCallThrowsEnv (JsError "503 Service Unavailable"))
        (mkService (Some "key")) =
    (Normal (failure "503 Service Unavailable"), bothStages) /\
  runIn (secondCallThrowsEnv NonError) (mkService (Some "key")) =
    (Normal (failure "Unknown error occurred during extraction"), bothStages) /\
  runIn (scriptedEnv (Some "VALID_RECEIPT") (Some "")) (mkService (Some "key")) =
    (Normal (failure "No text content received from AI response"), bothStages) /\
  runIn (scriptedEnv (Some "VALID_RECEIPT") (Some "I cannot read this image."))
        (mkService (Some "key")) =
    (Normal (failure "Failed to parse AI response as JSON"), bothStages).
Proof.
  pose (T := fun env =>
    extraction_stage_errors validationPromptLine extractionPromptLine
      RefJSON.parse v8NullReadMessage env (mkService (Some "key")) receiptPng []
      "key" pngDataURL "VALID_RECEIPT" eq_refl).
  split; [|split; [|split; [|split]]].
  - exact (proj1 (T secondReadFailsEnv eq_refl eq_refl eq_refl) eq_refl).
  - exact (proj1 (proj2 (T (secondCallThrowsEnv (JsError "503 Service Unavailable"))
                           eq_refl eq_refl eq_refl) pngDataURL eq_refl)
                 "503 Service Unavailable" eq_refl).
  - exact (proj1 (proj2 (proj2 (T (secondCallThrowsEnv NonError)
                                  eq_refl eq_refl eq_refl) pngDataURL eq_refl))
                 eq_refl).
  - exact (proj1 (proj2 (proj2 (proj2 (T (scriptedEnv (Some "VALID_RECEIPT") (Some ""))
                                         eq_refl eq_refl eq_refl)
                                      pngDataURL eq_refl)))
                 (Some "") eq_refl (or_intror eq_refl)).
  - refine (proj2 (proj2 (proj2 (proj2
              (T (scriptedEnv (Some "VALID_RECEIPT")
                    (Some "I cannot read this image."))
                 eq_refl eq_refl eq_refl)
              pngDataURL eq_refl)))
            "I cannot read this image." eq_refl _ _).
    + discriminate.
    + vm_compute. reflexivity.
Defined.

Lemma schema_violations_witness :
  runIn (scriptedEnv (Some "VALID_RECEIPT") (Some itemsNotAnArrayReply))
        (mkService (Some "key")) =
    (Normal (failure missingItemsMessage), bothStages) /\
  runIn (scriptedEnv (Some "VALID_RECEIPT") (Some numericPriceReply))
        (mkService (Some "key")) =
    (Normal (failure invalidItemMessage), bothStages).
Proof.
  pose (T := fun reply =>
    schema_violations_away_from_null validationPromptLine extractionPromptLine
      RefJSON.parse v8NullReadMessage
      (scriptedEnv (Some "VALID_RECEIPT") (Some reply))
      (mkService (Some "key")) receiptPng []
      "key" pngDataURL "VALID_RECEIPT" pngDataURL reply).
  split.
  - refine (proj1 (T itemsNotAnArrayReply
                     (JObj [("items", JStr "none"); ("storeName", JStr "Cafe")])
                     eq_refl eq_refl eq_refl eq_refl eq_refl eq_refl _ _ _)
                  eq_refl).
    + discriminate.
    + vm_compute. reflexivity.
    + discriminate.
  - refine (proj2 (T numericPriceReply
                     (JObj [("items",
                             JArr [JObj [("price", JNum (Finite 6 0));
                                         ("quantity", JStr "2");
                                         ("name", JStr "Coffee")]])])
                     eq_refl eq_refl eq_refl eq_refl eq_refl eq_refl _ _ _)
                  _ eq_refl _ _).
    + discriminate.
    + vm_compute. reflexivity.
    + discriminate.
    + constructor; [discriminate|constructor].
    + constructor. reflexivity.
Defined.

(** ** The key test *)

Lemma truthy_nonempty (s : string) : Js.truthy s = true <-> s <> "".
Proof. destruct s; split; intros H; try discriminate; try reflexivity. now elim H. Qed.

Section TestApiKeyFacts.

Variable generateText : string -> TextRequest.t -> completion (option string).

Local Abbreviation test := (testApiKey generateText).
Local Abbreviation thunk := (testApiKeyThunk generateText).

Lemma initialize_nonempty (apiKey : string) :
  apiKey <> "" -> initialize apiKey = Normal (mkService (Some apiKey)).
Proof. intros H. unfold initialize. now destruct apiKey. Qed.

(** What the test computes. *)
Lemma testApiKey_value (this : GeminiReceiptService) (apiKey : string) :
  test this apiKey =
    (Normal (Js.truthy apiKey &&
             match generateText apiKey testRequest with
             | Normal (Some t) => Js.truthy t
             | _ => false
             end),
     if Js.truthy apiKey then mkService (Some apiKey) else this,
     if Js.truthy apiKey then [(apiKey, testRequest)] else []).
Proof.
  unfold testApiKey, testApiKey_body, initialize.
  destruct apiKey as [|c k]; [reflexivity|]. cbn [Js.truthy negb andb genAI].
  destruct (generateText _ _) as [[t|]|e]; try reflexivity.
  destruct t as [|c' t']; [reflexivity|].
  cbn [Js.truthy negb String.length Nat.ltb Nat.leb]. now rewrite orb_true_r.
Qed.

(** X9. The test never throws, and it passes exactly when the key is not
    empty and the model, called once with that key, replies with a text
    that is not empty. What the text says does not matter: the search for
    OK decides nothing. *)
Theorem testApiKey_passes_on_any_reply_text
    (this : GeminiReceiptService) (apiKey : string) :
  exists isValid,
    fst (fst (test this apiKey)) = Normal isValid /\
    (isValid = true <->
     apiKey <> "" /\
     exists t, generateText apiKey testRequest = Normal (Some t) /\ t <> "").
Proof.
  rewrite testApiKey_value. eexists. split; [reflexivity|].
  rewrite andb_true_iff, truthy_nonempty.
  split; intros [Hk Ht]; (split; [exact Hk|]).
  - destruct (generateText apiKey testRequest) as [[t|]|e]; try discriminate.
    exists t. split; [reflexivity|]. now apply truthy_nonempty.
  - destruct Ht as (t & -> & Ht). now apply truthy_nonempty.
Qed.

(** X10. Testing a key puts it in use: whenever the key is not empty the
    service leaves the test with a handle made of that key, also when the
    test fails, and the one request went out under that key. An empty key
    changes nothing and calls nothing. *)
Theorem testApiKey_leaves_the_tested_key_in_use
    (this : GeminiReceiptService) (apiKey : string) :
  (apiKey = "" -> test this apiKey = (Normal false, this, [])) /\
  (apiKey <> "" ->
   snd (fst (test this apiKey)) = mkService (Some apiKey) /\
   snd (test this apiKey) = [(apiKey, testRequest)]).
Proof.
  rewrite testApiKey_value. split.
  - intros ->. reflexivity.
  - intros H. apply truthy_nonempty in H. now rewrite H.
Qed.

(** X11. A key test ends in [fulfilled] when the test passes and in
    [rejected] otherwise, always with the same message: the fallback
    text of line 84 is never used. In the store it shows in the loading
    flag and the error only; an error of before is erased, and the
    records, the progress and the persisted list stay as they were. *)
Theorem key_test_touches_only_loading_and_error
    (st : Store) (service : GeminiReceiptService) (apiKey : string) :
  let passes :=
    Js.truthy apiKey &&
    match generateText apiKey testRequest with
    | Normal (Some t) => Js.truthy t
    | _ => false
    end in
  let actions := fst (fst (thunk service apiKey)) in
  let st' := dispatchAll st actions in
  actions =
    [testApiKey_pending;
     if passes then testApiKey_fulfilled
     else testApiKey_rejected (Some "Invalid API key or connection failed")] /\
  isLoading (state st') = false /\
  error (state st') =
    (if passes then None else Some "Invalid API key or connection failed") /\
  isProcessing (state st') = isProcessing (state st) /\
  data (state st') = data (state st) /\
  currentExtraction (state st') = currentExtraction (state st) /\
  progress (state st') = progress (state st) /\
  history (state st') = history (state st) /\
  saved st' = saved st.
Proof.
  intros passes actions st'. subst st' actions.
  unfold testApiKeyThunk, testApiKey_payloadCreator.
  rewrite testApiKey_value. fold passes. cbn [fst snd].
  destruct passes; cbn; repeat split; reflexivity.
Qed.

End TestApiKeyFacts.

(** ** The extraction thunk and the store *)

Section AttemptFacts.

Variable getReceiptValidationPrompt : string.
Variable getPrompt : string.
Variable JSON_parse : string -> option json.
Variable nullReadMessage : string -> string.
Variable env : Env.

Local Abbreviation extract :=
  (extractReceiptData getReceiptValidationPrompt getPrompt JSON_parse
     nullReadMessage env).
Local Abbreviation thunk :=
  (extractReceiptDataThunk getReceiptValidationPrompt getPrompt JSON_parse
     nullReadMessage env).

(** X12. An attempt without a key ends where [initialize] throws: before the
    first progress update, with the service as it was and nothing read or
    requested; the message is the one of [initialize]. *)
Theorem attempt_without_a_key_is_rejected_before_any_call
    (service : GeminiReceiptService) (file : File.t) (apiKey : string)
    (tr : list Event) :
  apiKey = "" ->
  thunk service file apiKey tr =
    ([extractReceiptData_pending;
      extractReceiptData_rejected (Some "Gemini API key is required")],
     service, tr).
Proof. intros ->. reflexivity. Qed.

(** An attempt with a key, whatever handle the service held before. *)
Lemma thunk_with_key (service : GeminiReceiptService) (file : File.t)
    (apiKey : string) (tr : list Event) :
  apiKey <> "" ->
  exists r tr',
    extract (mkService (Some apiKey)) file tr = (Normal r, tr') /\
    ((exists d,
        r = ApiResponse.mk true (Some d) None /\
        thunk service file apiKey tr =
          (successfulAttempt d, mkService (Some apiKey), tr')) \/
     (exists message,
        r = failure message /\
        thunk service file apiKey tr =
          ([extractReceiptData_pending; updateProgress 25; updateProgress 75;
            extractReceiptData_rejected
              (Some (if Js.truthy message then message
                     else "Failed to extract receipt data"))],
           mkService (Some apiKey), tr'))).
Proof.
  intros Hkey.
  destruct (extract_result_shape getReceiptValidationPrompt getPrompt JSON_parse
              nullReadMessage env (mkService (Some apiKey)) file tr)
    as (r & tr' & Hr & Hshape).
  exists r, tr'. split; [exact Hr|].
  unfold extractReceiptDataThunk, payloadCreator.
  rewrite (initialize_nonempty apiKey Hkey), Hr.
  destruct r as [s d e]. cbn in Hshape |- *.
  destruct Hshape as [(-> & (d' & ->) & ->)|(-> & -> & (m & ->))].
  - left. exists d'. split; reflexivity.
  - right. exists m. split; reflexivity.
Qed.

(** X13. An attempt with a key makes a handle of that key, whatever the
    service held before, and relays the verdict of the client: the four
    progress steps and the record on a success; two progress steps and
    the message on a failure, a fixed text standing in for an empty
    message. *)
Theorem attempt_with_a_key_relays_the_client
    (service : GeminiReceiptService) (file : File.t) (apiKey : string)
    (tr : list Event) :
  apiKey <> "" ->
  exists r tr',
    extract (mkService (Some apiKey)) file tr = (Normal r, tr') /\
    ((exists d,
        r = ApiResponse.mk true (Some d) None /\
        thunk service file apiKey tr =
          (successfulAttempt d, mkService (Some apiKey), tr')) \/
     (exists message,
        r = failure message /\
        thunk service file apiKey tr =
          ([extractReceiptData_pending; updateProgress 25; updateProgress 75;
            extractReceiptData_rejected
              (Some (if Js.truthy message then message
                     else "Failed to extract receipt data"))],
           mkService (Some apiKey), tr'))).
Proof. exact (thunk_with_key service file apiKey tr). Qed.

(** X14. Whatever the key, the file and the world, an attempt leaves the store
    idle, and in one of two states: a record on display, stored at the
    head of the history and persisted, with no error and the progress at
    100; or an error that is not the empty text, the progress back at 0,
    and the records as they were. *)
Theorem attempt_ends_idle_with_a_record_or_a_message
    (st : Store) (service : GeminiReceiptService) (file : File.t)
    (apiKey : string) (tr : list Event) :
  let st' := dispatchAll st (fst (fst (thunk service file apiKey tr))) in
  isLoading (state st') = false /\
  isProcessing (state st') = false /\
  ((exists d,
      data (state st') = Some d /\
      currentExtraction (state st') = Some d /\
      error (state st') = None /\
      progress (state st') = 100%Z /\
      history (state st') = d :: slice0 9 (history (state st)) /\
      saved st' = Some (history (state st'))) \/
   (exists message,
      error (state st') = Some message /\
      message <> "" /\
      progress (state st') = 0%Z /\
      data (state st') = data (state st) /\
      currentExtraction (state st') = currentExtraction (state st) /\
      history (state st') = history (state st) /\
      saved st' = saved st)).
Proof.
  destruct apiKey as [|c k] eqn:Ek.
  - cbn. split; [reflexivity|]. split; [reflexivity|]. right.
    eexists. repeat split; try reflexivity. discriminate.
  - rewrite <- Ek.
    assert (Hkey : apiKey <> "") by (rewrite Ek; discriminate).
    destruct (thunk_with_key service file apiKey tr Hkey)
      as (r & tr' & _ & [(d & _ & ->)|(m & _ & ->)]).
    + cbn. split; [reflexivity|]. split; [reflexivity|]. left.
      exists d. repeat split; reflexivity.
    + cbn. split; [reflexivity|]. split; [reflexivity|]. right.
      eexists. repeat split; try reflexivity.
      destruct m; discriminate.
Qed.

End AttemptFacts.

(** ** The history: persistence, removal, recall *)

Lemma dispatch_in_sync (st : Store) (a : Action) :
  persistedInSync st -> persistedInSync (dispatch st a).
Proof.
  unfold persistedInSync, dispatch. intros H h.
  destruct a; cbn; try exact (H h); try (now intros [= <-]).
  - destruct (data (state st)); cbn; [now intros [= <-]|exact (H h)].
  - destruct (find _ _); cbn; exact (H h).
Qed.

(** X15. The persisted list never lags behind: if the list last handed to
    [saveHistoryToStorage] is the history of the state, or nothing was
    handed over yet, this is so again after any run of actions. Every
    case of the reducer that writes the history hands over what it
    wrote. *)
Theorem persisted_list_follows_the_history (st : Store) (actions : list Action) :
  persistedInSync st -> persistedInSync (dispatchAll st actions).
Proof.
  revert st. induction actions as [|a rest IH]; intros st H; [exact H|].
  change (dispatchAll st (a :: rest)) with (dispatchAll (dispatch st a) rest).
  apply IH. now apply dispatch_in_sync.
Qed.

Lemma filter_filter_same {A} (f : A -> bool) (l : list A) :
  filter f (filter f l) = filter f l.
Proof.
  induction l as [|x l IH]; [reflexivity|]. cbn.
  destruct (f x) eqn:E; cbn; [rewrite E; now f_equal|exact IH].
Qed.

Lemma filter_length_le {A} (f : A -> bool) (l : list A) :
  (List.length (filter f l) <= List.length l)%nat.
Proof. induction l as [|x l IH]; cbn; [lia|destruct (f x); cbn; lia]. Qed.

Lemma named_after_removal (fileName : string) (h : list ReceiptData.t) :
  named fileName
    (filter (fun item =>
               negb (String.eqb (ReceiptData.file_name item) fileName)) h) = [].
Proof.
  unfold named. induction h as [|x l IH]; [reflexivity|].
  cbn. destruct (String.eqb (ReceiptData.file_name x) fileName) eqn:E; cbn;
    [exact IH|now rewrite E].
Qed.

(** X16. [removeFromHistory] takes out every record that carries the name,
    however many there are, keeps the others, and persists what is left;
    a second removal of the same name changes nothing. The record on
    display and the current extraction stay, also when they carry the
    name. *)
Theorem removal_takes_every_record_of_that_name (st : Store) (fileName : string) :
  let st' := dispatch st (removeFromHistory fileName) in
  (forall r, In r (history (state st')) <->
             In r (history (state st)) /\ ReceiptData.file_name r <> fileName) /\
  named fileName (history (state st')) = [] /\
  (List.length (history (state st')) + List.length (named fileName (history (state st)))
   = List.length (history (state st)))%nat /\
  saved st' = Some (history (state st')) /\
  data (state st') = data (state st) /\
  currentExtraction (state st') = currentExtraction (state st) /\
  dispatch st' (removeFromHistory fileName) = st'.
Proof.
  cbn. unfold dispatch. cbn.
  split; [|split; [|split; [|split; [|split; [|split]]]]]; try reflexivity.
  - intros r. rewrite filter_In, negb_true_iff, String.eqb_neq. tauto.
  - apply named_after_removal.
  - unfold named. induction (history (state st)) as [|x l IH]; [reflexivity|].
    cbn. destruct (String.eqb (ReceiptData.file_name x) fileName); cbn; lia.
  - now rewrite filter_filter_same.
Qed.

(** X17. [loadFromHistory] puts on display the newest record of that name:
    the history is kept newest first, and the first match is taken. The
    error is erased; the history, the current extraction, the progress
    and the persisted list stay. With no record of that name the store is
    left as it is. *)
Theorem recall_shows_the_newest_record_of_that_name (st : Store) (fileName : string) :
  let st' := dispatch st (loadFromHistory fileName) in
  (forall newer r older,
     history (state st) = (newer ++ r :: older)%list ->
     named fileName newer = [] ->
     ReceiptData.file_name r = fileName ->
     data (state st') = Some r /\ error (state st') = None) /\
  (named fileName (history (state st)) = [] -> st' = st) /\
  history (state st') = history (state st) /\
  currentExtraction (state st') = currentExtraction (state st) /\
  progress (state st') = progress (state st) /\
  saved st' = saved st.
Proof.
  cbn. unfold dispatch. cbn.
  assert (Hfind : forall newer r older,
             named fileName newer = [] ->
             ReceiptData.file_name r = fileName ->
             find (fun item => String.eqb (ReceiptData.file_name item) fileName)
                  (newer ++ r :: older)%list = Some r).
  { intros newer r older Hn Hr. unfold named in Hn.
    induction newer as [|x l IH]; cbn.
    - now rewrite Hr, String.eqb_refl.
    - cbn in Hn. destruct (String.eqb (ReceiptData.file_name x) fileName);
        [discriminate|now apply IH]. }
  assert (Hnone : named fileName (history (state st)) = [] ->
                  find (fun item => String.eqb (ReceiptData.file_name item) fileName)
                       (history (state st)) = None).
  { unfold named. induction (history (state st)) as [|x l IH]; [reflexivity|].
    cbn. destruct (String.eqb (ReceiptData.file_name x) fileName);
      [discriminate|exact IH]. }
  split; [|split].
  - intros newer r older Hh Hn Hr. rewrite Hh, (Hfind _ _ _ Hn Hr). now split.
  - intros H. rewrite (Hnone H). now destruct st.
  - destruct (find _ _); cbn; repeat split; reflexivity.
Qed.

(** ** The delete button of the details dialog *)

Section DeleteFacts.

Variable getReceiptValidationPrompt : string.
Variable getPrompt : string.
Variable JSON_parse : string -> option json.
Variable nullReadMessage : string -> string.
Variable env : Env.

Local Abbreviation extract :=
  (extractReceiptData getReceiptValidationPrompt getPrompt JSON_parse
     nullReadMessage env).

(** The two names of a record made by the client. *)
Lemma success_names (this : GeminiReceiptService) (file : File.t)
    (tr tr' : list Event) (r : ApiResponse.t) (d : ReceiptData.t) :
  extract this file tr = (Normal r, tr') ->
  ApiResponse.success r = true ->
  ApiResponse.data r = Some d ->
  ReceiptData.fileName d = File.name file /\
  ReceiptData.file_name d = File.name file.
Proof.
  intros H Hs Hd.
  destruct (extract_success _ _ _ _ _ _ _ _ _ _ H Hs)
    as (url1 & reply1 & _ & _ & _ & H2).
  destruct (stage2_success _ _ _ _ _ _ _ _ H2)
    as (url2 & reply & members & arr & _ & _ & _ & _ & _ & _ & ->).
  cbn in Hd. injection Hd as <-. now split.
Qed.

(** X18. The dialog names the record to delete by [fileName], the reducer
    looks for it by [file_name]. On a record the client made from a file
    with a name the two agree, so the button works: the record leaves the
    history, and with it every other record made from a file of that
    name; the records of other names stay. *)
Theorem delete_button_removes_every_extraction_of_the_file
    (this : GeminiReceiptService) (file : File.t) (tr tr' : list Event)
    (r : ApiResponse.t) (d : ReceiptData.t) (st : Store) :
  extract this file tr = (Normal r, tr') ->
  ApiResponse.success r = true ->
  ApiResponse.data r = Some d ->
  File.name file <> "" ->
  let st' := handleDelete (Some d) st in
  ~ In d (history (state st')) /\
  (forall x, In x (history (state st')) <->
             In x (history (state st)) /\
             ReceiptData.file_name x <> File.name file) /\
  saved st' = Some (history (state st')).
Proof.
  intros H Hs Hd Hname st'. subst st'.
  destruct (success_names this file tr tr' r d H Hs Hd) as [E1 E2].
  unfold handleDelete. rewrite E1.
  apply truthy_nonempty in Hname. rewrite Hname.
  unfold dispatch. cbn.
  assert (Hin : forall x,
            In x (filter (fun item =>
                    negb (String.eqb (ReceiptData.file_name item) (File.name file)))
                    (history (state st))) <->
            In x (history (state st)) /\
            ReceiptData.file_name x <> File.name file).
  { intros x. rewrite filter_In, negb_true_iff, String.eqb_neq. tauto. }
  split; [|split; [exact Hin|reflexivity]].
  intros Hd'. apply Hin in Hd' as [_ Hne]. now apply Hne.
Qed.

End DeleteFacts.

(** X19. On a record whose two names differ the button misses: the record
    stays in the history, and the records whose [file_name] is the
    [fileName] of the record shown are the ones that go. Without a
    [fileName], or without a record, the button does nothing. *)
Theorem delete_button_goes_by_the_other_name (e : ReceiptData.t) (st : Store) :
  (ReceiptData.fileName e <> ReceiptData.file_name e ->
   In e (history (state st)) ->
   In e (history (state (handleDelete (Some e) st)))) /\
  (ReceiptData.fileName e <> "" ->
   named (ReceiptData.fileName e) (history (state (handleDelete (Some e) st))) = []) /\
  (ReceiptData.fileName e = "" -> handleDelete (Some e) st = st) /\
  handleDelete None st = st.
Proof.
  unfold handleDelete. split; [|split; [|split]]; try reflexivity.
  - intros Hne Hin. destruct (Js.truthy _); [|exact Hin].
    unfold dispatch. cbn. apply filter_In. split; [exact Hin|].
    apply negb_true_iff, String.eqb_neq. congruence.
  - intros H. apply truthy_nonempty in H. rewrite H.
    unfold dispatch. cbn. apply named_after_removal.
  - intros ->. reflexivity.
Qed.

(** ** The currency helpers *)

Lemma removeAll_free (class : ascii -> bool) (s : string) :
  Js.all (fun c => negb (class c)) (removeAll class s) = true.
Proof.
  induction s as [|c s IH]; [reflexivity|]. cbn.
  destruct (class c) eqn:E; [exact IH|]. cbn. now rewrite E.
Qed.

Lemma upperChar_idempotent (c : ascii) : Js.upperChar (Js.upperChar c) = Js.upperChar c.
Proof. destruct c as [[] [] [] [] [] [] [] []]; vm_compute; reflexivity. Qed.

Lemma lowerChar_idempotent (c : ascii) : Js.lowerChar (Js.lowerChar c) = Js.lowerChar c.
Proof. destruct c as [[] [] [] [] [] [] [] []]; vm_compute; reflexivity. Qed.

Lemma lowerChar_upperChar (c : ascii) : Js.lowerChar (Js.upperChar c) = Js.lowerChar c.
Proof. destruct c as [[] [] [] [] [] [] [] []]; vm_compute; reflexivity. Qed.

Lemma upperChar_sharpS (c : ascii) :
  Ascii.eqb c Js.sharpS = false -> Ascii.eqb (Js.upperChar c) Js.sharpS = false.
Proof. destruct c as [[] [] [] [] [] [] [] []]; vm_compute; auto. Qed.

Lemma lowerChar_sharpS (c : ascii) :
  Ascii.eqb (Js.lowerChar c) Js.sharpS = Ascii.eqb c Js.sharpS.
Proof. destruct c as [[] [] [] [] [] [] [] []]; vm_compute; reflexivity. Qed.

Lemma upperChar_lowerChar (c : ascii) : Js.upperChar (Js.lowerChar c) = Js.upperChar c.
Proof. destruct c as [[] [] [] [] [] [] [] []]; vm_compute; reflexivity. Qed.

Lemma toUpperCase_cons (c : ascii) (s : string) :
  Js.toUpperCase (String c s) =
    if Ascii.eqb c Js.sharpS then String "S" (String "S" (Js.toUpperCase s))
    else String (Js.upperChar c) (Js.toUpperCase s).
Proof. reflexivity. Qed.

Lemma toUpperCase_idempotent (s : string) :
  Js.toUpperCase (Js.toUpperCase s) = Js.toUpperCase s.
Proof.
  induction s as [|c s IH]; [reflexivity|].
  rewrite toUpperCase_cons. destruct (Ascii.eqb c Js.sharpS) eqn:E.
  - rewrite !toUpperCase_cons. change (Ascii.eqb "S" Js.sharpS) with false.
    cbv iota. change (Js.upperChar "S") with "S"%char. now rewrite IH.
  - rewrite toUpperCase_cons, (upperChar_sharpS c E), upperChar_idempotent.
    now rewrite IH.
Qed.

Lemma toUpperCase_toLowerCase (s : string) :
  Js.toUpperCase (Js.toLowerCase s) = Js.toUpperCase s.
Proof.
  induction s as [|c s IH]; [reflexivity|].
  change (Js.toLowerCase (String c s))
    with (String (Js.lowerChar c) (Js.toLowerCase s)).
  rewrite !toUpperCase_cons, lowerChar_sharpS, upperChar_lowerChar.
  now rewrite IH.
Qed.

Lemma toLowerCase_idempotent (s : string) :
  Js.toLowerCase (Js.toLowerCase s) = Js.toLowerCase s.
Proof.
  unfold Js.toLowerCase. induction s as [|c s IH]; [reflexivity|].
  cbn. now rewrite lowerChar_idempotent, IH.
Qed.

(** Away from U+00DF the lower case of the upper case is the lower case. *)
Lemma toLowerCase_toUpperCase (s : string) :
  Js.all (fun c => negb (Ascii.eqb c Js.sharpS)) s = true ->
  Js.toLowerCase (Js.toUpperCase s) = Js.toLowerCase s.
Proof.
  induction s as [|c s IH]; [reflexivity|].
  cbn [Js.all]. intros H. apply andb_true_iff in H as [Hc Hs].
  apply negb_true_iff in Hc. rewrite toUpperCase_cons, Hc.
  change (Js.toLowerCase (String (Js.upperChar c) (Js.toUpperCase s)))
    with (String (Js.lowerChar (Js.upperChar c)) (Js.toLowerCase (Js.toUpperCase s))).
  rewrite lowerChar_upperChar, (IH Hs). reflexivity.
Qed.

Section SymbolFacts.

Variable parseFloat : string -> number.
Variable Intl_NumberFormat_format :
  string -> NumberFormatOptions.t -> number -> completion string.

Local Abbreviation symbolOf := (getCurrencySymbol Intl_NumberFormat_format).
Local Abbreviation format := (formatCurrency parseFloat Intl_NumberFormat_format).

(** X20. [getCurrencySymbol] never throws, whatever the formatter does, and
    what it returns holds no digit, point, comma or blank: the rendering
    of 0 without them, or the dollar sign when the formatter rejects the
    code. Unlike [formatCurrency] it asks for no fraction digits and has
    no second call that could throw. *)
Theorem getCurrencySymbol_gives_a_bare_symbol (currencyCode : option string) :
  exists s,
    symbolOf currencyCode = Normal s /\
    bareSymbol s = true /\
    (forall e,
       Intl_NumberFormat_format (localeOf currencyCode)
         (NumberFormatOptions.mk "currency"
            (Js.toUpperCase (codeOf currencyCode)) 0 0)
         (Finite 0 0) = Throw e ->
       s = "$") /\
    (forall formatted,
       Intl_NumberFormat_format (localeOf currencyCode)
         (NumberFormatOptions.mk "currency"
            (Js.toUpperCase (codeOf currencyCode)) 0 0)
         (Finite 0 0) = Normal formatted ->
       s = removeAll isNumberPart formatted).
Proof.
  unfold getCurrencySymbol, localeOf, codeOf.
  destruct (Intl_NumberFormat_format _ _ _) as [formatted|e0];
    eexists; (split; [reflexivity|]); (split; [|split]); try discriminate.
  - apply removeAll_free.
  - now intros f [= <-].
  - reflexivity.
  - reflexivity.
Qed.

(** X21. Both helpers read the currency code through [toUpperCase] only: two
    codes that differ in the case of their letters format alike, and a
    call without a code is a call with USD. *)
Theorem currency_code_is_read_case_insensitively (amount : Amount) (c1 c2 : string) :
  Js.toUpperCase c1 = Js.toUpperCase c2 ->
  format amount (Some c1) = format amount (Some c2) /\
  symbolOf (Some c1) = symbolOf (Some c2) /\
  format amount (Some (Js.toLowerCase c1)) = format amount (Some (Js.toUpperCase c1)) /\
  format amount None = format amount (Some "usd") /\
  symbolOf None = symbolOf (Some "usd").
Proof.
  intros H.
  assert (E : Js.toUpperCase (Js.toLowerCase c1) = Js.toUpperCase (Js.toUpperCase c1))
    by now rewrite toUpperCase_idempotent, toUpperCase_toLowerCase.
  split; [|split; [|split; [|split]]].
  - unfold formatCurrency. now rewrite H.
  - unfold getCurrencySymbol. now rewrite H.
  - unfold formatCurrency. now rewrite E.
  - reflexivity.
  - reflexivity.
Qed.

End SymbolFacts.

(** ** Detection of the currency, continued *)

(** X22. Whatever the address and the language, the detected currency is
    written in upper case and is one of the codes of the locale map: a
    detected currency is never formatted with the fallback locale for a
    want of an entry. *)
Theorem detected_currency_has_a_locale (address language : option string) :
  let c := detectCurrencyFromLocation address language in
  Js.toUpperCase c = c /\
  exists locale,
    lookup c CURRENCY_LOCALE_MAP = Some locale /\
    localeOf (Some c) = locale.
Proof.
  cbn zeta. unfold localeOf, codeOf.
  assert (H : detectCurrencyFromLocation address language = "USD" \/
              In (detectCurrencyFromLocation address language) (map snd patterns)).
  { unfold detectCurrencyFromLocation.
    destruct (negb (optTruthy address) && negb (optTruthy language));
      [now left|apply firstMatch_range]. }
  destruct H as [->|H]; [split; [reflexivity|eexists; split; reflexivity]|].
  cbn [map snd patterns] in H.
  repeat (destruct H as [<-|H];
          [split; [reflexivity|eexists; split; reflexivity]|]).
  contradiction.
Qed.

(** X23. The detection reads the lower-cased text only: two addresses, or
    two languages, that have the same lower case give the same currency.
    Upper-casing the arguments changes nothing as long as they hold no
    U+00DF (nor one of the two code units whose upper case is not
    modelled). With U+00DF it can: the upper case of Swiss written with
    U+00DF is SWISS, which the Swiss pattern matches, while the word
    itself matches no pattern. *)
Theorem detection_reads_the_lower_cased_text (a1 a2 l1 l2 : string) :
  Js.toLowerCase a1 = Js.toLowerCase a2 ->
  Js.toLowerCase l1 = Js.toLowerCase l2 ->
  detectCurrencyFromLocation (Some a1) (Some l1) =
  detectCurrencyFromLocation (Some a2) (Some l2) /\
  (caseStable a1 = true -> caseStable l1 = true ->
   detectCurrencyFromLocation (Some (Js.toUpperCase a1)) (Some (Js.toUpperCase l1)) =
   detectCurrencyFromLocation (Some a1) (Some l1)) /\
  detectCurrencyFromLocation (Some swissWithSharpS) None = "USD" /\
  Js.toUpperCase swissWithSharpS = "SWISS" /\
  detectCurrencyFromLocation (Some (Js.toUpperCase swissWithSharpS)) None = "CHF".
Proof.
  assert (T : forall s, Js.truthy (Js.toLowerCase s) = Js.truthy s)
    by (intros [|c s]; reflexivity).
  assert (D : forall a l,
            detectCurrencyFromLocation (Some a) (Some l) =
            if negb (Js.truthy (Js.toLowerCase a)) &&
               negb (Js.truthy (Js.toLowerCase l))
            then "USD"
            else firstMatch patterns (Js.toLowerCase a ++ " " ++ Js.toLowerCase l)).
  { intros a l. unfold detectCurrencyFromLocation, optTruthy, lowerOrEmpty.
    now rewrite !T. }
  intros Ha Hl. split; [|split; [|split; [|split]]].
  - now rewrite !D, Ha, Hl.
  - unfold caseStable. intros Sa Sl.
    apply andb_true_iff in Sa as [_ Sa]. apply andb_true_iff in Sl as [_ Sl].
    now rewrite !D, (toLowerCase_toUpperCase _ Sa), (toLowerCase_toUpperCase _ Sl).
  - vm_compute. reflexivity.
  - vm_compute. reflexivity.
  - vm_compute. reflexivity.
Qed.

(** ** The page *)

Lemma validateFile_accepts (f : Upload.t) :
  fst (validateFile f) = true <->
  In (File.type (Upload.file f)) supportedTypes /\ (Upload.size f <= 10485760)%Z.
Proof.
  unfold validateFile, Array_includes.
  destruct (existsb _ supportedTypes) eqn:E; cbn [negb].
  - apply existsb_exists in E as (x & Hin & Hx). apply String.eqb_eq in Hx. subst x.
    destruct (Upload.size f >? maxFileSize)%Z eqn:Es; cbn [fst].
    + apply Z.gtb_lt in Es. unfold maxFileSize in Es. split; [discriminate|lia].
    + split; [intros _|reflexivity]. split; [exact Hin|].
      pose proof (Zgt_cases (Upload.size f) maxFileSize) as H. rewrite Es in H.
      unfold maxFileSize in H. lia.
  - cbn [fst]. split; [discriminate|]. intros [Hin _].
    assert (existsb (String.eqb (File.type (Upload.file f))) supportedTypes = true)
      by (apply existsb_exists; eexists; split; [exact Hin|apply String.eqb_refl]).
    congruence.
Qed.

(** X24. Whatever the user does on the page, the selected file is one that
    [validateFile] accepted: its type is one of the four supported types
    and it holds at most 10485760 bytes. A file of exactly that size is
    accepted. A refused file leaves the file selected before in place. *)
Theorem only_accepted_files_are_selected (p : Page) (events : list PageEvent) :
  selectedFile p = None ->
  forall f,
    selectedFile (pageRun p events) = Some f ->
    In (File.type (Upload.file f)) supportedTypes /\
    (Upload.size f <= 10485760)%Z /\
    In (FileSelect f) events.
Proof.
  intros H0.
  assert (G : forall events p,
            (forall f, selectedFile p = Some f -> fst (validateFile f) = true) ->
            forall f, selectedFile (pageRun p events) = Some f ->
                      fst (validateFile f) = true /\
                      (selectedFile p = Some f \/ In (FileSelect f) events)).
  { clear. induction events as [|e rest IH]; intros p Hp f Hf.
    - split; [now apply Hp|now left].
    - change (pageRun p (e :: rest)) with (pageRun (pageStep p e) rest) in Hf.
      assert (Hstep : forall g, selectedFile (pageStep p e) = Some g ->
                fst (validateFile g) = true /\
                (selectedFile p = Some g \/ e = FileSelect g)).
      { intros g. destruct e as [f'| |c]; cbn.
        - unfold handleFileSelect.
          destruct (validateFile f') as [[] err] eqn:Ev; cbn.
          + intros [= <-]. rewrite Ev. split; [reflexivity|now right].
          + intros Hg. split; [now apply Hp|now left].
        - discriminate.
        - intros Hg. split; [now apply Hp|now left]. }
      destruct (IH (pageStep p e) (fun g Hg => proj1 (Hstep g Hg)) f Hf)
        as [Hv [Hsel|Hin]].
      + split; [exact Hv|]. destruct (Hstep f Hsel) as [_ [H|H]];
          [now left|right; left; now symmetry].
      + split; [exact Hv|right; now right]. }
  intros f Hf.
  destruct (G events p (fun g Hg => ltac:(congruence)) f Hf) as [Hv [Hsel|Hin]];
    [congruence|].
  apply validateFile_accepts in Hv as [Ht Hs]. auto.
Qed.

Section PageFacts.

Variable getReceiptValidationPrompt : string.
Variable getPrompt : string.
Variable JSON_parse : string -> option json.
Variable nullReadMessage : string -> string.
Variable env : Env.

Local Abbreviation extract :=
  (extractReceiptData getReceiptValidationPrompt getPrompt JSON_parse
     nullReadMessage env).
Local Abbreviation thunk :=
  (extractReceiptDataThunk getReceiptValidationPrompt getPrompt JSON_parse
     nullReadMessage env).

(** X25. The page dispatches the extraction only with a selected file, a key
    that is not empty (the one of the environment, or else the answer to
    the prompt) and a country that is not blank. So an attempt started
    from the page always gets past [initialize]: the store sees the first
    progress step and the service holds a handle made of that key. *)
Theorem page_starts_an_attempt_only_with_file_key_and_country
    (envKey promptAnswer : option string) (p : Page)
    (file : File.t) (apiKey c : string) :
  handleExtractData envKey promptAnswer p = DispatchExtract file apiKey c ->
  (exists f, selectedFile p = Some f /\ file = Upload.file f) /\
  apiKey <> "" /\
  (envKey = Some apiKey \/
   optTruthy envKey = false /\ promptAnswer = Some apiKey) /\
  c = country p /\ Js.trim c <> "" /\
  forall service tr,
    snd (fst (thunk service file apiKey tr)) = mkService (Some apiKey) /\
    exists rest,
      fst (fst (thunk service file apiKey tr)) =
        extractReceiptData_pending :: updateProgress 25 :: rest.
Proof.
  unfold handleExtractData.
  destruct (selectedFile p) as [f|]; [|discriminate].
  set (k := if optTruthy envKey then envKey else promptAnswer).
  destruct (optTruthy k) eqn:Hk; cbn [negb]; [|discriminate].
  destruct (negb (Js.truthy (country p)) || String.eqb (Js.trim (country p)) "")
    eqn:Hc; [discriminate|].
  intros [= <- <- <-].
  apply orb_false_iff in Hc as [_ Hc]. apply String.eqb_neq in Hc.
  destruct k as [key|] eqn:Ek; [|discriminate]. cbn in Hk.
  apply truthy_nonempty in Hk.
  split; [now exists f|]. split; [exact Hk|].
  split.
  { subst k. destruct (optTruthy envKey) eqn:He; [now left|right; now split]. }
  split; [reflexivity|]. split; [exact Hc|].
  intros service tr.
  destruct (thunk_with_key getReceiptValidationPrompt getPrompt JSON_parse
              nullReadMessage env service (Upload.file f) key tr Hk)
    as (r & tr' & _ & [(d & _ & ->)|(m & _ & ->)]);
    (split; [reflexivity|eexists; reflexivity]).
Qed.

(** X26. For a record the client made, the count in the header of the item
    list and the count written to the exports agree when the reply gave a
    total; when it gave none the record holds [null], the header shows 0
    and the exports show the number of item lines. *)
Theorem total_items_fallbacks_differ
    (this : GeminiReceiptService) (file : File.t) (tr tr' : list Event)
    (r : ApiResponse.t) (d : ReceiptData.t) :
  extract this file tr = (Normal r, tr') ->
  ApiResponse.success r = true ->
  ApiResponse.data r = Some d ->
  (truthy (Some (ReceiptData.totalItems d)) = true /\
   itemsHeaderCount d = ReceiptData.totalItems d /\
   exportedTotalItems d = ReceiptData.totalItems d) \/
  (ReceiptData.totalItems d = JNull /\
   itemsHeaderCount d = JNum (Finite 0 0) /\
   exportedTotalItems d = numberOfNat (List.length (ReceiptData.items d))).
Proof.
  intros H Hs Hd.
  destruct (extract_success _ _ _ _ _ _ _ _ _ _ H Hs)
    as (url1 & reply1 & _ & _ & _ & H2).
  destruct (stage2_success _ _ _ _ _ _ _ _ H2)
    as (url2 & reply & members & arr & _ & _ & _ & _ & _ & _ & ->).
  cbn in Hd. injection Hd as <-.
  unfold itemsHeaderCount, exportedTotalItems.
  cbn [ReceiptData.totalItems ReceiptData.items].
  assert (Ht : truthy (Some (orElse (assoc "totalItems" members) JNull)) = true \/
               orElse (assoc "totalItems" members) JNull = JNull).
  { unfold orElse. destruct (assoc "totalItems" members) as [v|]; [|now right].
    destruct (truthy (Some v)) eqn:Et; [now left|now right]. }
  revert Ht. generalize (orElse (assoc "totalItems" members) JNull).
  intros t [Ht|Ht].
  - left. unfold orElse. rewrite Ht. auto.
  - right. subst t. split; [reflexivity|]. split; [reflexivity|].
    destruct arr; reflexivity.
Qed.

End PageFacts.

(** ** The image part of a request *)

Lemma split_no_comma (s : string) : noComma s = true -> Js.split "," s = [s].
Proof.
  induction s as [|c s IH]; [reflexivity|]. cbn [noComma Js.all Js.split].
  intros H. apply andb_true_iff in H as [Hc Hs]. apply negb_true_iff in Hc.
  rewrite Hc. unfold noComma in IH. now rewrite (IH Hs).
Qed.

Lemma split_at_comma (a b : string) :
  noComma a = true -> Js.split "," (a ++ String "," b) = a :: Js.split "," b.
Proof.
  induction a as [|c a IH]; [reflexivity|]. cbn [noComma Js.all append Js.split].
  intros H. apply andb_true_iff in H as [Hc Ha]. apply negb_true_iff in Hc.
  rewrite Hc. unfold noComma in IH. now rewrite (IH Ha).
Qed.

(** X27. [fileToBase64] gives the part of the data URL between its first and
    its second comma, or up to the end when there is one comma only: for
    a URL made of a header, a comma and a base64 text, the base64 text.
    For a result without a comma it gives [undefined], and the call goes
    on to the request all the same. The reader is asked once per call. *)
Theorem fileToBase64_takes_what_follows_the_first_comma
    (env : Env) (file : File.t) (tr : list Event) (dataURL : string) :
  readAsDataURL env tr file = Some dataURL ->
  (forall header payload,
     noComma header = true -> noComma payload = true ->
     dataURL = header ++ "," ++ payload ->
     fileToBase64 env file tr =
       (Normal (Some payload), (tr ++ [ReadFile file])%list)) /\
  (forall header payload rest,
     noComma header = true -> noComma payload = true ->
     dataURL = header ++ "," ++ payload ++ "," ++ rest ->
     fileToBase64 env file tr =
       (Normal (Some payload), (tr ++ [ReadFile file])%list)) /\
  (noComma dataURL = true ->
   fileToBase64 env file tr = (Normal None, (tr ++ [ReadFile file])%list)).
Proof.
  intros Hread. unfold fileToBase64. rewrite Hread.
  split; [|split].
  - intros header payload Hh Hp ->.
    change (header ++ "," ++ payload) with (header ++ String "," payload).
    now rewrite (split_at_comma _ _ Hh), (split_no_comma _ Hp).
  - intros header payload rest Hh Hp ->.
    change (header ++ "," ++ payload ++ "," ++ rest)
      with (header ++ String "," (payload ++ String "," rest)).
    now rewrite (split_at_comma _ _ Hh), (split_at_comma _ _ Hp).
  - intros H. now rewrite (split_no_comma _ H).
Qed.

(** ** The further properties on examples *)

Lemma testApiKey_passes_witness :
  fst (fst (testApiKey (answering (Some "FAIL")) (mkService None) "some-key")) =
    Normal true /\
  fst (fst (testApiKey (refusing "API key not valid") (mkService None) "some-key")) =
    Normal false.
Proof.
  split.
  - destruct (testApiKey_passes_on_any_reply_text (answering (Some "FAIL"))
                (mkService None) "some-key") as (b & -> & Hb).
    f_equal. apply Hb. split; [discriminate|].
    exists "FAIL". split; [reflexivity|discriminate].
  - destruct (testApiKey_passes_on_any_reply_text (refusing "API key not valid")
                (mkService None) "some-key") as (b & -> & Hb).
    f_equal. destruct b; [|reflexivity].
    destruct (proj1 Hb eq_refl) as (_ & t & Ht & _). discriminate Ht.
Defined.

Lemma testApiKey_tested_key_witness :
  testApiKey (answering (Some "OK")) (mkService (Some "good-key")) "" =
    (Normal false, mkService (Some "good-key"), []) /\
  snd (fst (testApiKey (refusing "API key not valid")
              (mkService (Some "good-key")) "bad-key")) =
    mkService (Some "bad-key") /\
  snd (testApiKey (refusing "API key not valid")
         (mkService (Some "good-key")) "bad-key") =
    [("bad-key", testRequest)].
Proof.
  split.
  - exact (proj1 (testApiKey_leaves_the_tested_key_in_use (answering (Some "OK"))
                    (mkService (Some "good-key")) "") eq_refl).
  - refine (proj2 (testApiKey_leaves_the_tested_key_in_use
                     (refusing "API key not valid")
                     (mkService (Some "good-key")) "bad-key") _).
    discriminate.
Defined.

Lemma attempt_without_a_key_witness :
  extractReceiptDataThunk validationPromptLine extractionPromptLine
    RefJSON.parse v8NullReadMessage
    (scriptedEnv (Some "VALID_RECEIPT") (Some coffeeReply))
    (mkService (Some "old-key")) receiptPng "" [] =
    ([extractReceiptData_pending;
      extractReceiptData_rejected (Some "Gemini API key is required")],
     mkService (Some "old-key"), []).
Proof.
  exact (attempt_without_a_key_is_rejected_before_any_call
           validationPromptLine extractionPromptLine RefJSON.parse
           v8NullReadMessage
           (scriptedEnv (Some "VALID_RECEIPT") (Some coffeeReply))
           (mkService (Some "old-key")) receiptPng "" [] eq_refl).
Defined.

Lemma attempt_with_a_key_witness :
  exists r tr',
    runIn (scriptedEnv (Some "VALID_RECEIPT") (Some coffeeReply))
          (mkService (Some "new-key")) = (Normal r, tr') /\
    ((exists d,
        r = ApiResponse.mk true (Some d) None /\
        extractReceiptDataThunk validationPromptLine extractionPromptLine
          RefJSON.parse v8NullReadMessage
          (scriptedEnv (Some "VALID_RECEIPT") (Some coffeeReply))
          (mkService (Some "old-key")) receiptPng "new-key" [] =
          (successfulAttempt d, mkService (Some "new-key"), tr')) \/
     (exists message,
        r = failure message /\
        extractReceiptDataThunk validationPromptLine extractionPromptLine
          RefJSON.parse v8NullReadMessage
          (scriptedEnv (Some "VALID_RECEIPT") (Some coffeeReply))
          (mkService (Some "old-key")) receiptPng "new-key" [] =
          ([extractReceiptData_pending; updateProgress 25; updateProgress 75;
            extractReceiptData_rejected
              (Some (if Js.truthy message then message
                     else "Failed to extract receipt data"))],
           mkService (Some "new-key"), tr'))).
Proof.
  refine (attempt_with_a_key_relays_the_client
            validationPromptLine extractionPromptLine RefJSON.parse
            v8NullReadMessage
            (scriptedEnv (Some "VALID_RECEIPT") (Some coffeeReply))
            (mkService (Some "old-key")) receiptPng "new-key" [] _).
  discriminate.
Defined.

Lemma persisted_list_witness :
  persistedInSync emptyStore /\
  persistedInSync
    (dispatchAll emptyStore
       (successfulAttempt (receiptNamed "a.png") ++
        [saveToHistory; removeFromHistory "a.png"; resetState;
         extractReceiptData_fulfilled (receiptNamed "b.png")])%list).
Proof.
  assert (H : persistedInSync emptyStore) by (intros h; discriminate).
  split; [exact H|].
  exact (persisted_list_follows_the_history emptyStore _ H).
Defined.

Lemma removal_witness :
  history (state (dispatch (storeWith twiceScanned) (removeFromHistory "a.png"))) =
    [receiptNamed "b.png"] /\
  ~ In (receiptNamed "a.png")
       (history (state (dispatch (storeWith twiceScanned)
                          (removeFromHistory "a.png")))).
Proof.
  split; [reflexivity|].
  intros H.
  apply (proj1 (removal_takes_every_record_of_that_name
                  (storeWith twiceScanned) "a.png")) in H.
  now apply (proj2 H).
Defined.

Lemma recall_witness :
  data (state (dispatch
                 (storeWith [receiptNamed "b.png"; renamedRecord;
                             receiptNamed "scan-2023.png"])
                 (loadFromHistory "scan-2023.png"))) = Some renamedRecord /\
  dispatch (storeWith twiceScanned) (loadFromHistory "c.png") =
    storeWith twiceScanned.
Proof.
  split.
  - exact (proj1 (proj1 (recall_shows_the_newest_record_of_that_name
                           (storeWith [receiptNamed "b.png"; renamedRecord;
                                       receiptNamed "scan-2023.png"])
                           "scan-2023.png")
                        [receiptNamed "b.png"] renamedRecord
                        [receiptNamed "scan-2023.png"]
                        eq_refl eq_refl eq_refl)).
  - exact (proj1 (proj2 (recall_shows_the_newest_record_of_that_name
                           (storeWith twiceScanned) "c.png"))
                 eq_refl).
Defined.

Lemma delete_button_witness :
  runIn (scriptedEnv (Some "VALID_RECEIPT") (Some coffeeReply))
        (mkService (Some "key")) =
    (Normal (ApiResponse.mk true (Some coffeeRecord) None), bothStages) /\
  ~ In coffeeRecord
       (history (state (handleDelete (Some coffeeRecord)
                          (dispatchAll (storeWith [receiptNamed "receipt.png"])
                             (successfulAttempt coffeeRecord))))).
Proof.
  assert (H : runIn (scriptedEnv (Some "VALID_RECEIPT") (Some coffeeReply))
                (mkService (Some "key")) =
              (Normal (ApiResponse.mk true (Some coffeeRecord) None), bothStages))
    by (vm_compute; reflexivity).
  split; [exact H|].
  refine (proj1 (delete_button_removes_every_extraction_of_the_file
                   validationPromptLine extractionPromptLine RefJSON.parse
                   v8NullReadMessage
                   (scriptedEnv (Some "VALID_RECEIPT") (Some coffeeReply))
                   (mkService (Some "key")) receiptPng [] bothStages _ coffeeRecord
                   (dispatchAll (storeWith [receiptNamed "receipt.png"])
                      (successfulAttempt coffeeRecord))
                   H eq_refl eq_refl _)).
  discriminate.
Defined.

Lemma delete_button_misses_witness :
  In renamedRecord
     (history (state (handleDelete (Some renamedRecord)
                        (storeWith [receiptNamed "scan.png"; renamedRecord])))) /\
  history (state (handleDelete (Some renamedRecord)
                    (storeWith [receiptNamed "scan.png"; renamedRecord]))) =
    [renamedRecord].
Proof.
  split; [|reflexivity].
  refine (proj1 (delete_button_goes_by_the_other_name renamedRecord
                   (storeWith [receiptNamed "scan.png"; renamedRecord])) _ _).
  - discriminate.
  - right. now left.
Defined.

Lemma getCurrencySymbol_witness :
  getCurrencySymbol RefIntl.format (Some "usd") = Normal "$" /\
  getCurrencySymbol RefIntl.format (Some "dollars") = Normal "$".
Proof.
  split.
  - destruct (getCurrencySymbol_gives_a_bare_symbol RefIntl.format (Some "usd"))
      as (s & -> & _ & _ & Hs).
    f_equal. apply (Hs "$0"). vm_compute. reflexivity.
  - destruct (getCurrencySymbol_gives_a_bare_symbol RefIntl.format (Some "dollars"))
      as (s & -> & _ & Hs & _).
    f_equal. apply (Hs (JsError "Invalid currency code : DOLLARS")).
    vm_compute. reflexivity.
Defined.

Lemma currency_code_case_witness :
  formatCurrency RefIntl.parseFloat RefIntl.format (ofString "12.5") (Some "usd") =
  formatCurrency RefIntl.parseFloat RefIntl.format (ofString "12.5") (Some "USD") /\
  getCurrencySymbol RefIntl.format (Some "usd") =
  getCurrencySymbol RefIntl.format (Some "USD").
Proof.
  destruct (currency_code_is_read_case_insensitively RefIntl.parseFloat
              RefIntl.format (ofString "12.5") "usd" "USD" eq_refl)
    as (H1 & H2 & _).
  split; [exact H1|exact H2].
Defined.

Lemma detection_reads_the_lower_cased_text_witness :
  detectCurrencyFromLocation (Some "12 Rue de Rivoli, PARIS") (Some "FR") =
  detectCurrencyFromLocation (Some "12 rue de rivoli, Paris") (Some "fr") /\
  detectCurrencyFromLocation (Some (Js.toUpperCase "12 Rue de Rivoli, Paris"))
    (Some (Js.toUpperCase "fr")) =
  detectCurrencyFromLocation (Some "12 Rue de Rivoli, Paris") (Some "fr").
Proof.
  split.
  - exact (proj1 (detection_reads_the_lower_cased_text "12 Rue de Rivoli, PARIS"
                    "12 rue de rivoli, Paris" "FR" "fr" eq_refl eq_refl)).
  - exact (proj1 (proj2 (detection_reads_the_lower_cased_text
                           "12 Rue de Rivoli, Paris" "12 Rue de Rivoli, Paris"
                           "fr" "fr" eq_refl eq_refl))
                 eq_refl eq_refl).
Defined.

Lemma only_accepted_files_witness :
  selectedFile (pageRun (firstRender emptyStore)
                  [FileSelect (pngOfSize 10485760); FileSelect gifUpload;
                   FileSelect (pngOfSize 10485761); SetCountry "Japan"]) =
    Some (pngOfSize 10485760) /\
  In (File.type (Upload.file (pngOfSize 10485760))) supportedTypes /\
  (Upload.size (pngOfSize 10485760) <= 10485760)%Z.
Proof.
  split; [reflexivity|].
  destruct (only_accepted_files_are_selected (firstRender emptyStore)
              [FileSelect (pngOfSize 10485760); FileSelect gifUpload;
               FileSelect (pngOfSize 10485761); SetCountry "Japan"]
              eq_refl (pngOfSize 10485760) eq_refl) as (Ht & Hs & _).
  split; [exact Ht|exact Hs].
Defined.

Lemma page_starts_an_attempt_witness :
  handleExtractData None (Some "typed-key")
    (pageRun (firstRender emptyStore)
       [FileSelect (pngOfSize 2048); SetCountry "Japan"]) =
    DispatchExtract receiptPng "typed-key" "Japan" /\
  snd (fst (extractReceiptDataThunk validationPromptLine extractionPromptLine
              RefJSON.parse v8NullReadMessage
              (scriptedEnv (Some "VALID_RECEIPT") (Some coffeeReply))
              (mkService None) receiptPng "typed-key" [])) =
    mkService (Some "typed-key").
Proof.
  split; [reflexivity|].
  destruct (page_starts_an_attempt_only_with_file_key_and_country
              validationPromptLine extractionPromptLine RefJSON.parse
              v8NullReadMessage
              (scriptedEnv (Some "VALID_RECEIPT") (Some coffeeReply))
              None (Some "typed-key")
              (pageRun (firstRender emptyStore)
                 [FileSelect (pngOfSize 2048); SetCountry "Japan"])
              receiptPng "typed-key" "Japan" eq_refl)
    as (_ & _ & _ & _ & _ & H).
  exact (proj1 (H (mkService None) [])).
Defined.

Lemma total_items_fallbacks_witness :
  ReceiptData.totalItems coffeeRecord = JNull /\
  itemsHeaderCount coffeeRecord = JNum (Finite 0 0) /\
  exportedTotalItems coffeeRecord = JNum (Finite 1 0).
Proof.
  destruct (total_items_fallbacks_differ
              validationPromptLine extractionPromptLine RefJSON.parse
              v8NullReadMessage
              (scriptedEnv (Some "VALID_RECEIPT") (Some coffeeReply))
              (mkService (Some "key")) receiptPng [] bothStages _ coffeeRecord
              ltac:(vm_compute; reflexivity) eq_refl eq_refl)
    as [(H & _)|H]; [discriminate H|exact H].
Defined.

Lemma fileToBase64_witness :
  fileToBase64 (scriptedEnv (Some "VALID_RECEIPT") (Some coffeeReply))
    receiptPng [] =
    (Normal (Some "iVBORw0KGgo="), [ReadFile receiptPng]) /\
  fileToBase64 (worldOf (fun _ => Some "data:") (fun _ => Normal None))
    receiptPng [] =
    (Normal None, [ReadFile receiptPng]).
Proof.
  split.
  - exact (proj1 (fileToBase64_takes_what_follows_the_first_comma
                    (scriptedEnv (Some "VALID_RECEIPT") (Some coffeeReply))
                    receiptPng [] pngDataURL eq_refl)
                 "data:image/png;base64" "iVBORw0KGgo=" eq_refl eq_refl eq_refl).
  - exact (proj2 (proj2 (fileToBase64_takes_what_follows_the_first_comma
                           (worldOf (fun _ => Some "data:") (fun _ => Normal None))
                           receiptPng [] "data:" eq_refl))
                 eq_refl).
Defined.

(** X28. Choosing and removing files never costs a record: whatever the
    user does on the page short of an extraction, the history, the
    persisted list, the record in [data] and the loading flags of the
    store stay as they were. An accepted file and a removal only clear
    the current extraction, the error and the progress; a refused file
    does not touch the store at all. *)
Theorem file_handling_keeps_the_records (p : Page) (events : list PageEvent) :
  let st := state (store p) in
  let st' := state (store (pageRun p events)) in
  history st' = history st /\
  saved (store (pageRun p events)) = saved (store p) /\
  data st' = data st /\
  isLoading st' = isLoading st /\
  isProcessing st' = isProcessing st /\
  (forall f, fst (validateFile f) = false ->
             store (handleFileSelect f p) = store p /\
             selectedFile (handleFileSelect f p) = selectedFile p) /\
  (forall f, fst (validateFile f) = true ->
             let s := state (store (handleFileSelect f p)) in
             currentExtraction s = None /\ error s = None /\
             progress s = 0%Z).
Proof.
  cbn zeta.
  assert (G : forall events p,
            history (state (store (pageRun p events))) = history (state (store p)) /\
            saved (store (pageRun p events)) = saved (store p) /\
            data (state (store (pageRun p events))) = data (state (store p)) /\
            isLoading (state (store (pageRun p events))) = isLoading (state (store p)) /\
            isProcessing (state (store (pageRun p events))) =
              isProcessing (state (store p))).
  { clear. induction events as [|e rest IH]; intros p; [now repeat split|].
    change (pageRun p (e :: rest)) with (pageRun (pageStep p e) rest).
    destruct (IH (pageStep p e)) as (H1 & H2 & H3 & H4 & H5).
    rewrite H1, H2, H3, H4, H5. clear.
    destruct e as [f| |c]; cbn; [|now repeat split..].
    unfold handleFileSelect. destruct (validateFile f) as [[] err];
      now repeat split. }
  destruct (G events p) as (H1 & H2 & H3 & H4 & H5).
  split; [exact H1|]. split; [exact H2|]. split; [exact H3|].
  split; [exact H4|]. split; [exact H5|].
  split; intros f Hf; unfold handleFileSelect;
    destruct (validateFile f) as [[] err]; try discriminate Hf;
    cbn; now repeat split.
Qed.

Lemma file_handling_witness :
  history (state (store (pageRun (firstRender (storeWith twiceScanned))
                           [FileSelect (pngOfSize 2048); FileSelect gifUpload;
                            RemoveFile]))) = twiceScanned /\
  store (handleFileSelect gifUpload (firstRender (storeWith twiceScanned))) =
    storeWith twiceScanned.
Proof.
  pose proof (file_handling_keeps_the_records
                (firstRender (storeWith twiceScanned))
                [FileSelect (pngOfSize 2048); FileSelect gifUpload; RemoveFile])
    as (H & _ & _ & _ & _ & Hrefused & _).
  split; [exact H|].
  exact (proj1 (Hrefused gifUpload eq_refl)).
Defined.
